(** * RMG-Py job loader: species reconciliation of [rmgpy/tools/loader.py]

    A shallow embedding of [load_rmg_py_job]: the observed-species
    synthesizer for sampled reactors, the identity map from input-file
    species to Chemkin species, flux-pair completion, the per-reactor
    remapping of species references, and the image step.

    Python objects are modelled as immutable records carrying an object
    identity; dictionaries as insertion-ordered association lists with unique
    keys; in-place mutation followed by an exception as a pair of the state
    reached and the exception raised. *)

From Stdlib Require Import List String Ascii Bool Arith Lia Permutation QArith.
Import ListNotations.
Local Open Scope string_scope.
Local Open Scope list_scope.
Local Open Scope nat_scope.

Set Implicit Arguments.

(** ** Python strings *)

Module PyStr.

(** [needle in hay] for Python [str]: [needle] occurs as a contiguous
    substring of [hay]. *)
Fixpoint contains (needle hay : string) : bool :=
  if String.prefix needle hay then true
  else match hay with
       | EmptyString => false
       | String _ rest => contains needle rest
       end.

(** [s.endswith("/")], used by [os.path.join]. *)
Fixpoint ends_with_slash (s : string) : bool :=
  match s with
  | EmptyString => false
  | String c EmptyString => Ascii.eqb c "/"%char
  | String _ rest => ends_with_slash rest
  end.

(** [os.path.join(a, b)] on a POSIX system, two components. *)
Definition os_path_join (a b : string) : string :=
  if String.prefix "/" b then b
  else if (String.eqb a EmptyString || ends_with_slash a)%bool then String.append a b
  else String.append a (String.append "/" b).

End PyStr.

(** ** Python dictionaries

    A [dict] keeps its items in insertion order and holds each key once;
    assigning to a key that is present replaces the value in place. *)

Module PyDict.
Section Dict.

Variables K V : Type.
Variable eqb : K -> K -> bool.

Definition dict := list (K * V).

Definition get (d : dict) (k : K) : option V :=
  match find (fun kv => eqb (fst kv) k) d with
  | Some kv => Some (snd kv)
  | None => None
  end.

(** [d[k] = v] *)
Fixpoint set (d : dict) (k : K) (v : V) : dict :=
  match d with
  | [] => [(k, v)]
  | (k', v') :: rest =>
      if eqb k' k then (k', v) :: rest else (k', v') :: set rest k v
  end.

(** [dict(items)] for a list of pairs. *)
Definition of_items (items : list (K * V)) : dict :=
  fold_left (fun d kv => set d (fst kv) (snd kv)) items [].

Definition keys (d : dict) : list K := map fst d.
Definition values (d : dict) : list V := map snd d.

End Dict.
End PyDict.

(** ** Exceptions and results *)

Inductive OSErrorKind : Type :=
  | FileExistsError
  | FileNotFoundError
  | PermissionError
  | OtherOSError (errno : nat).

(** ** External collaborators

    The graph library supplies the molecular structures; the input file
    supplies numeric quantities (Python floats). *)

Class Chemistry : Type := {
  Molecule : Type;
  Molecule_eq_dec : forall a b : Molecule, {a = b} + {a <> b};
  Quantity : Type
}.

Section Data.

Context {chem : Chemistry}.

(** *** Species

    The attributes of [Species] that the loader reads.  [ident] is the
    identity of the Python object: species are compared by reference, so two
    records are the same dictionary key exactly when they are the same
    object. *)
Record Species : Type := mkSpecies {
  ident : nat;
  label : string;
  reactive : bool;
  molecule : list Molecule
}.

Definition Species_eq_dec (a b : Species) : {a = b} + {a <> b}.
Proof.
  decide equality.
  - apply (list_eq_dec Molecule_eq_dec).
  - apply Bool.bool_dec.
  - apply String.string_dec.
  - apply Nat.eq_dec.
Defined.

Definition Species_eqb (a b : Species) : bool :=
  if Species_eq_dec a b then true else false.

Definition Pair : Type := (Species * Species)%type.

(** A value that the loader uses as a dictionary key or list element where
    the input file may hold either a species or a string. *)
Inductive PyKey : Type :=
  | KeySpecies (s : Species)
  | KeyStr (s : string).

Inductive exn : Type :=
  | KeyError (k : PyKey)
  | IndexError
  | OSError (kind : OSErrorKind).

Inductive result (A : Type) : Type :=
  | Ok (a : A)
  | Raise (e : exn).
Arguments Ok {A} a.
Arguments Raise {A} e.

Definition bind {A B} (r : result A) (k : A -> result B) : result B :=
  match r with
  | Ok a => k a
  | Raise e => Raise e
  end.

Notation "x <- r ;; k" := (bind r (fun x => k))
  (at level 61, r at next level, right associativity).

(** A list comprehension whose element expression may raise: elements are
    evaluated left to right and the first exception ends the evaluation. *)
Fixpoint comprehension {A B} (f : A -> result B) (l : list A) : result (list B) :=
  match l with
  | [] => Ok []
  | a :: rest =>
      b <- f a ;;
      bs <- comprehension f rest ;;
      Ok (b :: bs)
  end.

(** *** Reactions *)

(** [pairs] is [None] until flux pairs are generated. *)
Record Reaction : Type := mkReaction {
  reactants : list Species;
  products : list Species;
  pairs : option (list Pair)
}.

(** Truth value of [reaction.pairs]: [None] and the empty list are false. *)
Definition pairs_truthy (r : Reaction) : bool :=
  match pairs r with
  | None => false
  | Some [] => false
  | Some (_ :: _) => true
  end.

(** *** Termination criteria and reactors *)

Inductive TerminationCriterion : Type :=
  | TerminationTime (time : Quantity)
  | TerminationConversion (species : Species) (conversion : Quantity)
  | TerminationRateRatio (ratio : Quantity).

Definition SpeciesDict (V : Type) : Type := PyDict.dict Species V.

(** The reactor classes the loader distinguishes with [isinstance], each
    with the fields the loader reads or assigns. *)
Inductive ReactorVariant : Type :=
  | LiquidReactor (const_spc_names : option (list string))
                  (initial_concentrations : SpeciesDict Quantity)
  | SurfaceReactor (initial_gas_mole_fractions : SpeciesDict Quantity)
                   (initial_surface_coverages : SpeciesDict Quantity)
  | SimpleReactor (initial_mole_fractions : SpeciesDict Quantity)
  | MBSampledReactor (initial_mole_fractions : SpeciesDict Quantity)
                     (constantSpeciesList : list Species).

Record ReactionSystem : Type := mkReactionSystem {
  variant : ReactorVariant;
  termination : list TerminationCriterion;
  sensitive_species : list PyKey
}.

Record CoreEdgeReactionModel : Type := mkModel {
  core_species : list Species;
  core_reactions : list Reaction
}.

Record RMG : Type := mkRMG {
  initial_species : list Species;
  reaction_systems : list ReactionSystem;
  reaction_model : CoreEdgeReactionModel
}.

(** *** Files

    [existing] are the paths present on disk; [mkdir_fault] is a failure the
    operating system reports for a directory creation that would otherwise
    succeed (no permission, missing parent, ...). *)
Record FileSystem : Type := mkFS {
  existing : list string;
  mkdir_fault : option OSErrorKind
}.

Definition DrawRequest : Type := (Molecule * string)%type.

End Data.

Arguments Ok {chem A} a.
Arguments Raise {chem A} e.

(** The methods of [Species] and [Reaction] that the loader calls and that
    live in other modules of the package. *)
Class Collaborators {chem : Chemistry} : Type := {
  (** [species.is_isomorphic(other)]: structural equivalence; the receiver
      is the first argument. *)
  is_isomorphic : Species -> Species -> bool;
  (** The pair derivation behind [reaction.generate_pairs()]: it discards
      any cached pairs and derives them anew from reactants and products. *)
  derive_pairs : list Species -> list Species -> list Pair;
  (** [str(species)], used to name image files. *)
  species_str : Species -> string;
  (** [molecule.draw(path)] of the rendering service: the file system it
      leaves and the exception it raises, if any. *)
  draw : Molecule -> string -> FileSystem -> FileSystem * option exn
}.

Section Loader.

Context {chem : Chemistry} {collab : Collaborators}.

Notation "x <- r ;; k" := (bind r (fun x => k))
  (at level 61, r at next level, right associativity).

(** ** Observed species for sampled reactors (lines 85-102) *)

Definition obs_suffix : string := "_obs".

Definition obs_label (s : Species) : string := String.append (label s) obs_suffix.

(** Modelled from the spec: [Species.copy] is defined outside this file.
    [species.copy(deep=True)] gives a new object with the structure and the
    reactivity of the original that shares nothing with it; the loader then
    assigns the new label.  [fresh] is the identity of the new object. *)
Definition observed_copy (fresh : nat) (s : Species) : Species :=
  {| ident := fresh;
     label := obs_label s;
     reactive := reactive s;
     molecule := molecule s |}.

(** The [for ... else] over [reaction_system.constantSpeciesList]. *)
Definition is_constant (constants : list Species) (s : Species) : bool :=
  existsb (fun constant_species => is_isomorphic s constant_species) constants.

(** The [for ... else] over [species_list] looking for the observed label. *)
Definition has_observed (species_list : list Species) (s : Species) : bool :=
  existsb (fun species2 => String.eqb (label species2) (obs_label s)) species_list.

(** Whether the scan stages an observed copy of [s]. *)
Definition needs_observed (constants species_list : list Species) (s : Species) : bool :=
  if (negb (PyStr.contains obs_suffix (label s)) && reactive s)%bool then
    if is_constant constants s then false
    else if has_observed species_list s then false
    else true
  else false.

(** The scan over [species_list]: [scan] is the part of the list still to be
    visited, [species_list] the whole list (it is not extended during the
    scan), and the result is [observed_species_list] with the next free
    object identity. *)
Fixpoint observed_species (constants species_list scan : list Species) (fresh : nat)
  : list Species * nat :=
  match scan with
  | [] => ([], fresh)
  | s :: rest =>
      if needs_observed constants species_list s then
        let '(obs, fresh') := observed_species constants species_list rest (S fresh) in
        (observed_copy fresh s :: obs, fresh')
      else observed_species constants species_list rest fresh
  end.

(** One iteration of the loop over [rmg.reaction_systems]; the state is
    [species_list] and the next free object identity. *)
Definition add_observed (r : ReactionSystem) (st : list Species * nat) : list Species * nat :=
  match variant r with
  | MBSampledReactor _ constants =>
      let '(obs, fresh') := observed_species constants (fst st) (fst st) (snd st) in
      (fst st ++ obs, fresh')
  | _ => st
  end.

Definition add_observed_all (systems : list ReactionSystem) (st : list Species * nat)
  : list Species * nat :=
  fold_left (fun st r => add_observed r st) systems st.

(** ** Identity map (lines 104-110) *)

Definition first_isomorphic (species_list : list Species) (spec0 : Species) : option Species :=
  find (fun species => is_isomorphic species spec0) species_list.

Definition build_species_dict (initial species_list : list Species) : SpeciesDict Species :=
  fold_left
    (fun d spec0 =>
       match first_isomorphic species_list spec0 with
       | Some species => PyDict.set Species_eqb d spec0 species
       | None => d
       end)
    initial [].

(** [species_dict[spec]] *)
Definition getitem {V} (d : SpeciesDict V) (spec : Species) : result V :=
  match PyDict.get Species_eqb d spec with
  | Some v => Ok v
  | None => Raise (KeyError (KeySpecies spec))
  end.

(** ** Flux pairs (lines 112-115) *)

(** Modelled from the spec: [Reaction.generate_pairs] is defined outside
    this file.  It replaces the cached pairs of the reaction by the pairs
    derived from its reactants and products, and changes nothing else. *)
Definition generate_pairs (r : Reaction) : Reaction :=
  {| reactants := reactants r;
     products := products r;
     pairs := Some (derive_pairs (reactants r) (products r)) |}.

(** The second component logs the reactions on which [generate_pairs] was
    called, in call order. *)
Fixpoint complete_pairs (reaction_list : list Reaction) : list Reaction * list Reaction :=
  match reaction_list with
  | [] => ([], [])
  | reaction :: rest =>
      let '(rest', calls) := complete_pairs rest in
      if negb (pairs_truthy reaction)
      then (generate_pairs reaction :: rest', reaction :: calls)
      else (reaction :: rest', calls)
  end.

(** ** Reactor fields (lines 117-146) *)

(** [dict([(species_dict[spec], x) for spec, x in mapping.items()])] *)
Definition remap_mapping (species_dict : SpeciesDict Species) (mapping : SpeciesDict Quantity)
  : result (SpeciesDict Quantity) :=
  items <- comprehension
             (fun item => species <- getitem species_dict (fst item) ;;
                          Ok (species, snd item))
             mapping ;;
  Ok (PyDict.of_items Species_eqb items).

Definition StrDict : Type := PyDict.dict string string.

(** The inner loop over [const_spc_names] for one [spec0], up to its
    [break]. *)
Fixpoint const_species_inner (species_dict : SpeciesDict Species) (spec0 : Species)
    (names : list string) (const_species_dict : StrDict) : result StrDict :=
  match names with
  | [] => Ok const_species_dict
  | constSpecLabel :: rest =>
      if String.eqb (label spec0) constSpecLabel then
        species <- getitem species_dict spec0 ;;
        Ok (PyDict.set String.eqb const_species_dict constSpecLabel (label species))
      else const_species_inner species_dict spec0 rest const_species_dict
  end.

Fixpoint build_const_species_dict (species_dict : SpeciesDict Species)
    (initial : list Species) (names : list string) (const_species_dict : StrDict)
  : result StrDict :=
  match initial with
  | [] => Ok const_species_dict
  | spec0 :: rest =>
      d <- const_species_inner species_dict spec0 names const_species_dict ;;
      build_const_species_dict species_dict rest names d
  end.

(** [const_species_dict[sname]] *)
Definition getitem_str (d : StrDict) (sname : string) : result string :=
  match PyDict.get String.eqb d sname with
  | Some v => Ok v
  | None => Raise (KeyError (KeyStr sname))
  end.

(** Lines 122-129; [None] and the empty list are false and leave the field
    alone. *)
Definition remap_const_spc_names (species_dict : SpeciesDict Species)
    (initial : list Species) (const_spc_names : option (list string))
  : result (option (list string)) :=
  match const_spc_names with
  | None => Ok None
  | Some [] => Ok (Some [])
  | Some names =>
      d <- build_const_species_dict species_dict initial names [] ;;
      names' <- comprehension (getitem_str d) names ;;
      Ok (Some names')
  end.

(** The [isinstance] dispatch.  Each field is assigned as soon as its new
    value is computed, so an exception leaves the earlier assignments in
    place: the result is the reactor as it stands and the exception, if
    any. *)
Definition remap_variant (species_dict : SpeciesDict Species) (initial : list Species)
    (v : ReactorVariant) : ReactorVariant * option exn :=
  match v with
  | LiquidReactor names conc =>
      match remap_const_spc_names species_dict initial names with
      | Raise e => (v, Some e)
      | Ok names' =>
          match remap_mapping species_dict conc with
          | Raise e => (LiquidReactor names' conc, Some e)
          | Ok conc' => (LiquidReactor names' conc', None)
          end
      end
  | SurfaceReactor gas cov =>
      match remap_mapping species_dict gas with
      | Raise e => (v, Some e)
      | Ok gas' =>
          match remap_mapping species_dict cov with
          | Raise e => (SurfaceReactor gas' cov, Some e)
          | Ok cov' => (SurfaceReactor gas' cov', None)
          end
      end
  | SimpleReactor fracs =>
      match remap_mapping species_dict fracs with
      | Raise e => (v, Some e)
      | Ok fracs' => (SimpleReactor fracs', None)
      end
  | MBSampledReactor fracs constants =>
      match remap_mapping species_dict fracs with
      | Raise e => (v, Some e)
      | Ok fracs' => (MBSampledReactor fracs' constants, None)
      end
  end.

(** The loop over [reaction_system.termination], assigning [t.species] in
    place. *)
Fixpoint remap_termination (species_dict : SpeciesDict Species)
    (ts : list TerminationCriterion) : list TerminationCriterion * option exn :=
  match ts with
  | [] => ([], None)
  | t :: rest =>
      match t with
      | TerminationConversion species conversion =>
          match getitem species_dict species with
          | Raise e => (t :: rest, Some e)
          | Ok species' =>
              let '(rest', e) := remap_termination species_dict rest in
              (TerminationConversion species' conversion :: rest', e)
          end
      | _ =>
          let '(rest', e) := remap_termination species_dict rest in
          (t :: rest', e)
      end
  end.

(** [sensitive_species != ['all']] is list comparison; a species never
    equals a string. *)
Definition is_all_sentinel (l : list PyKey) : bool :=
  match l with
  | [KeyStr s] => String.eqb s "all"
  | _ => false
  end.

(** [species_dict[spec]] for an element of [sensitive_species]; a string is
    not a key of [species_dict]. *)
Definition getitem_key (species_dict : SpeciesDict Species) (k : PyKey) : result PyKey :=
  match k with
  | KeySpecies spec => species <- getitem species_dict spec ;; Ok (KeySpecies species)
  | KeyStr _ => Raise (KeyError k)
  end.

Definition remap_sensitive (species_dict : SpeciesDict Species) (l : list PyKey)
  : result (list PyKey) :=
  if is_all_sentinel l then Ok l
  else comprehension (getitem_key species_dict) l.

(** The body of the loop over [rmg.reaction_systems] for one reactor. *)
Definition remap_system (species_dict : SpeciesDict Species) (initial : list Species)
    (r : ReactionSystem) : ReactionSystem * option exn :=
  match remap_variant species_dict initial (variant r) with
  | (v', Some e) => (mkReactionSystem v' (termination r) (sensitive_species r), Some e)
  | (v', None) =>
      match remap_termination species_dict (termination r) with
      | (ts', Some e) => (mkReactionSystem v' ts' (sensitive_species r), Some e)
      | (ts', None) =>
          match remap_sensitive species_dict (sensitive_species r) with
          | Raise e => (mkReactionSystem v' ts' (sensitive_species r), Some e)
          | Ok sens' => (mkReactionSystem v' ts' sens', None)
          end
      end
  end.

(** The loop over [rmg.reaction_systems]: an exception leaves the loop, and
    the reactors after the one that raised are not visited. *)
Fixpoint remap_systems (species_dict : SpeciesDict Species) (initial : list Species)
    (systems : list ReactionSystem) : list ReactionSystem * option exn :=
  match systems with
  | [] => ([], None)
  | r :: rest =>
      match remap_system species_dict initial r with
      | (r', Some e) => (r' :: rest, Some e)
      | (r', None) =>
          let '(rest', e) := remap_systems species_dict initial rest in
          (r' :: rest', e)
      end
  end.

(** ** Species images (lines 152-162) *)

Definition os_path_exists (fs : FileSystem) (path : string) : bool :=
  existsb (String.eqb path) (existing fs).

(** [os.mkdir(path)] *)
Definition os_mkdir (fs : FileSystem) (path : string) : FileSystem * option exn :=
  if os_path_exists fs path then (fs, Some (OSError FileExistsError))
  else match mkdir_fault fs with
       | Some kind => (fs, Some (OSError kind))
       | None => (mkFS (existing fs ++ [path]) (mkdir_fault fs), None)
       end.

(** [try: os.mkdir(species_path) except OSError: pass] *)
Definition try_mkdir (fs : FileSystem) (path : string) : FileSystem * option exn :=
  match os_mkdir fs path with
  | (fs', Some (OSError _)) => (fs', None)
  | other => other
  end.

(** The loop that draws the species without an image file.  The second
    component lists the calls of [draw], in call order. *)
Fixpoint draw_species (species_path : string) (species_list : list Species)
    (fs : FileSystem) : (FileSystem * list DrawRequest) * option exn :=
  match species_list with
  | [] => ((fs, []), None)
  | species :: rest =>
      let path := PyStr.os_path_join species_path (String.append (species_str species) ".png") in
      if os_path_exists fs path then draw_species species_path rest fs
      else match molecule species with
           | [] => ((fs, []), Some IndexError)
           | m :: _ =>
               match draw m path fs with
               | (fs1, Some e) => ((fs1, [(m, path)]), Some e)
               | (fs1, None) =>
                   let '((fs', drawn), e) := draw_species species_path rest fs1 in
                   ((fs', (m, path) :: drawn), e)
               end
           end
  end.

Definition generate_species_images (input_dir : string) (species_list : list Species)
    (fs : FileSystem) : (FileSystem * list DrawRequest) * option exn :=
  let species_path := PyStr.os_path_join input_dir "species" in
  match try_mkdir fs species_path with
  | (fs', Some e) => ((fs', []), Some e)
  | (fs', None) => draw_species species_path species_list fs'
  end.

(** ** The loader

    [rmg] is the job after [rmg.load_input], [chemkin] the result of
    [load_chemkin_file], [input_dir] the directory of the input file, [fresh]
    the next free object identity and [fs] the file system.  [raised = None]
    means that the function returned [rmg_after]. *)
Record Outcome : Type := mkOutcome {
  rmg_after : RMG;
  species_list_after : list Species;
  species_dict_built : SpeciesDict Species;
  generate_pairs_calls : list Reaction;
  fs_after : FileSystem;
  drawn : list DrawRequest;
  raised : option exn
}.

Definition load_rmg_py_job (rmg : RMG) (chemkin : list Species * list Reaction)
    (input_dir : string) (generate_images : bool) (fresh : nat) (fs : FileSystem)
  : Outcome :=
  let '(species_list, _) :=
    add_observed_all (reaction_systems rmg) (fst chemkin, fresh) in
  let species_dict := build_species_dict (initial_species rmg) species_list in
  let '(reaction_list, calls) := complete_pairs (snd chemkin) in
  match remap_systems species_dict (initial_species rmg) (reaction_systems rmg) with
  | (systems', Some e) =>
      mkOutcome (mkRMG (initial_species rmg) systems' (reaction_model rmg))
                species_list species_dict calls fs [] (Some e)
  | (systems', None) =>
      let rmg' := mkRMG (initial_species rmg) systems' (mkModel species_list reaction_list) in
      if generate_images then
        let '((fs', requests), e) := generate_species_images input_dir species_list fs in
        mkOutcome rmg' species_list species_dict calls fs' requests e
      else mkOutcome rmg' species_list species_dict calls fs [] None
  end.

End Loader.

(** ** Vocabulary of the properties *)

Section Vocabulary.

Context {chem : Chemistry} {collab : Collaborators}.

(** The species that the mappings of a reactor are keyed by. *)
Definition mapping_species (v : ReactorVariant) : list Species :=
  match v with
  | LiquidReactor _ conc => PyDict.keys conc
  | SurfaceReactor gas cov => PyDict.keys gas ++ PyDict.keys cov
  | SimpleReactor fracs => PyDict.keys fracs
  | MBSampledReactor fracs _ => PyDict.keys fracs
  end.

(** The species of the conversion criteria of a termination list. *)
Definition termination_species (ts : list TerminationCriterion) : list Species :=
  flat_map (fun t => match t with
                     | TerminationConversion species _ => [species]
                     | _ => []
                     end) ts.

(** The species entries of a sensitivity list that is not [['all']]. *)
Definition sensitive_refs (l : list PyKey) : list Species :=
  if is_all_sentinel l then []
  else flat_map (fun k => match k with
                          | KeySpecies s => [s]
                          | KeyStr _ => []
                          end) l.

Definition referenced_species (r : ReactionSystem) : list Species :=
  mapping_species (variant r) ++ termination_species (termination r)
    ++ sensitive_refs (sensitive_species r).

(** The mole-fraction mapping of a reactor, where it has one. *)
Definition mole_fractions (v : ReactorVariant) : option (SpeciesDict Quantity) :=
  match v with
  | LiquidReactor _ _ => None
  | SurfaceReactor gas _ => Some gas
  | SimpleReactor fracs => Some fracs
  | MBSampledReactor fracs _ => Some fracs
  end.

(** [sum(values)] with the addition of the quantities. *)
Definition py_sum (add : Quantity -> Quantity -> Quantity) (zero : Quantity)
    (values : list Quantity) : Quantity :=
  fold_left add values zero.

(** How reconciliation may change one termination criterion: a conversion
    criterion gets the image of its species, any other is kept. *)
Definition termination_remapped (species_dict : SpeciesDict Species)
    (t t' : TerminationCriterion) : Prop :=
  match t with
  | TerminationConversion species conversion =>
      exists species',
        PyDict.get Species_eqb species_dict species = Some species'
        /\ t' = TerminationConversion species' conversion
  | _ => t' = t
  end.

(** The same, for a loop that an exception may have left early. *)
Definition termination_visited (species_dict : SpeciesDict Species)
    (t t' : TerminationCriterion) : Prop :=
  match t with
  | TerminationConversion _ _ => t' = t \/ termination_remapped species_dict t t'
  | _ => t' = t
  end.

(** An element of a sensitivity list and its image under the identity map. *)
Definition sensitive_image (species_dict : SpeciesDict Species) (k k' : PyKey) : Prop :=
  exists spec species,
    k = KeySpecies spec
    /\ PyDict.get Species_eqb species_dict spec = Some species
    /\ k' = KeySpecies species.

(** What an entry of [const_species_dict] records: the label of the Chemkin
    species bound to an initial species with the given label. *)
Definition resolves (species_dict : SpeciesDict Species) (initial : list Species)
    (name name' : string) : Prop :=
  exists spec0 species,
    In spec0 initial
    /\ label spec0 = name
    /\ PyDict.get Species_eqb species_dict spec0 = Some species
    /\ name' = label species.


End Vocabulary.

(** ** The RMG-Java loader (lines 167-242)

    The loops of [load_rmg_java_job] that differ from [load_rmg_py_job]. *)

(** [Molecule().from_smiles(s)] of the graph library. *)
Class Smiles {chem : Chemistry} : Type := {
  from_smiles : string -> Molecule
}.

Section JavaLoader.

Context {chem : Chemistry} {collab : Collaborators} {smiles : Smiles}.

(** The [if ... elif] chain on [species.label] (lines 195-202): the SMILES
    string of a bath gas. *)
Definition bath_gas_smiles (lbl : string) : option string :=
  if String.eqb lbl "Ar" then Some "[Ar]"
  else if String.eqb lbl "Ne" then Some "[Ne]"
  else if String.eqb lbl "He" then Some "[He]"
  else if String.eqb lbl "N2" then Some "N#N"
  else None.

(** The assignment [species.molecule = [...]] keeps the object and its other
    attributes. *)
Definition set_bath_gas (s : Species) : Species :=
  match bath_gas_smiles (label s) with
  | Some smi =>
      {| ident := ident s;
         label := label s;
         reactive := reactive s;
         molecule := [from_smiles smi] |}
  | None => s
  end.

(** The loop over [species_list] (lines 194-202). *)
Definition set_bath_gases (species_list : list Species) : list Species :=
  map set_bath_gas species_list.

(** [t.species in list(species_dict.values())] *)
Definition is_mapped_value (species_dict : SpeciesDict Species) (s : Species) : bool :=
  existsb (Species_eqb s) (PyDict.values species_dict).

(** The loop over [reaction_system.termination] (lines 221-224): a
    conversion criterion whose species is already a value of [species_dict]
    is left alone. *)
Fixpoint java_remap_termination (species_dict : SpeciesDict Species)
    (ts : list TerminationCriterion) : list TerminationCriterion * option exn :=
  match ts with
  | [] => ([], None)
  | t :: rest =>
      match t with
      | TerminationConversion species conversion =>
          if is_mapped_value species_dict species then
            let '(rest', e) := java_remap_termination species_dict rest in
            (t :: rest', e)
          else
            match getitem species_dict species with
            | Raise e => (t :: rest, Some e)
            | Ok species' =>
                let '(rest', e) := java_remap_termination species_dict rest in
                (TerminationConversion species' conversion :: rest', e)
            end
      | _ =>
          let '(rest', e) := java_remap_termination species_dict rest in
          (t :: rest', e)
      end
  end.

(** The body of the loop over [rmg.reaction_systems] (lines 218-224), on
    the two attributes of the reactor that it reads and assigns:
    [initial_mole_fractions] and [termination]. *)
Definition java_remap_system (species_dict : SpeciesDict Species)
    (initial_mole_fractions : SpeciesDict Quantity) (ts : list TerminationCriterion)
  : (SpeciesDict Quantity * list TerminationCriterion) * option exn :=
  match remap_mapping species_dict initial_mole_fractions with
  | Raise e => ((initial_mole_fractions, ts), Some e)
  | Ok fracs' =>
      let '(ts', e) := java_remap_termination species_dict ts in
      ((fracs', ts'), e)
  end.

(** The image path of line 238: [os.path.join] of a single argument is that
    argument. *)
Definition java_image_path (species_path : string) (s : Species) : string :=
  String.append species_path
    (String.append "/" (String.append (species_str s) ".png")).

End JavaLoader.

(** ** More vocabulary *)

Section MoreVocabulary.

Context {chem : Chemistry} {collab : Collaborators}.

(** The image path of line 160. *)
Definition image_path (species_path : string) (s : Species) : string :=
  PyStr.os_path_join species_path (String.append (species_str s) ".png").

(** The structural-equivalence check looks at the structures of its receiver
    only. *)
Definition isomorphism_by_structure : Prop :=
  forall a b c : Species, molecule a = molecule b -> is_isomorphic a c = is_isomorphic b c.

(** The value that the items of a mapping leave under the Chemkin species
    [c] once their keys are replaced: the one of the last item whose key is
    bound to [c]. *)
Definition last_bound (species_dict : SpeciesDict Species)
    (mapping : SpeciesDict Quantity) (c : Species) : option Quantity :=
  fold_left
    (fun acc item =>
       match PyDict.get Species_eqb species_dict (fst item) with
       | Some c' => if Species_eqb c' c then Some (snd item) else acc
       | None => acc
       end)
    mapping None.

(** The conditions under which lines 122-129 do not raise. *)
Definition names_resolve (species_dict : SpeciesDict Species) (initial : list Species)
    (v : ReactorVariant) : Prop :=
  match v with
  | LiquidReactor (Some (name :: names)) _ =>
      (forall n, In n (name :: names) ->
                 exists spec0, In spec0 initial /\ label spec0 = n)
      /\ (forall spec0, In spec0 initial -> In (label spec0) (name :: names) ->
                        PyDict.get Species_eqb species_dict spec0 <> None)
  | _ => True
  end.

(** A sensitivity list that is [['all']] or holds species only. *)
Definition species_only (l : list PyKey) : Prop :=
  is_all_sentinel l = true \/ forall k, In k l -> exists s, k = KeySpecies s.

(** The constant species names of a liquid reactor. *)
Definition constant_names (v : ReactorVariant) : list string :=
  match v with
  | LiquidReactor (Some names) _ => names
  | _ => []
  end.

(** Whether a job has a sampled reactor. *)
Definition is_sampled (r : ReactionSystem) : bool :=
  match variant r with
  | MBSampledReactor _ _ => true
  | _ => false
  end.

(** [s.endswith(suffix)] for Python [str]. *)
Fixpoint ends_with (suffix s : string) : bool :=
  if String.eqb s suffix then true
  else match s with
       | EmptyString => false
       | String _ rest => ends_with suffix rest
       end.

End MoreVocabulary.

(** ** A small job: methane and ethane *)

Module Sample.

Definition chem : Chemistry :=
  {| Molecule := nat; Molecule_eq_dec := Nat.eq_dec; Quantity := Q |}.

(** Two species are equivalent when they share a structure. *)
Definition shares_structure (a b : @Species chem) : bool :=
  existsb (fun m => existsb (Nat.eqb m) (molecule b)) (molecule a).

(** One reactant is paired with every product, one product with every
    reactant. *)
Definition pair_up (rs ps : list (@Species chem)) : list (@Pair chem) :=
  match rs, ps with
  | [r], _ => map (fun p => (r, p)) ps
  | _, [p] => map (fun r => (r, p)) rs
  | _, _ => []
  end.

(** A renderer that writes its file and does not fail. *)
Definition write_image (m : @Molecule chem) (path : string) (fs : FileSystem)
  : FileSystem * option (@exn chem) :=
  (mkFS (existing fs ++ [path]) (mkdir_fault fs), None).

Definition collab : @Collaborators chem :=
  {| is_isomorphic := shares_structure;
     derive_pairs := pair_up;
     species_str := @label chem;
     draw := write_image |}.

(** Chemkin species. *)
Definition CH4 : @Species chem := mkSpecies (chem := chem) 10 "CH4" true [1].
Definition C2H6 : @Species chem := mkSpecies (chem := chem) 11 "C2H6" true [2].
Definition CH4_twin : @Species chem := mkSpecies (chem := chem) 12 "CH4(2)" true [1].
Definition Ar : @Species chem := mkSpecies (chem := chem) 13 "Ar" false [3].

(** Input-file species. *)
Definition methane : @Species chem := mkSpecies (chem := chem) 1 "methane" true [1].
Definition methane2 : @Species chem := mkSpecies (chem := chem) 2 "CH4_dup" true [1].
Definition ethane : @Species chem := mkSpecies (chem := chem) 3 "ethane" true [2].
Definition propane : @Species chem := mkSpecies (chem := chem) 4 "propane" true [7].

Definition no_files : FileSystem := mkFS [] None.
Definition read_only : FileSystem := mkFS [] (Some PermissionError).

(** Reactors of the input file. *)
Definition gas_reactor : @ReactionSystem chem :=
  mkReactionSystem
    (SimpleReactor (chem := chem) [(methane, (1 # 2)%Q); (ethane, (1 # 2)%Q)])
    [TerminationTime (chem := chem) 10%Q;
     TerminationConversion (chem := chem) methane (9 # 10)%Q]
    [KeySpecies methane].

Definition propane_reactor : @ReactionSystem chem :=
  mkReactionSystem
    (SimpleReactor (chem := chem) [(methane, 1%Q)])
    [TerminationTime (chem := chem) 10%Q;
     TerminationConversion (chem := chem) propane (9 # 10)%Q]
    [KeyStr (chem := chem) "all"].

Definition twin_reactor : @ReactionSystem chem :=
  mkReactionSystem
    (SimpleReactor (chem := chem) [(methane, (3 # 10)%Q); (methane2, (7 # 10)%Q)])
    [TerminationTime (chem := chem) 10%Q]
    [KeyStr (chem := chem) "all"].

Definition sampled_reactor : @ReactionSystem chem :=
  mkReactionSystem
    (MBSampledReactor (chem := chem) [(methane, 1%Q)] [ethane])
    [TerminationTime (chem := chem) 10%Q]
    [].

Definition liquid_reactor : @ReactionSystem chem :=
  mkReactionSystem
    (LiquidReactor (chem := chem) (Some ["ethane"]) [(methane, 1%Q)])
    []
    [].

Definition empty_model : @CoreEdgeReactionModel chem := mkModel [] [].

Definition gas_job : @RMG chem := mkRMG [methane; ethane] [gas_reactor] empty_model.
Definition propane_job : @RMG chem :=
  mkRMG [methane; ethane; propane] [gas_reactor; propane_reactor; twin_reactor] empty_model.
Definition twin_job : @RMG chem := mkRMG [methane; methane2] [twin_reactor] empty_model.

(** Chemkin reactions: one with two cached pairs, one without pairs. *)
Definition cracking : @Reaction chem :=
  mkReaction [C2H6] [CH4; CH4_twin] (Some [(C2H6, CH4); (C2H6, CH4_twin)]).
Definition coupling : @Reaction chem := mkReaction [CH4; CH4_twin] [C2H6] None.

(** Chemkin reactions with an empty list of pairs and with three cached
    pairs. *)
Definition emptied : @Reaction chem := mkReaction [C2H6] [CH4] (Some []).
Definition scrambling : @Reaction chem :=
  mkReaction [CH4; C2H6] [CH4_twin; C2H6]
    (Some [(CH4, CH4_twin); (C2H6, C2H6); (CH4, C2H6)]).

(** A species with "_obs" inside its label, not at its end. *)
Definition obs_inside : @Species chem := mkSpecies (chem := chem) 16 "a_obs_b" true [8].

Definition chemkin : list (@Species chem) * list (@Reaction chem) :=
  ([CH4; C2H6; CH4_twin; Ar], [cracking; coupling]).

(** A parser that gives each bath-gas SMILES a structure of its own. *)
Definition parse_smiles (s : string) : @Molecule chem :=
  if String.eqb s "[Ar]" then 3
  else if String.eqb s "[Ne]" then 4
  else if String.eqb s "[He]" then 5
  else if String.eqb s "N#N" then 6
  else 0.

Definition smiles : @Smiles chem := {| from_smiles := parse_smiles |}.

(** A species without structures, and a species list of the Java loader
    before its bath gases are given their structures. *)
Definition ghost : @Species chem := mkSpecies (chem := chem) 14 "X" true [].
Definition bare_argon : @Species chem := mkSpecies (chem := chem) 15 "Ar" false [].

(** A file system that holds the image directory and every image. *)
Definition all_drawn : FileSystem :=
  mkFS ["/work/species"; "/work/species/CH4.png"; "/work/species/C2H6.png";
        "/work/species/CH4(2).png"; "/work/species/Ar.png"] None.

End Sample.

(** ** Strings and dictionaries *)

Module PyStrFacts.

Lemma prefix_append (n x : string) : String.prefix n (String.append n x) = true.
Proof.
  induction n as [|c n IH]; simpl.
  - destruct x; reflexivity.
  - rewrite IH. destruct (ascii_dec c c); [reflexivity | congruence].
Qed.

Lemma prefix_self (n : string) : String.prefix n n = true.
Proof.
  induction n as [|c n IH]; simpl.
  - reflexivity.
  - rewrite IH. destruct (ascii_dec c c); [reflexivity | congruence].
Qed.

Lemma contains_suffix (n s : string) : PyStr.contains n (String.append s n) = true.
Proof.
  induction s as [|c s IH]; simpl.
  - destruct n as [|c n]; simpl.
    + reflexivity.
    + rewrite prefix_self. destruct (ascii_dec c c); [reflexivity | congruence].
  - rewrite IH.
    match goal with |- (if ?b then _ else _) = _ => destruct b; reflexivity end.
Qed.

Lemma append_length (a b : string) :
  String.length (String.append a b) = String.length a + String.length b.
Proof. induction a; simpl; congruence. Qed.

End PyStrFacts.

Module PyDictFacts.
Section Facts.

Variables K V : Type.
Variable eqb : K -> K -> bool.
Hypothesis eqb_spec : forall a b, eqb a b = true <-> a = b.

Local Abbreviation get := (PyDict.get eqb).
Local Abbreviation set := (PyDict.set eqb).

Lemma eqb_refl (k : K) : eqb k k = true.
Proof. apply eqb_spec; reflexivity. Qed.

Lemma eqb_neq (a b : K) : a <> b -> eqb a b = false.
Proof.
  intro H. destruct (eqb a b) eqn:E; [|reflexivity].
  apply eqb_spec in E. contradiction.
Qed.

Lemma get_set_same (d : PyDict.dict K V) k v : get (set d k v) k = Some v.
Proof.
  unfold PyDict.get.
  induction d as [|[k' v'] d IH]; simpl.
  - rewrite eqb_refl. reflexivity.
  - destruct (eqb k' k) eqn:E; simpl; rewrite E; [reflexivity | exact IH].
Qed.

Lemma get_set_other (d : PyDict.dict K V) k v k0 :
  k0 <> k -> get (set d k v) k0 = get d k0.
Proof.
  intro Hne. unfold PyDict.get.
  induction d as [|[k' v'] d IH]; simpl.
  - rewrite eqb_neq by congruence. reflexivity.
  - destruct (eqb k' k) eqn:E; simpl.
    + apply eqb_spec in E. subst k'.
      rewrite eqb_neq by congruence. reflexivity.
    + destruct (eqb k' k0); [reflexivity | exact IH].
Qed.

Lemma get_In (d : PyDict.dict K V) k v : get d k = Some v -> In (k, v) d.
Proof.
  unfold PyDict.get.
  destruct (find (fun kv => eqb (fst kv) k) d) as [[k' v']|] eqn:F; [|discriminate].
  intro H. inversion H; subst.
  apply find_some in F. destruct F as [Hin Heq]. simpl in *.
  apply eqb_spec in Heq. subst. exact Hin.
Qed.

Lemma get_None_keys (d : PyDict.dict K V) k : get d k = None <-> ~ In k (PyDict.keys d).
Proof.
  unfold PyDict.get, PyDict.keys.
  induction d as [|[k' v'] d IH]; simpl.
  - tauto.
  - destruct (eqb k' k) eqn:E.
    + apply eqb_spec in E. split; [discriminate | tauto].
    + split.
      * intros H [Hk | Hin]; [subst; rewrite eqb_refl in E; discriminate | tauto].
      * intro H. apply IH. tauto.
Qed.

Lemma set_In (d : PyDict.dict K V) k v k0 v0 :
  In (k0, v0) (set d k v) -> In (k0, v0) d \/ (k0 = k /\ v0 = v).
Proof.
  induction d as [|[k' v'] d IH]; simpl.
  - intros [H | []]. inversion H; auto.
  - destruct (eqb k' k) eqn:E; simpl.
    + intros [H | H]; [|auto].
      inversion H; subst. apply eqb_spec in E. auto.
    + intros [H | H]; [auto|]. destruct (IH H); auto.
Qed.

Lemma keys_set (d : PyDict.dict K V) k v n :
  In n (PyDict.keys (set d k v)) <-> In n (PyDict.keys d) \/ n = k.
Proof.
  unfold PyDict.keys.
  induction d as [|[k' v'] d IH]; simpl.
  - split; [intros [H | []]; auto | intros [[] | H]; auto].
  - destruct (eqb k' k) eqn:E; simpl.
    + apply eqb_spec in E. subst k'. split; [tauto|].
      intros [[H | H] | H]; auto.
    + rewrite IH. tauto.
Qed.

Lemma get_Some_keys (d : PyDict.dict K V) k :
  In k (PyDict.keys d) -> exists v, get d k = Some v.
Proof.
  intro H. destruct (get d k) as [v|] eqn:G; [eauto|].
  apply get_None_keys in G. contradiction.
Qed.

Lemma set_fresh (d : PyDict.dict K V) k v :
  ~ In k (PyDict.keys d) -> set d k v = d ++ [(k, v)].
Proof.
  unfold PyDict.keys.
  induction d as [|[k' v'] d IH]; simpl; intro H.
  - reflexivity.
  - rewrite eqb_neq by tauto. rewrite IH by tauto. reflexivity.
Qed.

Lemma of_items_acc (items d : PyDict.dict K V) :
  NoDup (PyDict.keys d ++ PyDict.keys items) ->
  fold_left (fun d kv => set d (fst kv) (snd kv)) items d = d ++ items.
Proof.
  revert d. induction items as [|[k v] items IH]; intros d Hnd; simpl.
  - rewrite app_nil_r. reflexivity.
  - simpl in Hnd.
    rewrite set_fresh.
    + rewrite IH.
      * rewrite <- app_assoc. reflexivity.
      * unfold PyDict.keys in *. rewrite map_app. simpl.
        rewrite <- app_assoc. simpl. exact Hnd.
    + apply NoDup_remove_2 in Hnd. intro Hin. apply Hnd.
      apply in_or_app. left. exact Hin.
Qed.

(** Building a [dict] from items with distinct keys keeps the items as they
    are. *)
Lemma of_items_NoDup (items : list (K * V)) :
  NoDup (PyDict.keys items) -> PyDict.of_items eqb items = items.
Proof.
  intro H. unfold PyDict.of_items. rewrite of_items_acc; [reflexivity | exact H].
Qed.

End Facts.
End PyDictFacts.

(** ** Properties of the loader *)

Section LoaderFacts.

Context {chem : Chemistry} {collab : Collaborators}.

Local Abbreviation sget := (PyDict.get Species_eqb).

Lemma Species_eqb_spec (a b : Species) : Species_eqb a b = true <-> a = b.
Proof.
  unfold Species_eqb. destruct (Species_eq_dec a b); split; congruence.
Qed.

Lemma string_eqb_spec (a b : string) : String.eqb a b = true <-> a = b.
Proof. apply String.eqb_eq. Qed.

(** *** Identity map *)

Lemma first_isomorphic_split (species_list : list Species) (spec0 c : Species) :
  first_isomorphic species_list spec0 = Some c <->
  exists pre post,
    species_list = pre ++ c :: post
    /\ is_isomorphic c spec0 = true
    /\ (forall x, In x pre -> is_isomorphic x spec0 = false).
Proof.
  unfold first_isomorphic.
  induction species_list as [|a l IH]; simpl.
  - split; [discriminate|].
    intros (pre & post & H & _). destruct pre; discriminate.
  - destruct (is_isomorphic a spec0) eqn:E.
    + split.
      * intro H. inversion H; subst. exists [], l. simpl. repeat split; tauto.
      * intros (pre & post & H & Hc & Hpre).
        destruct pre as [|p pre]; simpl in H; inversion H; subst.
        -- reflexivity.
        -- rewrite (Hpre p) in E by (left; reflexivity). discriminate.
    + rewrite IH. split.
      * intros (pre & post & H & Hc & Hpre).
        exists (a :: pre), post. subst. simpl. repeat split; auto.
        intros x [Hx | Hx]; [subst; exact E | auto].
      * intros (pre & post & H & Hc & Hpre).
        destruct pre as [|p pre]; simpl in H; inversion H; subst.
        -- congruence.
        -- exists pre, post. repeat split; auto.
           intros x Hx. apply Hpre. right. exact Hx.
Qed.

Lemma first_isomorphic_none (species_list : list Species) (spec0 : Species) :
  first_isomorphic species_list spec0 = None <->
  forall x, In x species_list -> is_isomorphic x spec0 = false.
Proof.
  unfold first_isomorphic. split.
  - intros H x Hx. exact (find_none _ _ H x Hx).
  - intro H. induction species_list as [|a l IH]; simpl.
    + reflexivity.
    + rewrite (H a) by (left; reflexivity). apply IH.
      intros x Hx. apply H. right. exact Hx.
Qed.

Lemma build_species_dict_acc (species_list initial : list Species)
    (d0 : SpeciesDict Species) (k : Species) :
  sget
    (fold_left
       (fun d spec0 =>
          match first_isomorphic species_list spec0 with
          | Some species => PyDict.set Species_eqb d spec0 species
          | None => d
          end) initial d0) k
  = if in_dec Species_eq_dec k initial
    then match first_isomorphic species_list k with
         | Some c => Some c
         | None => sget d0 k
         end
    else sget d0 k.
Proof.
  revert d0. induction initial as [|a rest IH]; intro d0; simpl.
  - reflexivity.
  - rewrite IH.
    destruct (Species_eq_dec a k) as [-> | Hne].
    + destruct (first_isomorphic species_list k) as [c|] eqn:F.
      * rewrite (PyDictFacts.get_set_same _ Species_eqb_spec).
        destruct (in_dec Species_eq_dec k rest); reflexivity.
      * destruct (in_dec Species_eq_dec k rest); reflexivity.
    + assert (Hget : sget
                (match first_isomorphic species_list a with
                 | Some species => PyDict.set Species_eqb d0 a species
                 | None => d0
                 end) k = sget d0 k).
      { destruct (first_isomorphic species_list a); [|reflexivity].
        apply (PyDictFacts.get_set_other _ Species_eqb_spec). congruence. }
      rewrite Hget.
      destruct (in_dec Species_eq_dec k rest); reflexivity.
Qed.

Lemma build_species_dict_get (initial species_list : list Species) (k : Species) :
  sget (build_species_dict initial species_list) k
  = if in_dec Species_eq_dec k initial then first_isomorphic species_list k else None.
Proof.
  unfold build_species_dict. rewrite build_species_dict_acc.
  destruct (in_dec Species_eq_dec k initial); [|reflexivity].
  destruct (first_isomorphic species_list k); reflexivity.
Qed.

(** C1: every species of the initial species list that has an isomorphic
    species in the Chemkin species list is bound, in the identity map, to the
    first isomorphic species in list order; one without an isomorphic species
    has no entry; and of two isomorphic Chemkin species the earlier one is
    the one bound. *)
Theorem species_dict_first_match
    (initial species_list : list Species) (spec0 : Species) :
  In spec0 initial ->
  let species_dict := build_species_dict initial species_list in
  sget species_dict spec0 = first_isomorphic species_list spec0
  /\ ((exists c, In c species_list /\ is_isomorphic c spec0 = true) ->
      exists pre c post,
        species_list = pre ++ c :: post
        /\ is_isomorphic c spec0 = true
        /\ (forall x, In x pre -> is_isomorphic x spec0 = false)
        /\ sget species_dict spec0 = Some c)
  /\ ((forall c, In c species_list -> is_isomorphic c spec0 = false) ->
      sget species_dict spec0 = None)
  /\ (forall pre c1 mid c2 post,
        species_list = pre ++ c1 :: mid ++ c2 :: post ->
        is_isomorphic c1 spec0 = true ->
        is_isomorphic c2 spec0 = true ->
        (forall x, In x pre -> is_isomorphic x spec0 = false) ->
        sget species_dict spec0 = Some c1).
Proof.
  intros Hin species_dict.
  assert (Hget : sget species_dict spec0 = first_isomorphic species_list spec0).
  { unfold species_dict. rewrite build_species_dict_get.
    destruct (in_dec Species_eq_dec spec0 initial); [reflexivity | contradiction]. }
  split; [exact Hget|]. split; [|split].
  - intros (c & Hc & Hiso).
    destruct (first_isomorphic species_list spec0) as [c'|] eqn:F.
    + pose proof F as F'. apply first_isomorphic_split in F'.
      destruct F' as (pre & post & Hl & Hc' & Hpre).
      exists pre, c', post. auto.
    + rewrite first_isomorphic_none in F. rewrite (F c Hc) in Hiso. discriminate.
  - intro Hnone. rewrite Hget. apply first_isomorphic_none. exact Hnone.
  - intros pre c1 mid c2 post Hl H1 H2 Hpre.
    rewrite Hget. apply first_isomorphic_split.
    exists pre, (mid ++ c2 :: post). auto.
Qed.

(** *** Flux pairs *)

Lemma generate_pairs_twice (r : Reaction) :
  generate_pairs (generate_pairs r) = generate_pairs r.
Proof. reflexivity. Qed.

Lemma complete_pairs_fst (r : Reaction) (rest : list Reaction) :
  fst (complete_pairs (r :: rest))
  = (if pairs_truthy r then r else generate_pairs r) :: fst (complete_pairs rest).
Proof.
  simpl. destruct (complete_pairs rest) as [rest' calls].
  destruct (pairs_truthy r); reflexivity.
Qed.

Lemma complete_pairs_snd (r : Reaction) (rest : list Reaction) :
  snd (complete_pairs (r :: rest))
  = if pairs_truthy r then snd (complete_pairs rest)
    else r :: snd (complete_pairs rest).
Proof.
  simpl. destruct (complete_pairs rest) as [rest' calls].
  destruct (pairs_truthy r); reflexivity.
Qed.

Lemma pairs_truthy_false_iff (r : Reaction) :
  pairs_truthy r = false <-> pairs r = None \/ pairs r = Some [].
Proof.
  unfold pairs_truthy. destruct (pairs r) as [[|p ps]|].
  - split; auto.
  - split; [discriminate | intros [H | H]; discriminate].
  - split; auto.
Qed.

Lemma pairs_truthy_true_iff (r : Reaction) :
  pairs_truthy r = true <-> exists p ps, pairs r = Some (p :: ps).
Proof.
  unfold pairs_truthy. destruct (pairs r) as [[|p ps]|].
  - split; [discriminate | intros (p & ps & H); discriminate].
  - split; eauto.
  - split; [discriminate | intros (p & ps & H); discriminate].
Qed.

(** C3: [generate_pairs] is called, in list order, on exactly the reactions
    whose pairs are [None] or the empty list, and each of them is replaced by
    the reaction with the derived pairs; a reaction whose pairs are a
    non-empty list, of any length, is kept as it is, at its place, and is not
    among the calls; and completing twice gives the reaction list that
    completing once gives. *)
Theorem complete_pairs_idempotent (reaction_list : list Reaction) :
  let completed := fst (complete_pairs reaction_list) in
  let calls := snd (complete_pairs reaction_list) in
  calls = filter (fun r => match pairs r with
                           | None => true
                           | Some [] => true
                           | Some (_ :: _) => false
                           end) reaction_list
  /\ (forall r, In r calls <->
        In r reaction_list /\ (pairs r = None \/ pairs r = Some []))
  /\ Forall2 (fun r r' =>
                (pairs r = None \/ pairs r = Some [] ->
                 r' = generate_pairs r
                 /\ pairs r' = Some (derive_pairs (reactants r) (products r)))
                /\ (forall p ps, pairs r = Some (p :: ps) -> r' = r))
       reaction_list completed
  /\ (forall pre r post p ps,
        reaction_list = pre ++ r :: post ->
        pairs r = Some (p :: ps) ->
        nth_error completed (List.length pre) = Some r
        /\ pairs r = Some (p :: ps)
        /\ ~ In r calls)
  /\ (forall pre r post,
        reaction_list = pre ++ r :: post ->
        pairs r = None \/ pairs r = Some [] ->
        nth_error completed (List.length pre) = Some (generate_pairs r)
        /\ In r calls)
  /\ fst (complete_pairs completed) = completed.
Proof.
  cbv zeta.
  assert (Hlog : forall l,
             snd (complete_pairs l)
             = filter (fun r => match pairs r with
                                | None => true
                                | Some [] => true
                                | Some (_ :: _) => false
                                end) l).
  { induction l as [|r l IH]; [reflexivity|].
    rewrite complete_pairs_snd. simpl. rewrite IH.
    unfold pairs_truthy. destruct (pairs r) as [[|p ps]|]; reflexivity. }
  assert (Hin : forall l r, In r (snd (complete_pairs l)) <->
                  In r l /\ (pairs r = None \/ pairs r = Some [])).
  { intros l r. rewrite Hlog, filter_In.
    destruct (pairs r) as [[|p ps]|].
    - split; [intros [H _]; auto | intros [H _]; auto].
    - split; [intros [_ H]; discriminate | intros [_ [H | H]]; discriminate].
    - split; [intros [H _]; auto | intros [H _]; auto]. }
  assert (Hnth : forall pre r post,
             nth_error (fst (complete_pairs (pre ++ r :: post))) (List.length pre)
             = Some (if pairs_truthy r then r else generate_pairs r)).
  { intros pre r post. induction pre as [|a pre IH]; simpl app; rewrite complete_pairs_fst.
    - reflexivity.
    - simpl. exact IH. }
  split; [apply Hlog|]. split; [apply Hin|]. split; [|split; [|split]].
  - induction reaction_list as [|r l IH]; [constructor|].
    rewrite complete_pairs_fst. constructor; [|exact IH].
    split.
    + intro He. apply pairs_truthy_false_iff in He. rewrite He. split; reflexivity.
    + intros p ps Hp.
      assert (Ht : pairs_truthy r = true) by (apply pairs_truthy_true_iff; eauto).
      rewrite Ht. reflexivity.
  - intros pre r post p ps Hl Hp.
    assert (Ht : pairs_truthy r = true) by (apply pairs_truthy_true_iff; eauto).
    split; [|split; [exact Hp|]].
    + rewrite Hl, Hnth, Ht. reflexivity.
    + rewrite Hin. intros [_ [H | H]]; congruence.
  - intros pre r post Hl He.
    split.
    + apply pairs_truthy_false_iff in He. rewrite Hl, Hnth, He. reflexivity.
    + apply Hin. split; [|exact He].
      rewrite Hl. apply in_or_app. right. left. reflexivity.
  - clear Hlog Hin Hnth.
    induction reaction_list as [|r l IH]; [reflexivity|].
    rewrite complete_pairs_fst.
    destruct (pairs_truthy r) eqn:E.
    + rewrite complete_pairs_fst, E, IH. reflexivity.
    + rewrite complete_pairs_fst, IH.
      destruct (pairs_truthy (generate_pairs r)); reflexivity.
Qed.

(** *** Observed species *)

Lemma existsb_false_iff {A} (f : A -> bool) (l : list A) :
  existsb f l = false <-> forall x, In x l -> f x = false.
Proof.
  induction l as [|a l IH]; simpl.
  - split; [intros _ x [] | reflexivity].
  - rewrite orb_false_iff, IH. split.
    + intros [Ha Hl] x [<- | Hx]; auto.
    + intro H. split; [apply H; left; reflexivity | intros x Hx; apply H; right; exact Hx].
Qed.

Lemma needs_observed_iff (constants species_list : list Species) (s : Species) :
  needs_observed constants species_list s = true <->
  reactive s = true
  /\ PyStr.contains "_obs" (label s) = false
  /\ (forall c, In c constants -> is_isomorphic s c = false)
  /\ (forall s2, In s2 species_list -> label s2 <> String.append (label s) "_obs").
Proof.
  unfold needs_observed, is_constant, has_observed, obs_label, obs_suffix.
  destruct (PyStr.contains "_obs" (label s)) eqn:Ec; simpl.
  - split; [discriminate | intros (_ & H & _); discriminate].
  - destruct (reactive s) eqn:Er; simpl.
    + destruct (existsb (fun c => is_isomorphic s c) constants) eqn:Ek.
      * split; [discriminate|]. intros (_ & _ & H & _).
        apply (existsb_false_iff (fun c => is_isomorphic s c)) in H.
        rewrite H in Ek. discriminate.
      * destruct (existsb (fun s2 => String.eqb (label s2) (String.append (label s) "_obs"))
                    species_list) eqn:Eo.
        -- split; [discriminate|]. intros (_ & _ & _ & H).
           apply existsb_exists in Eo. destruct Eo as (s2 & Hin & Heq).
           apply String.eqb_eq in Heq. exfalso. exact (H s2 Hin Heq).
        -- split; [|reflexivity]. intros _.
           rewrite existsb_false_iff in Ek, Eo.
           repeat split; auto.
           intros s2 Hin Heq. apply String.eqb_eq in Heq.
           rewrite (Eo s2 Hin) in Heq. discriminate.
    + split; [discriminate | intros (H & _); discriminate].
Qed.

(** The copies staged by a scan, numbered from [fresh]. *)
Lemma observed_species_eq (constants species_list scan : list Species) (fresh : nat) :
  let cand := filter (needs_observed constants species_list) scan in
  observed_species constants species_list scan fresh
  = (map (fun p => observed_copy (fst p) (snd p))
       (combine (seq fresh (List.length cand)) cand),
     fresh + List.length cand).
Proof.
  revert fresh. induction scan as [|s rest IH]; intro fresh; simpl.
  - rewrite Nat.add_0_r. reflexivity.
  - destruct (needs_observed constants species_list s); simpl.
    + rewrite IH. simpl. f_equal. lia.
    + apply IH.
Qed.

Lemma Forall2_numbered_copies (P : Species -> Species -> Prop) (cand : list Species) :
  (forall i s, P s (observed_copy i s)) ->
  forall fresh,
    Forall2 P cand
      (map (fun p => observed_copy (fst p) (snd p))
         (combine (seq fresh (List.length cand)) cand)).
Proof.
  intro HP. induction cand as [|s cand IH]; intro fresh; simpl.
  - constructor.
  - constructor; [apply HP | apply IH].
Qed.

Lemma In_numbered_copies (cand : list Species) (fresh : nat) (o : Species) :
  In o (map (fun p => observed_copy (fst p) (snd p))
          (combine (seq fresh (List.length cand)) cand)) ->
  exists i s, In s cand /\ o = observed_copy i s.
Proof.
  intro H. apply in_map_iff in H. destruct H as ([i s] & Ho & Hin).
  apply in_combine_r in Hin. exists i, s. simpl in *. auto.
Qed.

Lemma numbered_copies_cover (cand : list Species) (fresh : nat) (s : Species) :
  In s cand ->
  exists i, In (observed_copy i s)
              (map (fun p => observed_copy (fst p) (snd p))
                 (combine (seq fresh (List.length cand)) cand)).
Proof.
  revert fresh. induction cand as [|a cand IH]; intros fresh Hin; simpl.
  - destruct Hin.
  - destruct Hin as [Ha | Hin].
    + subst. exists fresh. left. reflexivity.
    + destruct (IH (S fresh) Hin) as [i Hi]. exists i. right. exact Hi.
Qed.

Lemma skipn_length_app {A} (l x : list A) : skipn (List.length l) (l ++ x) = x.
Proof. induction l; simpl; auto. Qed.

Lemma firstn_length_app {A} (l x : list A) : firstn (List.length l) (l ++ x) = l.
Proof. induction l; simpl; congruence. Qed.

Lemma ends_with_unfold (suffix s : string) :
  ends_with suffix s
  = if String.eqb s suffix then true
    else match s with
         | EmptyString => false
         | String _ rest => ends_with suffix rest
         end.
Proof. destruct s; reflexivity. Qed.

Lemma contains_unfold (needle hay : string) :
  PyStr.contains needle hay
  = if String.prefix needle hay then true
    else match hay with
         | EmptyString => false
         | String _ rest => PyStr.contains needle rest
         end.
Proof. destruct hay; reflexivity. Qed.

Lemma ends_with_contains (suffix s : string) :
  ends_with suffix s = true -> PyStr.contains suffix s = true.
Proof.
  induction s as [|c s IH]; rewrite ends_with_unfold; intro H.
  - destruct (String.eqb EmptyString suffix) eqn:E; [|discriminate].
    apply String.eqb_eq in E. subst suffix. reflexivity.
  - destruct (String.eqb (String c s) suffix) eqn:E.
    + apply String.eqb_eq in E. subst suffix.
      rewrite contains_unfold, PyStrFacts.prefix_self. reflexivity.
    + rewrite contains_unfold, (IH H).
      match goal with |- (if ?b then _ else _) = _ => destruct b; reflexivity end.
Qed.

(** C5 (amended): for a sampled reactor the loop appends one observed copy
    for each species of the list that is reactive, has no "_obs" anywhere in
    its label, is isomorphic to none of the reactor's constant species and
    whose label followed by "_obs" labels no species of the list; each copy
    has the structure and reactivity of its original and the original's label
    followed by "_obs"; the list as it was is a prefix of the result; a list
    holding one such species A grows by exactly one, a copy labelled with A's
    label followed by "_obs"; and a species whose label ends with "_obs" is
    among those that are not copied. *)
Theorem observed_species_appended
    (fracs : SpeciesDict Quantity) (constants : list Species)
    (ts : list TerminationCriterion) (sens : list PyKey)
    (species_list : list Species) (fresh : nat) :
  let r := mkReactionSystem (MBSampledReactor fracs constants) ts sens in
  let cand := filter (needs_observed constants species_list) species_list in
  let result := fst (add_observed r (species_list, fresh)) in
  add_observed r (species_list, fresh)
  = (species_list
       ++ map (fun p => observed_copy (fst p) (snd p))
            (combine (seq fresh (List.length cand)) cand),
     fresh + List.length cand)
  /\ (forall s, In s cand <->
        In s species_list
        /\ reactive s = true
        /\ PyStr.contains "_obs" (label s) = false
        /\ (forall c, In c constants -> is_isomorphic s c = false)
        /\ (forall s2, In s2 species_list -> label s2 <> String.append (label s) "_obs"))
  /\ List.length result = List.length species_list + List.length cand
  /\ firstn (List.length species_list) result = species_list
  /\ Forall2 (fun s o => label o = String.append (label s) "_obs"
                         /\ reactive o = reactive s
                         /\ molecule o = molecule s)
       cand (skipn (List.length species_list) result)
  /\ (forall A, cand = [A] ->
        result = species_list ++ [observed_copy fresh A]
        /\ label (observed_copy fresh A) = String.append (label A) "_obs"
        /\ List.length result = S (List.length species_list))
  /\ (forall A,
        reactive A = true ->
        PyStr.contains "_obs" (label A) = false ->
        (forall c, In c constants -> is_isomorphic A c = false) ->
        fst (add_observed r ([A], fresh)) = [A; observed_copy fresh A])
  /\ (forall s, ends_with "_obs" (label s) = true -> ~ In s cand).
Proof.
  intros r cand result.
  assert (Heq : add_observed r (species_list, fresh)
                = (species_list
                     ++ map (fun p => observed_copy (fst p) (snd p))
                          (combine (seq fresh (List.length cand)) cand),
                   fresh + List.length cand)).
  { unfold add_observed, r. simpl. rewrite observed_species_eq. reflexivity. }
  assert (Hres : result
                 = species_list
                     ++ map (fun p => observed_copy (fst p) (snd p))
                          (combine (seq fresh (List.length cand)) cand)).
  { unfold result. rewrite Heq. reflexivity. }
  split; [exact Heq|]. split; [|split; [|split; [|split; [|split; [|split]]]]].
  - intro s. unfold cand. rewrite filter_In, needs_observed_iff. tauto.
  - rewrite Hres, length_app, length_map, length_combine, length_seq. lia.
  - rewrite Hres. apply firstn_length_app.
  - rewrite Hres, skipn_length_app.
    apply Forall2_numbered_copies. intros i s. simpl. auto.
  - intros A HA. rewrite Hres, HA. simpl. rewrite length_app. simpl.
    repeat split. lia.
  - intros A Hr Hc Hk.
    assert (Hneeds : needs_observed constants [A] A = true).
    { apply needs_observed_iff. repeat split; auto.
      intros s2 [<- | []] Hlab.
      apply (f_equal String.length) in Hlab.
      rewrite PyStrFacts.append_length in Hlab. simpl in Hlab. lia. }
    unfold add_observed, r. simpl. rewrite Hneeds. reflexivity.
  - intros s Hend Hin. unfold cand in Hin. apply filter_In in Hin.
    destruct Hin as [_ Hneeds]. apply needs_observed_iff in Hneeds.
    destruct Hneeds as (_ & Hc & _).
    rewrite (ends_with_contains _ _ Hend) in Hc. discriminate.
Qed.

Lemma observed_species_none (constants species_list scan : list Species) (fresh : nat) :
  (forall s, In s scan -> needs_observed constants species_list s = false) ->
  observed_species constants species_list scan fresh = ([], fresh).
Proof.
  intro H. rewrite observed_species_eq.
  assert (Hf : filter (needs_observed constants species_list) scan = []).
  { induction scan as [|s rest IH]; simpl; [reflexivity|].
    rewrite (H s) by (left; reflexivity). apply IH.
    intros x Hx. apply H. right. exact Hx. }
  rewrite Hf. simpl. rewrite Nat.add_0_r. reflexivity.
Qed.

Lemma has_observed_app (l x : list Species) (s : Species) :
  has_observed l s = true -> has_observed (l ++ x) s = true.
Proof.
  unfold has_observed. rewrite existsb_app. intros ->. reflexivity.
Qed.

Lemma observed_copy_not_needed (constants l : list Species) (i : nat) (s : Species) :
  needs_observed constants l (observed_copy i s) = false.
Proof.
  unfold needs_observed. simpl. unfold obs_label.
  rewrite PyStrFacts.contains_suffix. reflexivity.
Qed.

(** After a pass, no species of the extended list asks for a copy. *)
Lemma needs_observed_after_pass (constants species_list : list Species) (fresh : nat) (s : Species) :
  let obs := fst (observed_species constants species_list species_list fresh) in
  In s (species_list ++ obs) ->
  needs_observed constants (species_list ++ obs) s = false.
Proof.
  intros obs Hin. unfold obs in *. clear obs.
  rewrite observed_species_eq in *. simpl fst in *.
  set (cand := filter (needs_observed constants species_list) species_list) in *.
  apply in_app_or in Hin. destruct Hin as [Hin | Hin].
  - destruct (needs_observed constants species_list s) eqn:E.
    + assert (Hc : In s cand) by (unfold cand; apply filter_In; auto).
      destruct (numbered_copies_cover cand fresh s Hc) as [i Hi].
      unfold needs_observed.
      destruct (negb (PyStr.contains obs_suffix (label s)) && reactive s)%bool; [|reflexivity].
      destruct (is_constant constants s); [reflexivity|].
      assert (Hobs : has_observed
                       (species_list
                          ++ map (fun p => observed_copy (fst p) (snd p))
                               (combine (seq fresh (List.length cand)) cand)) s = true).
      { unfold has_observed. apply existsb_exists.
        exists (observed_copy i s). split.
        - apply in_or_app. right. exact Hi.
        - simpl. apply String.eqb_refl. }
      rewrite Hobs. reflexivity.
    + unfold needs_observed in *.
      destruct (negb (PyStr.contains obs_suffix (label s)) && reactive s)%bool; [|reflexivity].
      destruct (is_constant constants s); [reflexivity|].
      destruct (has_observed species_list s) eqn:Eo; [|discriminate].
      rewrite (has_observed_app _ _ _ Eo). reflexivity.
  - apply In_numbered_copies in Hin. destruct Hin as (i & s0 & _ & ->).
    apply observed_copy_not_needed.
Qed.

Lemma add_observed_new_labels (r : ReactionSystem) (st : list Species * nat) :
  exists obs,
    fst (add_observed r st) = fst st ++ obs
    /\ forall o, In o obs ->
         PyStr.contains "_obs" (label o) = true
         /\ ~ In (label o) (map label (fst st)).
Proof.
  unfold add_observed. destruct (variant r) as [n c | g c | f | f constants].
  1-3: exists []; rewrite app_nil_r; split; [reflexivity | intros o []].
  rewrite observed_species_eq. simpl fst.
  eexists. split; [reflexivity|].
  intros o Ho. apply In_numbered_copies in Ho. destruct Ho as (i & s & Hs & ->).
  apply filter_In in Hs. destruct Hs as [_ Hs].
  apply needs_observed_iff in Hs. destruct Hs as (_ & _ & _ & Hl).
  split.
  - simpl. apply (PyStrFacts.contains_suffix "_obs").
  - intro Hin. apply in_map_iff in Hin. destruct Hin as (s2 & Heq & Hin).
    exact (Hl s2 Hin Heq).
Qed.

(** C6: a second pass for the same reactor adds nothing; and a pass for a
    second reactor, run on the list that holds the first reactor's additions,
    adds no species whose label is already the label of a species of that
    list. *)
Theorem add_observed_idempotent :
  (forall (r : ReactionSystem) (st : list Species * nat),
     add_observed r (add_observed r st) = add_observed r st)
  /\ (forall (r1 r2 : ReactionSystem) (st : list Species * nat),
        exists obs,
          fst (add_observed r2 (add_observed r1 st)) = fst (add_observed r1 st) ++ obs
          /\ forall o, In o obs ->
               ~ In (label o) (map label (fst (add_observed r1 st)))).
Proof.
  split.
  - intros r [species_list fresh]. unfold add_observed.
    destruct (variant r) as [n c | g c | f | f constants]; try reflexivity.
    simpl fst. simpl snd.
    destruct (observed_species constants species_list species_list fresh)
      as [obs fresh'] eqn:E.
    simpl fst. simpl snd.
    rewrite observed_species_none.
    + rewrite app_nil_r. reflexivity.
    + intros s Hs.
      pose proof (needs_observed_after_pass constants species_list fresh s) as H.
      rewrite E in H. simpl in H. apply H. exact Hs.
  - intros r1 r2 st.
    destruct (add_observed_new_labels r2 (add_observed r1 st)) as (obs & Heq & Hobs).
    exists obs. split; [exact Heq|].
    intros o Ho. apply (Hobs o Ho).
Qed.


(** *** Lookups and comprehensions *)

Lemma getitem_Ok {V} (d : SpeciesDict V) (spec : Species) (v : V) :
  getitem d spec = Ok v <-> PyDict.get Species_eqb d spec = Some v.
Proof.
  unfold getitem. destruct (PyDict.get Species_eqb d spec); split; congruence.
Qed.

Lemma getitem_Raise {V} (d : SpeciesDict V) (spec : Species) (e : exn) :
  getitem d spec = Raise e <->
  PyDict.get Species_eqb d spec = None /\ e = KeyError (KeySpecies spec).
Proof.
  unfold getitem. destruct (PyDict.get Species_eqb d spec); split.
  - discriminate.
  - intros [H _]. discriminate.
  - intro H. inversion H. auto.
  - intros [_ ->]. reflexivity.
Qed.

Lemma comprehension_Ok {A B} (f : A -> result B) (l : list A) (l' : list B) :
  comprehension f l = Ok l' <-> Forall2 (fun a b => f a = Ok b) l l'.
Proof.
  revert l'. induction l as [|a l IH]; intro l'; simpl.
  - split.
    + intro H. inversion H. constructor.
    + intro H. inversion H. reflexivity.
  - destruct (f a) as [b|e] eqn:Ea; simpl.
    + destruct (comprehension f l) as [bs|e] eqn:El; simpl.
      * split.
        -- intro H. inversion H; subst. constructor; [exact Ea | apply IH; reflexivity].
        -- intro H. inversion H; subst.
           assert (b = y) by congruence. subst y.
           match goal with Hf : Forall2 _ l _ |- _ => apply IH in Hf; inversion Hf end.
           reflexivity.
      * split; [discriminate|].
        intro H. inversion H; subst.
        match goal with Hf : Forall2 _ l _ |- _ => apply IH in Hf; discriminate end.
    + split; [discriminate|].
      intro H. inversion H; subst. congruence.
Qed.

Lemma comprehension_Raise {A B} (f : A -> result B) (l : list A) (e : exn) :
  comprehension f l = Raise e -> exists a, In a l /\ f a = Raise e.
Proof.
  induction l as [|a l IH]; simpl.
  - discriminate.
  - destruct (f a) as [b|e'] eqn:Ea; simpl.
    + destruct (comprehension f l) as [bs|e'] eqn:El; simpl; [discriminate|].
      intro H. inversion H; subst.
      destruct (IH eq_refl) as (x & Hx & Hf). exists x. auto.
    + intro H. inversion H; subst. exists a. auto.
Qed.

Lemma comprehension_fails {A B} (f : A -> result B) (l : list A) (a : A) (e : exn) :
  In a l -> f a = Raise e -> exists e', comprehension f l = Raise e'.
Proof.
  induction l as [|x l IH]; simpl.
  - intros [].
  - intros [-> | Hin] Hf.
    + rewrite Hf. simpl. eauto.
    + destruct (f x); simpl; [|eauto].
      destruct (IH Hin Hf) as [e' ->]. simpl. eauto.
Qed.

(** *** Mappings *)

Lemma remap_mapping_Raise (species_dict : SpeciesDict Species)
    (mapping : SpeciesDict Quantity) (e : exn) :
  remap_mapping species_dict mapping = Raise e ->
  exists spec, In spec (PyDict.keys mapping)
               /\ PyDict.get Species_eqb species_dict spec = None
               /\ e = KeyError (KeySpecies spec).
Proof.
  unfold remap_mapping.
  destruct (comprehension _ mapping) as [items|e'] eqn:E; simpl; [discriminate|].
  intro H. inversion H; subst.
  apply comprehension_Raise in E. destruct E as ([spec x] & Hin & Hf).
  simpl in Hf.
  destruct (getitem species_dict spec) as [c|e'] eqn:G; simpl in Hf; [discriminate|].
  inversion Hf; subst. apply getitem_Raise in G. destruct G as [G ->].
  exists spec. repeat split; auto.
  unfold PyDict.keys. apply in_map_iff. exists (spec, x). auto.
Qed.

Lemma remap_mapping_fails (species_dict : SpeciesDict Species)
    (mapping : SpeciesDict Quantity) (spec : Species) :
  In spec (PyDict.keys mapping) ->
  PyDict.get Species_eqb species_dict spec = None ->
  exists k, remap_mapping species_dict mapping = Raise (KeyError k).
Proof.
  intros Hin Hget. unfold PyDict.keys in Hin.
  apply in_map_iff in Hin. destruct Hin as ([s x] & Hs & Hin). simpl in Hs. subst s.
  destruct (remap_mapping species_dict mapping) as [m'|e] eqn:E.
  - exfalso. unfold remap_mapping in E.
    destruct (comprehension _ mapping) as [items|e'] eqn:C; simpl in E; [|discriminate].
    assert (Hf : exists e', comprehension
                   (fun item => bind (getitem species_dict (fst item))
                                  (fun species => Ok (species, snd item))) mapping
                 = Raise e').
    { eapply comprehension_fails; [exact Hin|].
      simpl. unfold getitem. rewrite Hget. reflexivity. }
    destruct Hf as [e' Hf]. rewrite Hf in C. discriminate.
  - apply remap_mapping_Raise in E. destruct E as (s & _ & _ & ->). eauto.
Qed.

Lemma remap_mapping_items (species_dict : SpeciesDict Species)
    (mapping items : SpeciesDict Quantity) :
  comprehension
    (fun item => bind (getitem species_dict (fst item))
                   (fun species => Ok (species, snd item))) mapping = Ok items ->
  PyDict.values items = PyDict.values mapping
  /\ map Some (PyDict.keys items)
     = map (PyDict.get Species_eqb species_dict) (PyDict.keys mapping).
Proof.
  intro H. apply comprehension_Ok in H.
  unfold PyDict.values, PyDict.keys.
  induction H as [|[k x] [k' x'] l l' Hf Hrest IH]; simpl.
  - auto.
  - simpl in Hf.
    destruct (getitem species_dict k) as [c|e] eqn:G; simpl in Hf; [|discriminate].
    inversion Hf; subst. apply getitem_Ok in G.
    destruct IH as [IH1 IH2]. rewrite IH1, IH2, G. auto.
Qed.

(** *** Termination criteria *)

Lemma termination_visited_refl (species_dict : SpeciesDict Species)
    (ts : list TerminationCriterion) :
  Forall2 (termination_visited species_dict) ts ts.
Proof.
  induction ts as [|t ts IH]; constructor; [|exact IH].
  destruct t; simpl; auto.
Qed.

Lemma remap_termination_visited (species_dict : SpeciesDict Species)
    (ts : list TerminationCriterion) :
  Forall2 (termination_visited species_dict) ts
    (fst (remap_termination species_dict ts)).
Proof.
  induction ts as [|t ts IH]; simpl.
  - constructor.
  - destruct t as [time | species conversion | ratio].
    + destruct (remap_termination species_dict ts) as [rest' e]. simpl in *.
      constructor; [reflexivity | exact IH].
    + destruct (getitem species_dict species) as [species'|e] eqn:G.
      * destruct (remap_termination species_dict ts) as [rest' e]. simpl in *.
        constructor; [|exact IH].
        right. exists species'. split; [apply getitem_Ok; exact G | reflexivity].
      * simpl. constructor; [left; reflexivity | apply termination_visited_refl].
    + destruct (remap_termination species_dict ts) as [rest' e]. simpl in *.
      constructor; [reflexivity | exact IH].
Qed.

Lemma remap_termination_remapped (species_dict : SpeciesDict Species)
    (ts : list TerminationCriterion) :
  snd (remap_termination species_dict ts) = None ->
  Forall2 (termination_remapped species_dict) ts
    (fst (remap_termination species_dict ts)).
Proof.
  induction ts as [|t ts IH]; simpl.
  - constructor.
  - destruct t as [time | species conversion | ratio].
    + destruct (remap_termination species_dict ts) as [rest' e]. simpl in *.
      intro H. constructor; [reflexivity | apply IH; exact H].
    + destruct (getitem species_dict species) as [species'|e] eqn:G.
      * destruct (remap_termination species_dict ts) as [rest' e]. simpl in *.
        intro H. constructor; [|apply IH; exact H].
        exists species'. split; [apply getitem_Ok; exact G | reflexivity].
      * simpl. discriminate.
    + destruct (remap_termination species_dict ts) as [rest' e]. simpl in *.
      intro H. constructor; [reflexivity | apply IH; exact H].
Qed.

Lemma remap_termination_exn (species_dict : SpeciesDict Species)
    (ts : list TerminationCriterion) (e : exn) :
  snd (remap_termination species_dict ts) = Some e -> exists k, e = KeyError k.
Proof.
  induction ts as [|t ts IH]; simpl.
  - discriminate.
  - destruct t as [time | species conversion | ratio].
    + destruct (remap_termination species_dict ts) as [rest' e']. simpl in *. exact IH.
    + destruct (getitem species_dict species) as [species'|e'] eqn:G.
      * destruct (remap_termination species_dict ts) as [rest' e'']. simpl in *. exact IH.
      * simpl. intro H. inversion H; subst.
        apply getitem_Raise in G. destruct G as [_ ->]. eauto.
    + destruct (remap_termination species_dict ts) as [rest' e']. simpl in *. exact IH.
Qed.

Lemma remap_termination_fails (species_dict : SpeciesDict Species)
    (ts : list TerminationCriterion) (spec : Species) :
  In spec (termination_species ts) ->
  PyDict.get Species_eqb species_dict spec = None ->
  exists k, snd (remap_termination species_dict ts) = Some (KeyError k).
Proof.
  intros Hin Hget.
  induction ts as [|t ts IH]; simpl in *.
  - destruct Hin.
  - destruct t as [time | species conversion | ratio]; simpl in Hin.
    + destruct (remap_termination species_dict ts) as [rest' e]. simpl in *. auto.
    + destruct (getitem species_dict species) as [species'|e] eqn:G.
      * destruct Hin as [-> | Hin].
        -- apply getitem_Ok in G. congruence.
        -- destruct (remap_termination species_dict ts) as [rest' e]. simpl in *. auto.
      * apply getitem_Raise in G. destruct G as [_ ->]. simpl. eauto.
    + destruct (remap_termination species_dict ts) as [rest' e]. simpl in *. auto.
Qed.

(** *** Sensitivity lists *)

Lemma is_all_sentinel_iff (l : list PyKey) :
  is_all_sentinel l = true <-> l = [KeyStr "all"].
Proof.
  unfold is_all_sentinel.
  destruct l as [|k l].
  - split; discriminate.
  - destruct k as [s|s].
    + split; [destruct l; discriminate | intro H; inversion H].
    + destruct l as [|k l].
      * rewrite String.eqb_eq.
        split; [intros ->; reflexivity | intro H; inversion H; reflexivity].
      * split; [discriminate | intro H; inversion H].
Qed.

Lemma getitem_key_Ok (species_dict : SpeciesDict Species) (k k' : PyKey) :
  getitem_key species_dict k = Ok k' <-> sensitive_image species_dict k k'.
Proof.
  unfold sensitive_image. destruct k as [spec|s]; simpl.
  - destruct (getitem species_dict spec) as [c|e] eqn:G; simpl.
    + apply getitem_Ok in G. split.
      * intro H. inversion H; subst. exists spec, c. auto.
      * intros (spec' & c' & Hk & Hget & ->). inversion Hk; subst. congruence.
    + apply getitem_Raise in G. destruct G as [G _]. split; [discriminate|].
      intros (spec' & c' & Hk & Hget & ->). inversion Hk; subst. congruence.
  - split; [discriminate|]. intros (spec' & c' & Hk & _). discriminate.
Qed.

Lemma getitem_key_Raise (species_dict : SpeciesDict Species) (k : PyKey) (e : exn) :
  getitem_key species_dict k = Raise e -> e = KeyError k.
Proof.
  destruct k as [spec|s]; simpl.
  - destruct (getitem species_dict spec) as [c|e'] eqn:G; simpl; [discriminate|].
    intro H. inversion H; subst. apply getitem_Raise in G. tauto.
  - intro H. inversion H. reflexivity.
Qed.

Lemma remap_sensitive_exn (species_dict : SpeciesDict Species) (l : list PyKey) (e : exn) :
  remap_sensitive species_dict l = Raise e -> exists k, e = KeyError k.
Proof.
  unfold remap_sensitive. destruct (is_all_sentinel l); [discriminate|].
  intro H. apply comprehension_Raise in H. destruct H as (k & _ & Hk).
  apply getitem_key_Raise in Hk. eauto.
Qed.

Lemma remap_sensitive_fails (species_dict : SpeciesDict Species) (l : list PyKey)
    (spec : Species) :
  In spec (sensitive_refs l) ->
  PyDict.get Species_eqb species_dict spec = None ->
  exists k, remap_sensitive species_dict l = Raise (KeyError k).
Proof.
  unfold sensitive_refs, remap_sensitive.
  destruct (is_all_sentinel l); [intros [] |].
  intros Hin Hget. apply in_flat_map in Hin. destruct Hin as (k & Hk & Hs).
  destruct k as [s|s]; simpl in Hs; [|destruct Hs].
  destruct Hs as [-> | []].
  destruct (@comprehension_fails _ _ (getitem_key species_dict) l (KeySpecies spec)
              (KeyError (KeySpecies spec)) Hk) as [e He].
  - simpl. unfold getitem. rewrite Hget. reflexivity.
  - rewrite He. apply comprehension_Raise in He. destruct He as (k & _ & Hf).
    apply getitem_key_Raise in Hf. subst. eauto.
Qed.


(** *** Constant species names of liquid reactors *)

Lemma Forall2_In_left {A B} (R : A -> B -> Prop) (l : list A) (l' : list B) (a : A) :
  Forall2 R l l' -> In a l -> exists b, In b l' /\ R a b.
Proof.
  induction 1 as [|x y l l' Hxy HF IH]; simpl.
  - intros [].
  - intros [-> | Hin].
    + exists y. auto.
    + destruct (IH Hin) as (b & Hb & HR). exists b. auto.
Qed.

Lemma const_species_inner_Ok (species_dict : SpeciesDict Species) (spec0 : Species)
    (names : list string) (d d' : StrDict) :
  const_species_inner species_dict spec0 names d = Ok d' ->
  d' = d
  \/ exists species,
       PyDict.get Species_eqb species_dict spec0 = Some species
       /\ d' = PyDict.set String.eqb d (label spec0) (label species).
Proof.
  induction names as [|n names IH]; simpl.
  - intro H. inversion H. auto.
  - destruct (String.eqb (label spec0) n) eqn:E.
    + apply String.eqb_eq in E. subst n.
      destruct (getitem species_dict spec0) as [c|e] eqn:G; simpl; [|discriminate].
      intro H. inversion H; subst. right. exists c.
      split; [apply getitem_Ok; exact G | reflexivity].
    + exact IH.
Qed.

Lemma const_species_inner_Raise (species_dict : SpeciesDict Species) (spec0 : Species)
    (names : list string) (d : StrDict) (e : exn) :
  const_species_inner species_dict spec0 names d = Raise e ->
  e = KeyError (KeySpecies spec0).
Proof.
  induction names as [|n names IH]; simpl.
  - discriminate.
  - destruct (String.eqb (label spec0) n).
    + destruct (getitem species_dict spec0) as [c|e'] eqn:G; simpl; [discriminate|].
      intro H. inversion H; subst. apply getitem_Raise in G. tauto.
    + exact IH.
Qed.

Lemma const_species_inner_fails (species_dict : SpeciesDict Species) (spec0 : Species)
    (names : list string) (d : StrDict) :
  In (label spec0) names ->
  PyDict.get Species_eqb species_dict spec0 = None ->
  const_species_inner species_dict spec0 names d = Raise (KeyError (KeySpecies spec0)).
Proof.
  intros Hin Hget. induction names as [|n names IH]; simpl.
  - destruct Hin.
  - destruct (String.eqb (label spec0) n) eqn:E.
    + unfold getitem. rewrite Hget. reflexivity.
    + destruct Hin as [-> | Hin]; [rewrite String.eqb_refl in E; discriminate | auto].
Qed.

Lemma build_const_species_dict_entries (species_dict : SpeciesDict Species)
    (initial : list Species) (names : list string) (d0 d : StrDict) :
  build_const_species_dict species_dict initial names d0 = Ok d ->
  forall n l, In (n, l) d -> In (n, l) d0 \/ resolves species_dict initial n l.
Proof.
  revert d0. induction initial as [|spec0 rest IH]; intros d0; simpl.
  - intro H. inversion H; subst. auto.
  - destruct (const_species_inner species_dict spec0 names d0) as [d1|e] eqn:E;
      simpl; [|discriminate].
    intros H n l Hin.
    destruct (IH d1 H n l Hin) as [Hd1 | (s & c & Hs & Hl & Hg & Hc)].
    + apply const_species_inner_Ok in E. destruct E as [-> | (c & Hg & ->)].
      * auto.
      * apply (PyDictFacts.set_In _ string_eqb_spec) in Hd1.
        destruct Hd1 as [Hd0 | [-> ->]]; [auto|].
        right. exists spec0, c. simpl. auto.
    + right. exists s, c. simpl. auto.
Qed.

Lemma build_const_species_dict_exn (species_dict : SpeciesDict Species)
    (initial : list Species) (names : list string) (d0 : StrDict) (e : exn) :
  build_const_species_dict species_dict initial names d0 = Raise e ->
  exists k, e = KeyError k.
Proof.
  revert d0. induction initial as [|spec0 rest IH]; intros d0; simpl.
  - discriminate.
  - destruct (const_species_inner species_dict spec0 names d0) as [d1|e'] eqn:E; simpl.
    + apply IH.
    + intro H. inversion H; subst. apply const_species_inner_Raise in E. eauto.
Qed.

Lemma build_const_species_dict_fails (species_dict : SpeciesDict Species)
    (initial : list Species) (names : list string) (d0 : StrDict) (spec0 : Species) :
  In spec0 initial ->
  In (label spec0) names ->
  PyDict.get Species_eqb species_dict spec0 = None ->
  exists k, build_const_species_dict species_dict initial names d0 = Raise (KeyError k).
Proof.
  intros Hin Hname Hget. revert d0.
  induction initial as [|a rest IH]; intros d0; simpl.
  - destruct Hin.
  - destruct (const_species_inner species_dict a names d0) as [d1|e] eqn:E; simpl.
    + destruct Hin as [-> | Hin].
      * rewrite (const_species_inner_fails _ _ _ d0 Hname Hget) in E. discriminate.
      * apply IH. exact Hin.
    + apply const_species_inner_Raise in E. subst. eauto.
Qed.

Lemma const_species_inner_succeeds (species_dict : SpeciesDict Species) (spec0 : Species)
    (names : list string) (d : StrDict) :
  (In (label spec0) names -> PyDict.get Species_eqb species_dict spec0 <> None) ->
  exists d',
    const_species_inner species_dict spec0 names d = Ok d'
    /\ (forall n, In n (PyDict.keys d) -> In n (PyDict.keys d'))
    /\ (In (label spec0) names -> In (label spec0) (PyDict.keys d')).
Proof.
  induction names as [|n names IH]; simpl; intro Hbound.
  - exists d. split; [reflexivity|]. split; [auto | intros []].
  - destruct (String.eqb (label spec0) n) eqn:E.
    + apply String.eqb_eq in E. subst n.
      destruct (PyDict.get Species_eqb species_dict spec0) as [c|] eqn:G.
      * unfold getitem. rewrite G. simpl.
        exists (PyDict.set String.eqb d (label spec0) (label c)).
        split; [reflexivity|]. split.
        -- intros n Hn. apply (PyDictFacts.keys_set _ string_eqb_spec). left. exact Hn.
        -- intros _. apply (PyDictFacts.keys_set _ string_eqb_spec). right. reflexivity.
      * exfalso. apply Hbound; auto.
    + destruct IH as (d' & Hd' & Hkeep & Hnew).
      * intro Hin. apply Hbound. right. exact Hin.
      * exists d'. split; [exact Hd'|]. split; [exact Hkeep|].
        intros [Heq | Hin]; [|auto].
        subst n. rewrite String.eqb_refl in E. discriminate.
Qed.

Lemma build_const_species_dict_succeeds (species_dict : SpeciesDict Species)
    (initial : list Species) (names : list string) (d : StrDict) :
  (forall spec0, In spec0 initial -> In (label spec0) names ->
                 PyDict.get Species_eqb species_dict spec0 <> None) ->
  exists d',
    build_const_species_dict species_dict initial names d = Ok d'
    /\ (forall n, In n (PyDict.keys d) -> In n (PyDict.keys d'))
    /\ (forall spec0, In spec0 initial -> In (label spec0) names ->
                      In (label spec0) (PyDict.keys d')).
Proof.
  revert d. induction initial as [|a rest IH]; intros d Hbound; simpl.
  - exists d. split; [reflexivity|]. split; [auto | intros spec0 []].
  - destruct (const_species_inner_succeeds species_dict a names d) as (d1 & H1 & Hk1 & Hn1).
    { apply Hbound. left. reflexivity. }
    rewrite H1. simpl.
    destruct (IH d1) as (d' & Hd' & Hkeep & Hnew).
    { intros spec0 Hin. apply Hbound. right. exact Hin. }
    exists d'. split; [exact Hd'|]. split.
    + intros n Hn. apply Hkeep, Hk1, Hn.
    + intros spec0 [<- | Hin] Hname.
      * apply Hkeep, Hn1, Hname.
      * apply Hnew; assumption.
Qed.

Lemma comprehension_succeeds {A B} (f : A -> result B) (l : list A) :
  (forall a, In a l -> exists b, f a = Ok b) ->
  exists l', comprehension f l = Ok l'.
Proof.
  induction l as [|a l IH]; simpl; intro H.
  - eauto.
  - destruct (H a) as [b Hb]; [left; reflexivity|].
    destruct IH as [l' Hl']; [intros x Hx; apply H; right; exact Hx|].
    rewrite Hb, Hl'. simpl. eauto.
Qed.

Lemma getitem_str_Raise (d : StrDict) (n : string) (e : exn) :
  getitem_str d n = Raise e -> e = KeyError (KeyStr n).
Proof.
  unfold getitem_str. destruct (PyDict.get String.eqb d n); [discriminate|].
  intro H. inversion H. reflexivity.
Qed.

Lemma remap_const_spc_names_nonempty (species_dict : SpeciesDict Species)
    (initial : list Species) (name : string) (names : list string) :
  remap_const_spc_names species_dict initial (Some (name :: names))
  = bind (build_const_species_dict species_dict initial (name :: names) [])
      (fun d => bind (comprehension (getitem_str d) (name :: names))
                  (fun names' => Ok (Some names'))).
Proof. reflexivity. Qed.

Lemma remap_const_spc_names_exn (species_dict : SpeciesDict Species)
    (initial : list Species) (names : option (list string)) (e : exn) :
  remap_const_spc_names species_dict initial names = Raise e ->
  exists k, e = KeyError k.
Proof.
  destruct names as [[|n names]|]; try discriminate.
  rewrite remap_const_spc_names_nonempty.
  remember (n :: names) as l eqn:Hl. clear Hl.
  destruct (build_const_species_dict species_dict initial l []) as [d|e'] eqn:B;
    simpl.
  - destruct (comprehension (getitem_str d) l) as [l'|e'] eqn:C; simpl; [discriminate|].
    intro H. inversion H; subst.
    apply comprehension_Raise in C. destruct C as (x & _ & Hx).
    apply getitem_str_Raise in Hx. eauto.
  - intro H. inversion H; subst. apply build_const_species_dict_exn in B. exact B.
Qed.

(** C10: for a liquid reactor with a non-empty list of constant species
    names the remapping raises [KeyError] when a name of the list is the label
    of no initial species, and when an initial species whose label is in the
    list has no entry in the identity map; when it does not raise, every name
    has been replaced by the label of the Chemkin species bound to an initial
    species with that name; it does not raise when every name is the label
    of an initial species and every initial species so named has an entry in
    the map; and an exception leaves the reactor as it was. *)
Theorem const_spc_names_resolution
    (species_dict : SpeciesDict Species) (initial : list Species)
    (name : string) (names : list string) :
  let const_spc_names := Some (name :: names) in
  ((exists n, In n (name :: names)
              /\ forall spec0, In spec0 initial -> label spec0 <> n) ->
   exists k, remap_const_spc_names species_dict initial const_spc_names
             = Raise (KeyError k))
  /\ ((exists n spec0, In n (name :: names)
                       /\ In spec0 initial
                       /\ label spec0 = n
                       /\ PyDict.get Species_eqb species_dict spec0 = None) ->
      exists k, remap_const_spc_names species_dict initial const_spc_names
                = Raise (KeyError k))
  /\ (forall res,
        remap_const_spc_names species_dict initial const_spc_names = Ok res ->
        exists names',
          res = Some names'
          /\ Forall2 (resolves species_dict initial) (name :: names) names')
  /\ ((forall n, In n (name :: names) ->
                  exists spec0, In spec0 initial /\ label spec0 = n) ->
      (forall spec0, In spec0 initial -> In (label spec0) (name :: names) ->
                     PyDict.get Species_eqb species_dict spec0 <> None) ->
      exists names',
        remap_const_spc_names species_dict initial const_spc_names = Ok (Some names'))
  /\ (forall e conc ts sens,
        remap_const_spc_names species_dict initial const_spc_names = Raise e ->
        remap_system species_dict initial
          (mkReactionSystem (LiquidReactor const_spc_names conc) ts sens)
        = (mkReactionSystem (LiquidReactor const_spc_names conc) ts sens, Some e)).
Proof.
  intro const_spc_names.
  assert (Hok : forall res,
             remap_const_spc_names species_dict initial const_spc_names = Ok res ->
             exists names',
               res = Some names'
               /\ Forall2 (resolves species_dict initial) (name :: names) names').
  { intros res H. unfold const_spc_names in H.
    rewrite remap_const_spc_names_nonempty in H.
    remember (name :: names) as l0 eqn:Hl0. clear Hl0.
    destruct (build_const_species_dict species_dict initial l0 [])
      as [d|e] eqn:B; simpl in H; [|discriminate].
    destruct (comprehension (getitem_str d) l0) as [l|e] eqn:C;
      simpl in H; [|discriminate].
    inversion H; subst. exists l. split; [reflexivity|].
    apply comprehension_Ok in C.
    eapply Forall2_impl; [|exact C].
    intros n n' Hn. unfold getitem_str in Hn.
    destruct (PyDict.get String.eqb d n) as [v|] eqn:G; [|discriminate].
    inversion Hn; subst.
    apply (PyDictFacts.get_In _ string_eqb_spec) in G.
    destruct (build_const_species_dict_entries _ _ _ _ B _ _ G) as [[] | Hr].
    exact Hr. }
  split; [|split; [|split; [|split]]].
  - intros (n & Hn & Hnone).
    destruct (remap_const_spc_names species_dict initial const_spc_names) as [res|e] eqn:E.
    + destruct (Hok res eq_refl) as (names' & _ & HF).
      destruct (@Forall2_In_left _ _ _ _ _ n HF Hn) as (n' & _ & (spec0 & c & Hs & Hl & _)).
      exfalso. exact (Hnone spec0 Hs Hl).
    + apply remap_const_spc_names_exn in E. destruct E as [k ->]. eauto.
  - intros (n & spec0 & Hn & Hin & Hl & Hget).
    unfold const_spc_names. rewrite remap_const_spc_names_nonempty.
    subst n.
    destruct (build_const_species_dict_fails species_dict initial (name :: names) []
                spec0 Hin Hn Hget) as [k Hk].
    rewrite Hk. simpl. eauto.
  - exact Hok.
  - intros Hlabels Hbound.
    unfold const_spc_names. rewrite remap_const_spc_names_nonempty.
    remember (name :: names) as l0 eqn:Hl0. clear Hl0.
    destruct (build_const_species_dict_succeeds species_dict initial l0 []
                Hbound) as (d & Hd & _ & Hkeys).
    rewrite Hd. simpl.
    destruct (comprehension_succeeds (getitem_str d) l0) as [names' Hn'].
    { intros n Hn. destruct (Hlabels n Hn) as (spec0 & Hs & Hl).
      assert (Hk : In n (PyDict.keys d)).
      { rewrite <- Hl. apply Hkeys; [exact Hs | rewrite Hl; exact Hn]. }
      destruct (PyDictFacts.get_Some_keys _ string_eqb_spec d n Hk) as [v Hv].
      exists v. unfold getitem_str. rewrite Hv. reflexivity. }
    exists names'. rewrite Hn'. reflexivity.
  - intros e conc ts sens H. unfold remap_system, remap_variant.
    cbn [variant]. rewrite H. reflexivity.
Qed.


(** *** One reactor *)

Lemma remap_variant_exn (species_dict : SpeciesDict Species) (initial : list Species)
    (v : ReactorVariant) (e : exn) :
  snd (remap_variant species_dict initial v) = Some e -> exists k, e = KeyError k.
Proof.
  unfold remap_variant.
  destruct v as [names conc | gas cov | fracs | fracs constants].
  - destruct (remap_const_spc_names species_dict initial names) as [names'|e1] eqn:N.
    + destruct (remap_mapping species_dict conc) as [conc'|e2] eqn:M; simpl; [discriminate|].
      intro H. inversion H; subst.
      apply remap_mapping_Raise in M. destruct M as (s & _ & _ & ->). eauto.
    + simpl. intro H. inversion H; subst.
      apply remap_const_spc_names_exn in N. exact N.
  - destruct (remap_mapping species_dict gas) as [gas'|e1] eqn:G.
    + destruct (remap_mapping species_dict cov) as [cov'|e2] eqn:C; simpl; [discriminate|].
      intro H. inversion H; subst.
      apply remap_mapping_Raise in C. destruct C as (s & _ & _ & ->). eauto.
    + simpl. intro H. inversion H; subst.
      apply remap_mapping_Raise in G. destruct G as (s & _ & _ & ->). eauto.
  - destruct (remap_mapping species_dict fracs) as [fracs'|e1] eqn:M; simpl; [discriminate|].
    intro H. inversion H; subst.
    apply remap_mapping_Raise in M. destruct M as (s & _ & _ & ->). eauto.
  - destruct (remap_mapping species_dict fracs) as [fracs'|e1] eqn:M; simpl; [discriminate|].
    intro H. inversion H; subst.
    apply remap_mapping_Raise in M. destruct M as (s & _ & _ & ->). eauto.
Qed.

Lemma remap_variant_fails (species_dict : SpeciesDict Species) (initial : list Species)
    (v : ReactorVariant) (spec : Species) :
  In spec (mapping_species v) ->
  PyDict.get Species_eqb species_dict spec = None ->
  exists e, snd (remap_variant species_dict initial v) = Some e.
Proof.
  intros Hin Hget. unfold remap_variant.
  destruct v as [names conc | gas cov | fracs | fracs constants]; simpl in Hin.
  - destruct (remap_const_spc_names species_dict initial names); [|simpl; eauto].
    destruct (remap_mapping_fails species_dict conc spec Hin Hget) as [k ->].
    simpl. eauto.
  - apply in_app_or in Hin. destruct Hin as [Hin | Hin].
    + destruct (remap_mapping_fails species_dict gas spec Hin Hget) as [k ->].
      simpl. eauto.
    + destruct (remap_mapping species_dict gas); [|simpl; eauto].
      destruct (remap_mapping_fails species_dict cov spec Hin Hget) as [k ->].
      simpl. eauto.
  - destruct (remap_mapping_fails species_dict fracs spec Hin Hget) as [k ->].
    simpl. eauto.
  - destruct (remap_mapping_fails species_dict fracs spec Hin Hget) as [k ->].
    simpl. eauto.
Qed.

Lemma remap_variant_mole_fractions (species_dict : SpeciesDict Species)
    (initial : list Species) (v v' : ReactorVariant) (m : SpeciesDict Quantity) :
  remap_variant species_dict initial v = (v', None) ->
  mole_fractions v = Some m ->
  exists m', mole_fractions v' = Some m' /\ remap_mapping species_dict m = Ok m'.
Proof.
  unfold remap_variant.
  destruct v as [names conc | gas cov | fracs | fracs constants]; simpl.
  - discriminate.
  - destruct (remap_mapping species_dict gas) as [gas'|e1] eqn:G; [|discriminate].
    destruct (remap_mapping species_dict cov) as [cov'|e2]; [|discriminate].
    intros H Hm. inversion H; subst. inversion Hm; subst. simpl. eauto.
  - destruct (remap_mapping species_dict fracs) as [fracs'|e1] eqn:M; [|discriminate].
    intros H Hm. inversion H; subst. inversion Hm; subst. simpl. eauto.
  - destruct (remap_mapping species_dict fracs) as [fracs'|e1] eqn:M; [|discriminate].
    intros H Hm. inversion H; subst. inversion Hm; subst. simpl. eauto.
Qed.

(** The three steps of a reactor that is remapped without an exception. *)
Lemma remap_system_Ok (species_dict : SpeciesDict Species) (initial : list Species)
    (r r' : ReactionSystem) :
  remap_system species_dict initial r = (r', None) <->
  remap_variant species_dict initial (variant r) = (variant r', None)
  /\ remap_termination species_dict (termination r) = (termination r', None)
  /\ remap_sensitive species_dict (sensitive_species r) = Ok (sensitive_species r').
Proof.
  unfold remap_system.
  destruct (remap_variant species_dict initial (variant r)) as [v' [e|]].
  - split; [discriminate | intros (H & _); discriminate].
  - destruct (remap_termination species_dict (termination r)) as [ts' [e|]].
    + split; [discriminate | intros (_ & H & _); discriminate].
    + destruct (remap_sensitive species_dict (sensitive_species r)) as [sens'|e].
      * split.
        -- intro H. inversion H; subst. simpl. auto.
        -- intros (Hv & Ht & Hs). destruct r' as [v2 ts2 sens2]. simpl in *.
           congruence.
      * split; [discriminate | intros (_ & _ & H); discriminate].
Qed.

Lemma remap_system_exn (species_dict : SpeciesDict Species) (initial : list Species)
    (r : ReactionSystem) (e : exn) :
  snd (remap_system species_dict initial r) = Some e -> exists k, e = KeyError k.
Proof.
  unfold remap_system.
  destruct (remap_variant species_dict initial (variant r)) as [v' [e1|]] eqn:V.
  - simpl. intro H. inversion H; subst.
    apply (remap_variant_exn species_dict initial (variant r)). rewrite V. reflexivity.
  - destruct (remap_termination species_dict (termination r)) as [ts' [e2|]] eqn:T.
    + simpl. intro H. inversion H; subst.
      apply (remap_termination_exn species_dict (termination r)). rewrite T. reflexivity.
    + destruct (remap_sensitive species_dict (sensitive_species r)) as [sens'|e3] eqn:S;
        simpl; [discriminate|].
      intro H. inversion H; subst. apply remap_sensitive_exn in S. exact S.
Qed.

Lemma remap_system_fails (species_dict : SpeciesDict Species) (initial : list Species)
    (r : ReactionSystem) (spec : Species) :
  In spec (referenced_species r) ->
  PyDict.get Species_eqb species_dict spec = None ->
  exists k, snd (remap_system species_dict initial r) = Some (KeyError k).
Proof.
  intros Hin Hget.
  assert (Hsome : exists e, snd (remap_system species_dict initial r) = Some e).
  { unfold referenced_species in Hin. unfold remap_system.
    destruct (remap_variant species_dict initial (variant r)) as [v' [e1|]] eqn:V;
      [simpl; eauto|].
    destruct (remap_termination species_dict (termination r)) as [ts' [e2|]] eqn:T;
      [simpl; eauto|].
    destruct (remap_sensitive species_dict (sensitive_species r)) as [sens'|e3] eqn:S;
      [|simpl; eauto].
    exfalso.
    apply in_app_or in Hin. destruct Hin as [Hin | Hin].
    - destruct (remap_variant_fails species_dict initial (variant r) spec Hin Hget) as [e He].
      rewrite V in He. discriminate.
    - apply in_app_or in Hin. destruct Hin as [Hin | Hin].
      + destruct (remap_termination_fails species_dict (termination r) spec Hin Hget)
          as [k Hk].
        rewrite T in Hk. discriminate.
      + destruct (remap_sensitive_fails species_dict (sensitive_species r) spec Hin Hget)
          as [k Hk].
        rewrite S in Hk. discriminate. }
  destruct Hsome as [e He].
  destruct (remap_system_exn species_dict initial r He) as [k ->].
  eauto.
Qed.

(** *** All reactors *)

Lemma remap_systems_Raise (species_dict : SpeciesDict Species) (initial : list Species)
    (systems systems' : list ReactionSystem) (e : exn) :
  remap_systems species_dict initial systems = (systems', Some e) ->
  exists pre r0 post pre' r0',
    systems = pre ++ r0 :: post
    /\ systems' = pre' ++ r0' :: post
    /\ Forall2 (fun x x' => remap_system species_dict initial x = (x', None)) pre pre'
    /\ remap_system species_dict initial r0 = (r0', Some e).
Proof.
  revert systems'. induction systems as [|r rest IH]; intro systems'; simpl.
  - discriminate.
  - destruct (remap_system species_dict initial r) as [r' [e1|]] eqn:R.
    + intro H. inversion H; subst.
      exists [], r, rest, [], r'. simpl. repeat split; auto.
    + destruct (remap_systems species_dict initial rest) as [rest' e2] eqn:Rs.
      intro H. inversion H; subst.
      destruct (IH rest' eq_refl) as (pre & r0 & post & pre' & r0' & H1 & H2 & H3 & H4).
      exists (r :: pre), r0, post, (r' :: pre'), r0'. subst. simpl.
      repeat split; auto.
Qed.

Lemma remap_systems_fails (species_dict : SpeciesDict Species) (initial : list Species)
    (systems : list ReactionSystem) (r : ReactionSystem) (e : exn) :
  In r systems ->
  snd (remap_system species_dict initial r) = Some e ->
  exists e', snd (remap_systems species_dict initial systems) = Some e'.
Proof.
  intros Hin Hr. induction systems as [|a rest IH]; simpl.
  - destruct Hin.
  - destruct (remap_system species_dict initial a) as [a' [e1|]] eqn:R; [simpl; eauto|].
    destruct Hin as [-> | Hin].
    + rewrite R in Hr. discriminate.
    + destruct (remap_systems species_dict initial rest) as [rest' e2]. simpl in *.
      auto.
Qed.

Lemma load_species_dict_built (rmg : RMG) (chemkin : list Species * list Reaction)
    (input_dir : string) (generate_images : bool) (fresh : nat) (fs : FileSystem) :
  let out := load_rmg_py_job rmg chemkin input_dir generate_images fresh fs in
  species_dict_built out
  = build_species_dict (initial_species rmg) (species_list_after out)
  /\ species_list_after out
     = fst (add_observed_all (reaction_systems rmg) (fst chemkin, fresh)).
Proof.
  unfold load_rmg_py_job.
  destruct (add_observed_all (reaction_systems rmg) (fst chemkin, fresh))
    as [species_list fresh'].
  destruct (complete_pairs (snd chemkin)) as [reaction_list calls].
  destruct (remap_systems _ _ _) as [systems' [e|]]; [simpl; auto|].
  destruct generate_images; [|simpl; auto].
  destruct (generate_species_images input_dir species_list fs) as [[fs' requests] e].
  simpl. auto.
Qed.

(** C2: when a reactor of the job refers, as a key of one of its mappings,
    as the species of a conversion criterion or as an entry of a sensitivity
    list other than [['all']], to a species without an entry in the identity
    map, the loader raises [KeyError]; the exception comes from the first
    reactor that cannot be remapped, which is that reactor or one before it,
    the reactors after it are left as they were, and neither the reaction
    model is set nor an image drawn. *)
Theorem unresolved_reference_fails
    (rmg : RMG) (chemkin : list Species * list Reaction)
    (input_dir : string) (generate_images : bool) (fresh : nat) (fs : FileSystem)
    (r : ReactionSystem) (spec : Species) :
  let out := load_rmg_py_job rmg chemkin input_dir generate_images fresh fs in
  let species_dict := species_dict_built out in
  In r (reaction_systems rmg) ->
  In spec (referenced_species r) ->
  PyDict.get Species_eqb species_dict spec = None ->
  exists k pre r0 post pre' r0',
    raised out = Some (KeyError k)
    /\ reaction_systems rmg = pre ++ r0 :: post
    /\ reaction_systems (rmg_after out) = pre' ++ r0' :: post
    /\ Forall2 (fun x x' => remap_system species_dict (initial_species rmg) x = (x', None))
         pre pre'
    /\ remap_system species_dict (initial_species rmg) r0 = (r0', Some (KeyError k))
    /\ In r (r0 :: post)
    /\ reaction_model (rmg_after out) = reaction_model rmg
    /\ drawn out = [].
Proof.
  unfold load_rmg_py_job.
  destruct (add_observed_all (reaction_systems rmg) (fst chemkin, fresh))
    as [species_list fresh'].
  destruct (complete_pairs (snd chemkin)) as [reaction_list calls].
  set (sd := build_species_dict (initial_species rmg) species_list).
  destruct (remap_systems sd (initial_species rmg) (reaction_systems rmg))
    as [systems' [e|]] eqn:Rs.
  - simpl. intros Hr Hspec Hget.
    destruct (remap_systems_Raise _ _ _ Rs)
      as (pre & r0 & post & pre' & r0' & H1 & H2 & H3 & H4).
    assert (Hk : exists k, e = KeyError k).
    { apply (remap_system_exn sd (initial_species rmg) r0). rewrite H4. reflexivity. }
    destruct Hk as [k ->].
    exists k, pre, r0, post, pre', r0'. repeat split; auto.
    rewrite H1 in Hr. apply in_app_or in Hr. destruct Hr as [Hr | Hr]; [|exact Hr].
    exfalso.
    destruct (@Forall2_In_left _ _ _ _ _ r H3 Hr) as (x' & _ & Hx).
    destruct (remap_system_fails sd (initial_species rmg) r spec Hspec Hget) as [k' Hk'].
    rewrite Hx in Hk'. discriminate.
  - cbv zeta. intros Hr Hspec Hget. exfalso.
    assert (Hsd : species_dict_built
                    (if generate_images
                     then let '(fs', requests, e) :=
                            generate_species_images input_dir species_list fs in
                          mkOutcome
                            (mkRMG (initial_species rmg) systems'
                               (mkModel species_list reaction_list))
                            species_list sd calls fs' requests e
                     else mkOutcome
                            (mkRMG (initial_species rmg) systems'
                               (mkModel species_list reaction_list))
                            species_list sd calls fs [] None) = sd).
    { destruct generate_images; [|reflexivity].
      destruct (generate_species_images input_dir species_list fs) as [[fs' requests] e].
      reflexivity. }
    rewrite Hsd in Hget.
    destruct (remap_system_fails sd (initial_species rmg) r spec Hspec Hget) as [k Hk].
    destruct (remap_systems_fails sd (initial_species rmg) (reaction_systems rmg) r Hr Hk)
      as [e' He'].
    rewrite Rs in He'. discriminate.
Qed.


(** C4 (amended): when a reactor is remapped without an exception and the
    keys of its mole-fraction mapping are bound to pairwise distinct Chemkin
    species, the remapped mapping holds the same values in the same order,
    hence the same multiset of values and the same sum, under the images of
    the keys. *)
Theorem mole_fractions_values_preserved
    (species_dict : SpeciesDict Species) (initial : list Species)
    (r r' : ReactionSystem) (m : SpeciesDict Quantity) :
  remap_system species_dict initial r = (r', None) ->
  mole_fractions (variant r) = Some m ->
  NoDup (map (PyDict.get Species_eqb species_dict) (PyDict.keys m)) ->
  exists m',
    mole_fractions (variant r') = Some m'
    /\ PyDict.values m' = PyDict.values m
    /\ map Some (PyDict.keys m')
       = map (PyDict.get Species_eqb species_dict) (PyDict.keys m)
    /\ Permutation (PyDict.values m) (PyDict.values m')
    /\ forall add zero,
         py_sum add zero (PyDict.values m') = py_sum add zero (PyDict.values m).
Proof.
  intros Hr Hm Hnd.
  apply remap_system_Ok in Hr. destruct Hr as (Hv & _ & _).
  destruct (remap_variant_mole_fractions _ _ _ Hv Hm) as (m' & Hm' & Hremap).
  exists m'. split; [exact Hm'|].
  unfold remap_mapping in Hremap.
  destruct (comprehension _ m) as [items|e] eqn:C; simpl in Hremap; [|discriminate].
  destruct (remap_mapping_items _ _ C) as [Hvals Hkeys].
  assert (Hitems : PyDict.of_items Species_eqb items = items).
  { apply (PyDictFacts.of_items_NoDup _ Species_eqb_spec).
    apply (NoDup_map_inv Some). rewrite Hkeys. exact Hnd. }
  rewrite Hitems in Hremap. inversion Hremap; subst m'.
  repeat split.
  - exact Hvals.
  - exact Hkeys.
  - rewrite Hvals. apply Permutation_refl.
  - intros add zero. rewrite Hvals. reflexivity.
Qed.

(** *** Species images *)

Lemma try_mkdir_swallows (fs : FileSystem) (path : string) :
  try_mkdir fs path = (fst (os_mkdir fs path), None).
Proof.
  unfold try_mkdir, os_mkdir.
  destruct (os_path_exists fs path); [reflexivity|].
  destruct (mkdir_fault fs); reflexivity.
Qed.

(** C7 (amended): every [OSError] that the creation of the image directory
    raises, "directory already exists" and any other failure alike, is caught
    and ignored: the loader goes on to the drawing loop on the unchanged file
    system, and what it returns or raises is what that loop returns or
    raises. *)
Theorem mkdir_failure_ignored
    (fs : FileSystem) (input_dir : string) (species_list : list Species) :
  let species_path := PyStr.os_path_join input_dir "species" in
  (os_path_exists fs species_path = true ->
   os_mkdir fs species_path = (fs, Some (OSError FileExistsError)))
  /\ (forall kind,
        os_path_exists fs species_path = false ->
        mkdir_fault fs = Some kind ->
        os_mkdir fs species_path = (fs, Some (OSError kind)))
  /\ (forall kind,
        snd (os_mkdir fs species_path) = Some (OSError kind) ->
        try_mkdir fs species_path = (fs, None)
        /\ generate_species_images input_dir species_list fs
           = draw_species species_path species_list fs)
  /\ (forall rmg chemkin fresh kind,
        let out := load_rmg_py_job rmg chemkin input_dir true fresh fs in
        snd (os_mkdir fs species_path) = Some (OSError kind) ->
        snd (remap_systems (species_dict_built out) (initial_species rmg)
               (reaction_systems rmg)) = None ->
        (fs_after out, drawn out, raised out)
        = draw_species species_path (species_list_after out) fs).
Proof.
  intro species_path.
  assert (Hswallow : forall l kind,
             snd (os_mkdir fs species_path) = Some (OSError kind) ->
             try_mkdir fs species_path = (fs, None)
             /\ generate_species_images input_dir l fs
                = draw_species species_path l fs).
  { intros l kind H.
    assert (Hfs : fst (os_mkdir fs species_path) = fs).
    { unfold os_mkdir in *. destruct (os_path_exists fs species_path); [reflexivity|].
      destruct (mkdir_fault fs); [reflexivity | discriminate]. }
    unfold generate_species_images. fold species_path.
    rewrite try_mkdir_swallows, Hfs. auto. }
  split; [|split; [|split]].
  - intro H. unfold os_mkdir. rewrite H. reflexivity.
  - intros kind H Hf. unfold os_mkdir. rewrite H, Hf. reflexivity.
  - apply Hswallow.
  - intros rmg chemkin fresh kind. cbv zeta.
    destruct (load_species_dict_built rmg chemkin input_dir true fresh fs) as [Hsd Hsl].
    cbv zeta in Hsd, Hsl. rewrite Hsd, Hsl. clear Hsd Hsl.
    unfold load_rmg_py_job.
    destruct (add_observed_all (reaction_systems rmg) (fst chemkin, fresh))
      as [sl fresh'].
    destruct (complete_pairs (snd chemkin)) as [reaction_list calls].
    simpl fst.
    destruct (remap_systems (build_species_dict (initial_species rmg) sl)
                (initial_species rmg) (reaction_systems rmg))
      as [systems' [e|]].
    + intros _ H. discriminate.
    + intros Hmk _.
      rewrite (proj2 (Hswallow sl kind Hmk)).
      destruct (draw_species species_path sl fs) as [[fs' requests] e].
      reflexivity.
Qed.

(** C8: the sensitivity list [['all']], and no other list, is kept without
    any lookup; every other list is replaced by the list of the images of its
    elements under the identity map, which exists exactly when every element
    is a species with an entry in the map. *)
Theorem sensitive_species_remap
    (species_dict : SpeciesDict Species) (l : list PyKey) :
  (is_all_sentinel l = true <-> l = [KeyStr "all"])
  /\ (l = [KeyStr "all"] -> remap_sensitive species_dict l = Ok l)
  /\ (l <> [KeyStr "all"] ->
      remap_sensitive species_dict l = comprehension (getitem_key species_dict) l
      /\ forall l', remap_sensitive species_dict l = Ok l'
                    <-> Forall2 (sensitive_image species_dict) l l')
  /\ (forall initial r r',
        sensitive_species r = l ->
        remap_system species_dict initial r = (r', None) ->
        if is_all_sentinel l then sensitive_species r' = l
        else Forall2 (sensitive_image species_dict) l (sensitive_species r')).
Proof.
  assert (Hne : l <> [KeyStr "all"] ->
                forall l', remap_sensitive species_dict l = Ok l'
                           <-> Forall2 (sensitive_image species_dict) l l').
  { intros H l'. unfold remap_sensitive.
    destruct (is_all_sentinel l) eqn:E.
    - apply is_all_sentinel_iff in E. contradiction.
    - rewrite comprehension_Ok. split; intro HF.
      + eapply Forall2_impl; [|exact HF]. intros a b. apply getitem_key_Ok.
      + eapply Forall2_impl; [|exact HF]. intros a b. apply getitem_key_Ok. }
  split; [apply is_all_sentinel_iff|]. split; [|split].
  - intros ->. reflexivity.
  - intro H. split; [|exact (Hne H)].
    unfold remap_sensitive. destruct (is_all_sentinel l) eqn:E; [|reflexivity].
    apply is_all_sentinel_iff in E. contradiction.
  - intros initial r r' Hl Hr.
    apply remap_system_Ok in Hr. destruct Hr as (_ & _ & Hs). rewrite Hl in Hs.
    destruct (is_all_sentinel l) eqn:E.
    + unfold remap_sensitive in Hs. rewrite E in Hs. inversion Hs. reflexivity.
    + apply Hne; [|exact Hs].
      intro Hall. apply is_all_sentinel_iff in Hall. congruence.
Qed.

(** C9: in every reactor a termination criterion other than a conversion
    criterion is the same after remapping, whether or not an exception ends
    the remapping; and when the reactor is remapped without an exception,
    every conversion criterion holds the image of its species under the
    identity map, with its conversion unchanged. *)
Theorem termination_remap_frame
    (species_dict : SpeciesDict Species) (initial : list Species) (r : ReactionSystem) :
  Forall2 (termination_visited species_dict)
    (termination r) (termination (fst (remap_system species_dict initial r)))
  /\ (snd (remap_system species_dict initial r) = None ->
      Forall2 (termination_remapped species_dict)
        (termination r) (termination (fst (remap_system species_dict initial r)))).
Proof.
  unfold remap_system.
  destruct (remap_variant species_dict initial (variant r)) as [v' [e1|]].
  - simpl. split; [apply termination_visited_refl | discriminate].
  - pose proof (remap_termination_visited species_dict (termination r)) as Hvis.
    pose proof (remap_termination_remapped species_dict (termination r)) as Hrem.
    destruct (remap_termination species_dict (termination r)) as [ts' [e2|]].
    + simpl in *. split; [exact Hvis | discriminate].
    + destruct (remap_sensitive species_dict (sensitive_species r)) as [sens'|e3];
        simpl in *.
      * split; [exact Hvis | intros _; apply Hrem; reflexivity].
      * split; [exact Hvis | discriminate].
Qed.


End LoaderFacts.

(** ** Further properties of the loaders *)

Module PyDictMore.
Section Facts.

Variables K V : Type.
Variable eqb : K -> K -> bool.
Hypothesis eqb_spec : forall a b, eqb a b = true <-> a = b.

Lemma set_NoDup (d : PyDict.dict K V) k v :
  NoDup (PyDict.keys d) -> NoDup (PyDict.keys (PyDict.set eqb d k v)).
Proof.
  unfold PyDict.keys.
  induction d as [|[k' v'] d IH]; simpl; intro H.
  - constructor; [intros [] | constructor].
  - inversion H as [|x l Hnot Hnd]; subst.
    destruct (eqb k' k) eqn:E; simpl.
    + constructor; assumption.
    + constructor; [|apply IH; exact Hnd].
      intro Hin.
      apply (PyDictFacts.keys_set eqb eqb_spec d k v k') in Hin.
      destruct Hin as [Hin | Heq]; [contradiction|].
      subst k'. rewrite (PyDictFacts.eqb_refl eqb eqb_spec) in E. discriminate.
Qed.

Lemma of_items_acc_NoDup (items d : PyDict.dict K V) :
  NoDup (PyDict.keys d) ->
  NoDup (PyDict.keys (fold_left (fun d kv => PyDict.set eqb d (fst kv) (snd kv)) items d)).
Proof.
  revert d. induction items as [|[k v] items IH]; intros d H; simpl.
  - exact H.
  - apply IH. apply set_NoDup. exact H.
Qed.

Lemma In_get (d : PyDict.dict K V) k v :
  NoDup (PyDict.keys d) -> In (k, v) d -> PyDict.get eqb d k = Some v.
Proof.
  unfold PyDict.keys, PyDict.get.
  induction d as [|[k' v'] d IH]; simpl; intros Hnd Hin.
  - destruct Hin.
  - inversion Hnd as [|x l Hnot Hnd']; subst.
    destruct Hin as [Heq | Hin].
    + inversion Heq; subst. rewrite (PyDictFacts.eqb_refl eqb eqb_spec). reflexivity.
    + destruct (eqb k' k) eqn:E.
      * apply eqb_spec in E. subst k'. exfalso. apply Hnot.
        apply in_map_iff. exists (k, v). auto.
      * apply IH; assumption.
Qed.

(** The value under a key after a run of assignments: the one assigned
    last, or the one that was there. *)
Lemma get_fold_set (items d : PyDict.dict K V) k :
  PyDict.get eqb (fold_left (fun d kv => PyDict.set eqb d (fst kv) (snd kv)) items d) k
  = fold_left (fun acc kv => if eqb (fst kv) k then Some (snd kv) else acc)
      items (PyDict.get eqb d k).
Proof.
  revert d. induction items as [|[k' v'] items IH]; intro d; simpl.
  - reflexivity.
  - rewrite IH. f_equal.
    destruct (eqb k' k) eqn:E.
    + apply eqb_spec in E. subst k'.
      apply (PyDictFacts.get_set_same eqb eqb_spec).
    + apply (PyDictFacts.get_set_other eqb eqb_spec).
      intro Heq. subst k'. rewrite (PyDictFacts.eqb_refl eqb eqb_spec) in E. discriminate.
Qed.

Lemma keys_fold_set (items d : PyDict.dict K V) k :
  In k (PyDict.keys (fold_left (fun d kv => PyDict.set eqb d (fst kv) (snd kv)) items d))
  <-> In k (PyDict.keys d) \/ In k (PyDict.keys items).
Proof.
  revert d. induction items as [|[k' v'] items IH]; intro d; simpl.
  - tauto.
  - rewrite IH, (PyDictFacts.keys_set eqb eqb_spec). intuition congruence.
Qed.

End Facts.
End PyDictMore.

Module PyStrMore.

Lemma append_inj_l (a b x : string) :
  String.append a x = String.append b x -> a = b.
Proof.
  revert b. induction a as [|c a IH]; intros [|c' b] H; simpl in H.
  - reflexivity.
  - exfalso. apply (f_equal String.length) in H. simpl in H.
    rewrite PyStrFacts.append_length in H. lia.
  - exfalso. apply (f_equal String.length) in H. simpl in H.
    rewrite PyStrFacts.append_length in H. lia.
  - inversion H; subst. f_equal. apply IH. assumption.
Qed.

Lemma ends_with_slash_species (a : string) :
  PyStr.ends_with_slash (String.append a "species") = false.
Proof.
  induction a as [|c a IH].
  - reflexivity.
  - simpl String.append.
    destruct (String.append a "species") as [|c' rest] eqn:E.
    + apply (f_equal String.length) in E.
      rewrite PyStrFacts.append_length in E. simpl in E. lia.
    + cbn [PyStr.ends_with_slash]. exact IH.
Qed.

Lemma ends_with_slash_append_slash_species (a : string) :
  PyStr.ends_with_slash (String.append a (String.append "/" "species")) = false.
Proof.
  induction a as [|c a IH].
  - reflexivity.
  - simpl String.append in *.
    destruct (String.append a (String "/" "species")) as [|c' rest] eqn:E.
    + apply (f_equal String.length) in E.
      rewrite PyStrFacts.append_length in E. simpl in E. lia.
    + cbn [PyStr.ends_with_slash]. exact IH.
Qed.

Lemma append_assoc (a b c : string) :
  String.append (String.append a b) c = String.append a (String.append b c).
Proof. induction a; simpl; congruence. Qed.

Lemma append_nonempty (a b : string) :
  b <> EmptyString -> String.append a b <> EmptyString.
Proof. destruct a; simpl; [auto | discriminate]. Qed.

End PyStrMore.

Section LoaderExtras.

Context {chem : Chemistry} {collab : Collaborators}.

Local Abbreviation sget := (PyDict.get Species_eqb).

(** *** The identity map *)

Lemma build_species_dict_NoDup (initial species_list : list Species) :
  NoDup (PyDict.keys (build_species_dict initial species_list)).
Proof.
  unfold build_species_dict.
  assert (H : forall d0 : SpeciesDict Species,
             NoDup (PyDict.keys d0) ->
             NoDup (PyDict.keys
                      (fold_left
                         (fun d spec0 =>
                            match first_isomorphic species_list spec0 with
                            | Some species => PyDict.set Species_eqb d spec0 species
                            | None => d
                            end) initial d0))).
  { induction initial as [|a rest IH]; intros d0 Hd0; simpl.
    - exact Hd0.
    - apply IH. destruct (first_isomorphic species_list a); [|exact Hd0].
      apply (PyDictMore.set_NoDup _ Species_eqb_spec). exact Hd0. }
  apply H. constructor.
Qed.

Lemma build_species_dict_entries (initial species_list : list Species) (spec0 c : Species) :
  In (spec0, c) (build_species_dict initial species_list) ->
  In spec0 initial /\ In c species_list /\ is_isomorphic c spec0 = true.
Proof.
  intro Hin.
  apply (PyDictMore.In_get _ Species_eqb_spec _ _ _
           (build_species_dict_NoDup initial species_list)) in Hin.
  rewrite build_species_dict_get in Hin.
  destruct (in_dec Species_eq_dec spec0 initial) as [Hi | Hi]; [|discriminate].
  split; [exact Hi|].
  apply first_isomorphic_split in Hin. destruct Hin as (pre & post & -> & Hiso & _).
  split; [|exact Hiso]. apply in_or_app. right. left. reflexivity.
Qed.

(** X1: the identity map holds each key once; every entry binds a species
    of the initial species list to a species of the Chemkin list that is
    isomorphic to it; and a species outside the initial list has no entry. *)
Theorem species_dict_sound (initial species_list : list Species) :
  let species_dict := build_species_dict initial species_list in
  NoDup (PyDict.keys species_dict)
  /\ (forall spec0 c, In (spec0, c) species_dict ->
        In spec0 initial /\ In c species_list /\ is_isomorphic c spec0 = true)
  /\ (forall c, In c (PyDict.values species_dict) -> In c species_list)
  /\ (forall spec0, ~ In spec0 initial -> sget species_dict spec0 = None).
Proof.
  intro species_dict.
  assert (Hnd : NoDup (PyDict.keys species_dict)) by apply build_species_dict_NoDup.
  assert (Hentry : forall spec0 c, In (spec0, c) species_dict ->
             In spec0 initial /\ In c species_list /\ is_isomorphic c spec0 = true)
    by (intros spec0 c; apply build_species_dict_entries).
  split; [exact Hnd|]. split; [exact Hentry|]. split.
  - intros c Hc. unfold PyDict.values in Hc. apply in_map_iff in Hc.
    destruct Hc as ([spec0 c'] & Heq & Hin). simpl in Heq. subst c'.
    apply (Hentry spec0 c Hin).
  - intros spec0 Hnot. unfold species_dict. rewrite build_species_dict_get.
    destruct (in_dec Species_eq_dec spec0 initial); [contradiction | reflexivity].
Qed.

(** X2: when exactly one species of the Chemkin list is isomorphic to an
    initial species, the identity map binds the initial species to it
    wherever it stands in the list: the binding is the same for every
    reordering of the list. *)
Theorem unique_match_any_order
    (initial species_list species_list' : list Species) (spec0 c : Species) :
  In spec0 initial ->
  Permutation species_list species_list' ->
  In c species_list ->
  is_isomorphic c spec0 = true ->
  (forall x, In x species_list -> is_isomorphic x spec0 = true -> x = c) ->
  sget (build_species_dict initial species_list) spec0 = Some c
  /\ sget (build_species_dict initial species_list') spec0 = Some c.
Proof.
  intros Hinit Hperm Hc Hiso Huniq.
  assert (H : forall l, In c l ->
             (forall x, In x l -> is_isomorphic x spec0 = true -> x = c) ->
             sget (build_species_dict initial l) spec0 = Some c).
  { intros l Hcl Hu. rewrite build_species_dict_get.
    destruct (in_dec Species_eq_dec spec0 initial); [|contradiction].
    unfold first_isomorphic.
    destruct (find (fun species => is_isomorphic species spec0) l) as [y|] eqn:F.
    - apply find_some in F. destruct F as [Hy Hyiso]. f_equal. apply Hu; assumption.
    - rewrite (find_none _ _ F c Hcl) in Hiso. discriminate. }
  split.
  - apply H; assumption.
  - apply H.
    + apply (Permutation_in _ Hperm). exact Hc.
    + intros x Hx. apply Huniq. apply (Permutation_in _ (Permutation_sym Hperm)). exact Hx.
Qed.


(** *** Observed species over all reactors *)

Lemma labels_numbered_copies (cand : list Species) (fresh : nat) :
  map label (map (fun p => observed_copy (fst p) (snd p))
               (combine (seq fresh (List.length cand)) cand))
  = map obs_label cand.
Proof.
  revert fresh. induction cand as [|s cand IH]; intro fresh; simpl.
  - reflexivity.
  - rewrite IH. reflexivity.
Qed.

Lemma NoDup_labels_filter (f : Species -> bool) (l : list Species) :
  NoDup (map label l) -> NoDup (map label (filter f l)).
Proof.
  induction l as [|s l IH]; simpl; intro H.
  - constructor.
  - inversion H as [|x xs Hnot Hnd]; subst.
    destruct (f s); simpl; [|auto].
    constructor; [|auto].
    intro Hin. apply Hnot. apply in_map_iff in Hin.
    destruct Hin as (x & Hx & Hin). apply filter_In in Hin.
    apply in_map_iff. exists x. tauto.
Qed.

Lemma NoDup_obs_labels (l : list Species) :
  NoDup (map label l) -> NoDup (map obs_label l).
Proof.
  induction l as [|s l IH]; simpl; intro H.
  - constructor.
  - inversion H as [|x xs Hnot Hnd]; subst.
    constructor; [|auto].
    intro Hin. apply Hnot. apply in_map_iff in Hin.
    destruct Hin as (x & Hx & Hin). unfold obs_label in Hx.
    apply PyStrMore.append_inj_l in Hx.
    apply in_map_iff. exists x. auto.
Qed.

(** What one pass adds: copies of species of the list that have no "_obs"
    in their label, under labels that are new and pairwise distinct when the
    labels of the list are. *)
Lemma add_observed_pass (r : ReactionSystem) (species_list : list Species) (fresh : nat) :
  exists obs,
    fst (add_observed r (species_list, fresh)) = species_list ++ obs
    /\ (forall o, In o obs ->
          exists i s, In s species_list
                      /\ PyStr.contains "_obs" (label s) = false
                      /\ o = observed_copy i s)
    /\ (NoDup (map label species_list) -> NoDup (map label (species_list ++ obs)))
    /\ (is_sampled r = false -> obs = []).
Proof.
  unfold add_observed, is_sampled.
  destruct (variant r) as [n c | g c | f | f constants]; simpl fst; simpl snd.
  1-3: exists []; rewrite app_nil_r; repeat split; auto; intros o [].
  rewrite observed_species_eq. simpl fst.
  set (cand := filter (needs_observed constants species_list) species_list).
  eexists. split; [reflexivity|]. split; [|split].
  - intros o Ho. apply In_numbered_copies in Ho. destruct Ho as (i & s & Hs & ->).
    unfold cand in Hs. apply filter_In in Hs. destruct Hs as [Hin Hneeds].
    apply needs_observed_iff in Hneeds. destruct Hneeds as (_ & Hc & _).
    exists i, s. auto.
  - intro Hnd. rewrite map_app, labels_numbered_copies.
    apply NoDup_app.
    + exact Hnd.
    + apply NoDup_obs_labels. unfold cand. apply NoDup_labels_filter. exact Hnd.
    + intros a Ha Hobs. apply in_map_iff in Hobs. destruct Hobs as (s & Hs & Hin).
      unfold cand in Hin. apply filter_In in Hin. destruct Hin as [_ Hneeds].
      apply needs_observed_iff in Hneeds. destruct Hneeds as (_ & _ & _ & Hl).
      apply in_map_iff in Ha. destruct Ha as (s2 & Hs2 & Hin2).
      apply (Hl s2 Hin2). unfold obs_label, obs_suffix in Hs. congruence.
  - discriminate.
Qed.

Lemma add_observed_snd_fst (r : ReactionSystem) (st : list Species * nat) :
  add_observed r st = add_observed r (fst st, snd st).
Proof. destruct st; reflexivity. Qed.

(** The same over the loop on the reactors: the species added are copies of
    species of the list the loop starts from. *)
Lemma add_observed_all_copies (systems : list ReactionSystem)
    (species_list : list Species) (fresh : nat) :
  exists obs,
    fst (add_observed_all systems (species_list, fresh)) = species_list ++ obs
    /\ (forall o, In o obs ->
          exists i s, In s species_list
                      /\ PyStr.contains "_obs" (label s) = false
                      /\ o = observed_copy i s)
    /\ (NoDup (map label species_list) -> NoDup (map label (species_list ++ obs)))
    /\ (forallb (fun r => negb (is_sampled r)) systems = true -> obs = []).
Proof.
  unfold add_observed_all.
  assert (H : forall (l0 : list Species) systems obs0 fresh,
             (forall o, In o obs0 ->
                exists i s, In s l0 /\ PyStr.contains "_obs" (label s) = false
                            /\ o = observed_copy i s) ->
             exists obs,
               fst (fold_left (fun st r => add_observed r st) systems (l0 ++ obs0, fresh))
               = l0 ++ obs0 ++ obs
               /\ (forall o, In o (obs0 ++ obs) ->
                     exists i s, In s l0 /\ PyStr.contains "_obs" (label s) = false
                                 /\ o = observed_copy i s)
               /\ (NoDup (map label (l0 ++ obs0)) ->
                   NoDup (map label (l0 ++ obs0 ++ obs)))
               /\ (forallb (fun r => negb (is_sampled r)) systems = true -> obs = [])).
  { clear systems species_list fresh.
    intros l0 systems. induction systems as [|r rest IH]; intros obs0 fresh Hobs0; simpl.
    - exists []. rewrite !app_nil_r. auto.
    - destruct (add_observed_pass r (l0 ++ obs0) fresh) as (obs1 & H1 & Hc1 & Hn1 & He1).
      destruct (add_observed r (l0 ++ obs0, fresh)) as [l1 fresh1] eqn:E.
      simpl in H1. subst l1.
      assert (Hobs01 : forall o, In o (obs0 ++ obs1) ->
                exists i s, In s l0 /\ PyStr.contains "_obs" (label s) = false
                            /\ o = observed_copy i s).
      { intros o Ho. apply in_app_or in Ho. destruct Ho as [Ho | Ho]; [auto|].
        destruct (Hc1 o Ho) as (i & s & Hs & Hlab & ->).
        exists i, s. split; [|auto].
        apply in_app_or in Hs. destruct Hs as [Hs | Hs]; [exact Hs|].
        exfalso. destruct (Hobs0 s Hs) as (j & s0 & _ & _ & ->).
        simpl in Hlab. unfold obs_label, obs_suffix in Hlab.
        rewrite PyStrFacts.contains_suffix in Hlab. discriminate. }
      rewrite <- (app_assoc l0 obs0 obs1).
      destruct (IH (obs0 ++ obs1) fresh1 Hobs01) as (obs2 & H2 & Hc2 & Hn2 & He2).
      exists (obs1 ++ obs2). split; [|split; [|split]].
      + rewrite H2, <- app_assoc. reflexivity.
      + rewrite app_assoc. exact Hc2.
      + intro Hnd.
        replace (l0 ++ obs0 ++ obs1 ++ obs2) with (l0 ++ (obs0 ++ obs1) ++ obs2)
          by (rewrite <- app_assoc; reflexivity).
        apply Hn2. rewrite (app_assoc l0 obs0 obs1). apply Hn1. exact Hnd.
      + intro Hall. apply andb_true_iff in Hall. destruct Hall as [Hr Hrest].
        rewrite (He2 Hrest), He1; [reflexivity|].
        destruct (is_sampled r); [discriminate | reflexivity]. }
  destruct (H species_list systems [] fresh) as (obs & H1 & H2 & H3 & H4).
  { intros o []. }
  rewrite app_nil_r in *. simpl in *.
  exists obs. auto.
Qed.

(** X4: when the labels of the Chemkin species are pairwise distinct, they
    still are after the observed species of all the reactors are added. *)
Theorem observed_labels_unique (systems : list ReactionSystem)
    (species_list : list Species) (fresh : nat) :
  NoDup (map label species_list) ->
  NoDup (map label (fst (add_observed_all systems (species_list, fresh)))).
Proof.
  intro Hnd.
  destruct (add_observed_all_copies systems species_list fresh) as (obs & -> & _ & H & _).
  apply H. exact Hnd.
Qed.

(** X5: over the whole loop on the reactors the species list only grows at
    its end; every species added is a copy (same structure and reactivity,
    label followed by "_obs") of a species of the Chemkin list itself, never
    of a copy; a job without a sampled reactor leaves the list as it is; and
    when the labels of the list are pairwise distinct the list at most
    doubles. *)
Theorem observed_species_bounded (systems : list ReactionSystem)
    (species_list : list Species) (fresh : nat) :
  let result := fst (add_observed_all systems (species_list, fresh)) in
  firstn (List.length species_list) result = species_list
  /\ (forall o, In o (skipn (List.length species_list) result) ->
        exists s, In s species_list
                  /\ PyStr.contains "_obs" (label s) = false
                  /\ label o = String.append (label s) "_obs"
                  /\ reactive o = reactive s
                  /\ molecule o = molecule s)
  /\ (forallb (fun r => negb (is_sampled r)) systems = true -> result = species_list)
  /\ (NoDup (map label species_list) ->
      List.length result <= 2 * List.length species_list).
Proof.
  intro result. unfold result.
  destruct (add_observed_all_copies systems species_list fresh)
    as (obs & -> & Hcopies & Hnd & Hnone).
  rewrite firstn_length_app, skipn_length_app.
  split; [reflexivity|]. split; [|split].
  - intros o Ho. destruct (Hcopies o Ho) as (i & s & Hs & Hlab & ->).
    exists s. simpl. auto.
  - intro H. rewrite (Hnone H), app_nil_r. reflexivity.
  - intro H. specialize (Hnd H). rewrite map_app in Hnd.
    assert (Hobs : NoDup (map label obs)) by (apply NoDup_app_remove_l in Hnd; exact Hnd).
    assert (Hincl : incl (map label obs) (map obs_label species_list)).
    { intros x Hx. apply in_map_iff in Hx. destruct Hx as (o & <- & Ho).
      destruct (Hcopies o Ho) as (i & s & Hs & _ & ->).
      apply in_map_iff. exists s. auto. }
    pose proof (NoDup_incl_length Hobs Hincl) as Hlen.
    rewrite !length_map in Hlen. rewrite length_app. lia.
Qed.

Lemma find_app_first {A} (f : A -> bool) (l1 l2 : list A) :
  find f (l1 ++ l2) = match find f l1 with
                      | Some x => Some x
                      | None => find f l2
                      end.
Proof.
  induction l1 as [|a l1 IH]; simpl; [reflexivity|].
  destruct (f a); [reflexivity | exact IH].
Qed.

Lemma fold_left_pointwise {A B} (f g : A -> B -> A) (l : list B) (a : A) :
  (forall x y, f x y = g x y) -> fold_left f l a = fold_left g l a.
Proof.
  intro H. revert a. induction l as [|b l IH]; intro a; simpl; [reflexivity|].
  rewrite H. apply IH.
Qed.

(** X3: when the isomorphism check looks at structures only, the observed
    species added for the sampled reactors do not change the identity map:
    it is the map built from the Chemkin species alone. *)
Theorem observed_species_keep_identity_map (systems : list ReactionSystem)
    (initial species_list : list Species) (fresh : nat) :
  isomorphism_by_structure ->
  build_species_dict initial (fst (add_observed_all systems (species_list, fresh)))
  = build_species_dict initial species_list.
Proof.
  intro Hstruct.
  destruct (add_observed_all_copies systems species_list fresh) as (obs & -> & Hcopies & _).
  unfold build_species_dict. apply fold_left_pointwise.
  intros d spec0.
  assert (Hfirst : first_isomorphic (species_list ++ obs) spec0
                   = first_isomorphic species_list spec0).
  { unfold first_isomorphic. rewrite find_app_first.
    destruct (find (fun species => is_isomorphic species spec0) species_list) eqn:F;
      [reflexivity|].
    destruct (find (fun species => is_isomorphic species spec0) obs) as [o|] eqn:Fo;
      [|reflexivity].
    exfalso. apply find_some in Fo. destruct Fo as [Ho Hiso].
    destruct (Hcopies o Ho) as (i & s & Hs & _ & ->).
    rewrite (Hstruct (observed_copy i s) s spec0 eq_refl) in Hiso.
    rewrite (find_none _ _ F s Hs) in Hiso. discriminate. }
  rewrite Hfirst. reflexivity.
Qed.


Lemma get_In_values (species_dict : SpeciesDict Species) (k c : Species) :
  sget species_dict k = Some c -> In c (PyDict.values species_dict).
Proof.
  intro H. apply (PyDictFacts.get_In _ Species_eqb_spec) in H.
  unfold PyDict.values. apply in_map_iff. exists (k, c). auto.
Qed.

(** *** Mappings *)

Lemma remap_items_Forall2 (species_dict : SpeciesDict Species)
    (mapping items : SpeciesDict Quantity) :
  comprehension
    (fun item => bind (getitem species_dict (fst item))
                   (fun species => Ok (species, snd item))) mapping = Ok items
  <-> Forall2 (fun kv item => sget species_dict (fst kv) = Some (fst item)
                              /\ snd item = snd kv) mapping items.
Proof.
  rewrite comprehension_Ok. split; intro H.
  - eapply Forall2_impl; [|exact H]. intros [k x] [c y]. simpl.
    destruct (getitem species_dict k) as [c'|e] eqn:G; simpl; [|discriminate].
    intro Heq. inversion Heq; subst. apply getitem_Ok in G. auto.
  - eapply Forall2_impl; [|exact H]. intros [k x] [c y]. simpl.
    intros [Hg ->]. apply getitem_Ok in Hg. rewrite Hg. reflexivity.
Qed.

Lemma remap_mapping_Ok_iff (species_dict : SpeciesDict Species)
    (mapping : SpeciesDict Quantity) :
  (exists m', remap_mapping species_dict mapping = Ok m')
  <-> forall k, In k (PyDict.keys mapping) -> sget species_dict k <> None.
Proof.
  split.
  - intros [m' Hm'] k Hk Hnone.
    destruct (remap_mapping_fails species_dict mapping k Hk Hnone) as [e He].
    congruence.
  - intro H. unfold remap_mapping.
    destruct (comprehension_succeeds
                (fun item => bind (getitem species_dict (fst item))
                               (fun species => Ok (species, snd item))) mapping)
      as [items Hitems].
    + intros [k x] Hin. simpl.
      destruct (sget species_dict k) as [c|] eqn:G.
      * exists (c, x). unfold getitem. rewrite G. reflexivity.
      * exfalso. apply (H k); [|exact G].
        unfold PyDict.keys. apply in_map_iff. exists (k, x). auto.
    + rewrite Hitems. simpl. eauto.
Qed.

Lemma length_set {K V} (eqb : K -> K -> bool) (d : PyDict.dict K V) k v :
  List.length (PyDict.set eqb d k v) <= S (List.length d).
Proof.
  induction d as [|[k' v'] d IH]; simpl; [lia|].
  destruct (eqb k' k); simpl; lia.
Qed.

Lemma length_fold_set {K V} (eqb : K -> K -> bool) (items d : PyDict.dict K V) :
  List.length (fold_left (fun d kv => PyDict.set eqb d (fst kv) (snd kv)) items d)
  <= List.length d + List.length items.
Proof.
  revert d. induction items as [|[k v] items IH]; intro d; simpl; [lia|].
  specialize (IH (PyDict.set eqb d k v)).
  pose proof (length_set eqb d k v). lia.
Qed.

(** X6: a mapping is remapped without an exception exactly when each of its
    keys has an entry in the identity map.  The new mapping then holds each
    key once; its keys are the Chemkin species that the old keys are bound
    to; under each of them it holds the value of the last item bound to it;
    and it is not longer than the old mapping. *)
Theorem remap_mapping_last_wins (species_dict : SpeciesDict Species)
    (mapping : SpeciesDict Quantity) :
  ((exists m', remap_mapping species_dict mapping = Ok m')
   <-> forall k, In k (PyDict.keys mapping) -> sget species_dict k <> None)
  /\ forall m', remap_mapping species_dict mapping = Ok m' ->
       NoDup (PyDict.keys m')
       /\ (forall c, In c (PyDict.keys m')
                     <-> exists k, In k (PyDict.keys mapping)
                                   /\ sget species_dict k = Some c)
       /\ (forall c, PyDict.get Species_eqb m' c = last_bound species_dict mapping c)
       /\ List.length m' <= List.length mapping.
Proof.
  split; [apply remap_mapping_Ok_iff|].
  intros m' Hm'. unfold remap_mapping in Hm'.
  destruct (comprehension _ mapping) as [items|e] eqn:C; simpl in Hm'; [|discriminate].
  inversion Hm'; subst m'. clear Hm'.
  apply remap_items_Forall2 in C.
  unfold PyDict.of_items.
  split; [|split; [|split]].
  - apply (PyDictMore.of_items_acc_NoDup _ Species_eqb_spec). constructor.
  - intro c. rewrite (PyDictMore.keys_fold_set _ Species_eqb_spec). simpl.
    unfold PyDict.keys. clear -C. induction C as [|[k x] [c' y] l l' [Hg Hy] HF IH]; simpl.
    + split; [intros [[] | []] | intros (k & [] & _)].
    + simpl in Hg, Hy. split.
      * intros [[] | [Hc | Hin]].
        -- subst c'. exists k. auto.
        -- destruct IH as [IH _]. destruct (IH (or_intror Hin)) as (k0 & Hk0 & Hg0).
           exists k0. auto.
      * intros (k0 & [Hk0 | Hk0] & Hg0).
        -- subst k0. right. left. congruence.
        -- destruct IH as [_ IH]. destruct (IH (ex_intro _ k0 (conj Hk0 Hg0))) as [[] | Hin].
           right. right. exact Hin.
  - intro c. rewrite (PyDictMore.get_fold_set _ Species_eqb_spec). simpl.
    unfold last_bound.
    change (PyDict.get Species_eqb [] c) with (@None Quantity).
    generalize (@None Quantity).
    clear -C. induction C as [|[k x] [c' y] l l' [Hg Hy] HF IH]; intro acc; simpl.
    + reflexivity.
    + simpl in Hg, Hy. rewrite Hg. subst y. apply IH.
  - pose proof (length_fold_set Species_eqb items []) as Hlen. simpl in Hlen.
    rewrite (Forall2_length C). exact Hlen.
Qed.


(** *** When a reactor is remapped *)

Lemma remap_termination_Ok_iff (species_dict : SpeciesDict Species)
    (ts : list TerminationCriterion) :
  snd (remap_termination species_dict ts) = None
  <-> forall s, In s (termination_species ts) -> sget species_dict s <> None.
Proof.
  split.
  - intros H s Hs Hnone.
    destruct (remap_termination_fails species_dict ts s Hs Hnone) as [k Hk].
    congruence.
  - induction ts as [|t ts IH]; simpl; intro H; [reflexivity|].
    destruct t as [time | species conversion | ratio]; simpl in H.
    + destruct (remap_termination species_dict ts) as [rest' e]. simpl in *. auto.
    + destruct (getitem species_dict species) as [c|e] eqn:G.
      * destruct (remap_termination species_dict ts) as [rest' e']. simpl in *.
        apply IH. intros s Hs. apply H. right. exact Hs.
      * exfalso. apply getitem_Raise in G. destruct G as [G _].
        apply (H species); [left; reflexivity | exact G].
    + destruct (remap_termination species_dict ts) as [rest' e]. simpl in *. auto.
Qed.

Lemma remap_sensitive_Ok_iff (species_dict : SpeciesDict Species) (l : list PyKey) :
  (exists l', remap_sensitive species_dict l = Ok l')
  <-> species_only l
      /\ forall s, In s (sensitive_refs l) -> sget species_dict s <> None.
Proof.
  unfold remap_sensitive, species_only, sensitive_refs.
  destruct (is_all_sentinel l) eqn:E.
  - split; [|eauto]. intros _. split; [auto | intros s []].
  - split.
    + intros [l' Hl']. apply comprehension_Ok in Hl'. split.
      * right. intros k Hk.
        destruct (@Forall2_In_left _ _ _ _ _ _ Hl' Hk) as (k' & _ & Hf).
        apply getitem_key_Ok in Hf. destruct Hf as (s & c & -> & _). eauto.
      * intros s Hs Hnone. apply in_flat_map in Hs. destruct Hs as (k & Hk & Hs).
        destruct k as [s0|s0]; simpl in Hs; [|destruct Hs].
        destruct Hs as [-> | []].
        destruct (@Forall2_In_left _ _ _ _ _ _ Hl' Hk) as (k' & _ & Hf).
        apply getitem_key_Ok in Hf. destruct Hf as (s' & c & Heq & Hg & _).
        inversion Heq; subst. congruence.
    + intros [[Habs | Hspecies] Hbound]; [discriminate|].
      apply comprehension_succeeds. intros k Hk.
      destruct (Hspecies k Hk) as [s ->].
      destruct (sget species_dict s) as [c|] eqn:G.
      * exists (KeySpecies c). simpl. unfold getitem. rewrite G. reflexivity.
      * exfalso. apply (Hbound s); [|exact G].
        apply in_flat_map. exists (KeySpecies s). simpl. auto.
Qed.

Lemma remap_const_spc_names_Ok_iff (species_dict : SpeciesDict Species)
    (initial : list Species) (names : option (list string))
    (conc : SpeciesDict Quantity) :
  (exists res, remap_const_spc_names species_dict initial names = Ok res)
  <-> names_resolve species_dict initial (LiquidReactor names conc).
Proof.
  unfold names_resolve.
  destruct names as [[|name names]|].
  1, 3: split; [intros _; exact I | intros _; simpl; eauto].
  rewrite remap_const_spc_names_nonempty.
  remember (name :: names) as l eqn:Hl. clear Hl. split.
  - intros [res Hres].
    destruct (build_const_species_dict species_dict initial l []) as [d|e] eqn:B;
      simpl in Hres; [|discriminate].
    destruct (comprehension (getitem_str d) l) as [l'|e] eqn:C; simpl in Hres;
      [|discriminate].
    apply comprehension_Ok in C. split.
    + intros n Hn. destruct (@Forall2_In_left _ _ _ _ _ _ C Hn) as (n' & _ & Hf).
      unfold getitem_str in Hf.
      destruct (PyDict.get String.eqb d n) as [v|] eqn:G; [|discriminate].
      apply (PyDictFacts.get_In _ string_eqb_spec) in G.
      destruct (build_const_species_dict_entries _ _ _ _ B _ _ G)
        as [[] | (spec0 & c & Hs & Hlab & _)].
      exists spec0. auto.
    + intros spec0 Hs Hname Hnone.
      destruct (build_const_species_dict_fails species_dict initial l [] spec0
                  Hs Hname Hnone) as [k Hk].
      congruence.
  - intros [Hlabels Hbound].
    destruct (build_const_species_dict_succeeds species_dict initial l [] Hbound)
      as (d & Hd & _ & Hkeys).
    rewrite Hd. simpl.
    destruct (comprehension_succeeds (getitem_str d) l) as [names' Hn'].
    { intros n Hn. destruct (Hlabels n Hn) as (spec0 & Hs & Hlab).
      assert (Hk : In n (PyDict.keys d)).
      { rewrite <- Hlab. apply Hkeys; [exact Hs | rewrite Hlab; exact Hn]. }
      destruct (PyDictFacts.get_Some_keys _ string_eqb_spec d n Hk) as [v Hv].
      exists v. unfold getitem_str. rewrite Hv. reflexivity. }
    rewrite Hn'. simpl. eauto.
Qed.

Lemma remap_variant_Ok_iff (species_dict : SpeciesDict Species)
    (initial : list Species) (v : ReactorVariant) :
  snd (remap_variant species_dict initial v) = None
  <-> names_resolve species_dict initial v
      /\ forall s, In s (mapping_species v) -> sget species_dict s <> None.
Proof.
  destruct v as [names conc | gas cov | fracs | fracs constants].
  - pose proof (remap_const_spc_names_Ok_iff species_dict initial names conc) as Hn.
    pose proof (remap_mapping_Ok_iff species_dict conc) as Hm.
    unfold remap_variant. simpl mapping_species.
    destruct (remap_const_spc_names species_dict initial names) as [names'|e1].
    + destruct (remap_mapping species_dict conc) as [conc'|e2]; simpl.
      * split; [|reflexivity]. intros _. split; [apply Hn; eauto | apply Hm; eauto].
      * split; [discriminate|]. intros [_ H]. apply Hm in H. destruct H; discriminate.
    + simpl. split; [discriminate|]. intros [H _]. apply Hn in H. destruct H; discriminate.
  - pose proof (remap_mapping_Ok_iff species_dict gas) as Hg.
    pose proof (remap_mapping_Ok_iff species_dict cov) as Hc.
    unfold remap_variant. simpl mapping_species. simpl names_resolve.
    destruct (remap_mapping species_dict gas) as [gas'|e1].
    + destruct (remap_mapping species_dict cov) as [cov'|e2]; simpl.
      * split; [|reflexivity]. intros _. split; [exact I|].
        intros s Hs. apply in_app_or in Hs. destruct Hs as [Hs | Hs].
        -- apply Hg; eauto.
        -- apply Hc; eauto.
      * split; [discriminate|]. intros [_ H].
        assert (Hex : exists m', @Raise chem (SpeciesDict Quantity) e2 = Ok m').
        { apply Hc. intros s Hs. apply H. apply in_or_app. right. exact Hs. }
        destruct Hex; discriminate.
    + simpl. split; [discriminate|]. intros [_ H].
      assert (Hex : exists m', @Raise chem (SpeciesDict Quantity) e1 = Ok m').
      { apply Hg. intros s Hs. apply H. apply in_or_app. left. exact Hs. }
      destruct Hex; discriminate.
  - pose proof (remap_mapping_Ok_iff species_dict fracs) as Hm.
    unfold remap_variant. simpl mapping_species. simpl names_resolve.
    destruct (remap_mapping species_dict fracs) as [fracs'|e1]; simpl.
    + split; [|reflexivity]. intros _. split; [exact I | apply Hm; eauto].
    + split; [discriminate|]. intros [_ H]. apply Hm in H. destruct H; discriminate.
  - pose proof (remap_mapping_Ok_iff species_dict fracs) as Hm.
    unfold remap_variant. simpl mapping_species. simpl names_resolve.
    destruct (remap_mapping species_dict fracs) as [fracs'|e1]; simpl.
    + split; [|reflexivity]. intros _. split; [exact I | apply Hm; eauto].
    + split; [discriminate|]. intros [_ H]. apply Hm in H. destruct H; discriminate.
Qed.

(** X7: a reactor is remapped without an exception exactly when every
    species it refers to has an entry in the identity map, its sensitivity
    list is [['all']] or holds species only, and, for a liquid reactor with
    constant species names, every name is the label of an initial species and
    every initial species so named has an entry in the map. *)
Theorem remap_system_succeeds_iff (species_dict : SpeciesDict Species)
    (initial : list Species) (r : ReactionSystem) :
  snd (remap_system species_dict initial r) = None
  <-> (forall s, In s (referenced_species r) -> sget species_dict s <> None)
      /\ species_only (sensitive_species r)
      /\ names_resolve species_dict initial (variant r).
Proof.
  pose proof (remap_variant_Ok_iff species_dict initial (variant r)) as Hv.
  pose proof (remap_termination_Ok_iff species_dict (termination r)) as Ht.
  pose proof (remap_sensitive_Ok_iff species_dict (sensitive_species r)) as Hs.
  unfold remap_system, referenced_species.
  destruct (remap_variant species_dict initial (variant r)) as [v' [e1|]]; simpl in Hv.
  - simpl. split; [discriminate|]. intros (Href & _ & Hn).
    assert (H : Some e1 = None); [|discriminate].
    apply Hv. split; [exact Hn|]. intros s Hin. apply Href. apply in_or_app. auto.
  - destruct (remap_termination species_dict (termination r)) as [ts' [e2|]];
      simpl in Ht.
    + simpl. split; [discriminate|]. intros (Href & _ & _).
      assert (H : Some e2 = None); [|discriminate].
      apply Ht. intros s Hin. apply Href.
      apply in_or_app. right. apply in_or_app. auto.
    + destruct (remap_sensitive species_dict (sensitive_species r)) as [sens'|e3]; simpl.
      * split; [|reflexivity]. intros _.
        destruct Hv as [Hv _]. destruct (Hv eq_refl) as [Hn Hmap].
        destruct Ht as [Ht _]. specialize (Ht eq_refl).
        destruct Hs as [Hs _]. destruct Hs as [Honly Hsens]; [eauto|].
        split; [|auto].
        intros s Hin. apply in_app_or in Hin. destruct Hin as [Hin | Hin]; [auto|].
        apply in_app_or in Hin. destruct Hin as [Hin | Hin]; auto.
      * split; [discriminate|]. intros (Href & Honly & _).
        assert (H : exists l', @Raise chem (list PyKey) e3 = Ok l').
        { apply Hs. split; [exact Honly|]. intros s Hin. apply Href.
          apply in_or_app. right. apply in_or_app. auto. }
        destruct H; discriminate.
Qed.

(** X8: after a reactor is remapped without an exception, every species it
    refers to (the keys of its mappings, the species of its conversion
    criteria, the entries of its sensitivity list) is a value of the identity
    map, and every constant species name that was rewritten is the label of
    a value of the map. *)
Theorem remapped_references_are_values (species_dict : SpeciesDict Species)
    (initial : list Species) (r r' : ReactionSystem) :
  remap_system species_dict initial r = (r', None) ->
  (forall s, In s (referenced_species r') -> In s (PyDict.values species_dict))
  /\ (constant_names (variant r) <> [] ->
      forall n, In n (constant_names (variant r')) ->
                exists c, In c (PyDict.values species_dict) /\ n = label c).
Proof.
  intro H. apply remap_system_Ok in H. destruct H as (Hv & Ht & Hs).
  assert (Hmap : forall m m', remap_mapping species_dict m = Ok m' ->
            forall s, In s (PyDict.keys m') -> In s (PyDict.values species_dict)).
  { intros m m' Hm s Hin. unfold remap_mapping in Hm.
    destruct (comprehension _ m) as [items|e] eqn:C; simpl in Hm; [|discriminate].
    inversion Hm; subst m'. unfold PyDict.of_items in Hin.
    apply (PyDictMore.keys_fold_set _ Species_eqb_spec) in Hin.
    destruct Hin as [[] | Hin].
    apply remap_items_Forall2 in C.
    unfold PyDict.keys in Hin. apply in_map_iff in Hin.
    destruct Hin as ([c y] & Hc & Hin). simpl in Hc. subst c.
    clear -C Hin. induction C as [|[k x] [c' y'] l l' [Hg _] HF IH]; [destruct Hin|].
    destruct Hin as [Heq | Hin]; [|auto].
    inversion Heq; subst. simpl in Hg. apply (get_In_values _ _ Hg). }
  split.
  - intros s Hin. unfold referenced_species in Hin.
    apply in_app_or in Hin. destruct Hin as [Hin | Hin].
    + unfold remap_variant in Hv.
      destruct (variant r) as [names conc | gas cov | fracs | fracs constants].
      * destruct (remap_const_spc_names species_dict initial names); [|discriminate].
        destruct (remap_mapping species_dict conc) as [conc'|] eqn:M; [|discriminate].
        inversion Hv as [Hv']. rewrite <- Hv' in Hin. simpl in Hin.
        apply (Hmap _ _ M). exact Hin.
      * destruct (remap_mapping species_dict gas) as [gas'|] eqn:G; [|discriminate].
        destruct (remap_mapping species_dict cov) as [cov'|] eqn:C; [|discriminate].
        inversion Hv as [Hv']. rewrite <- Hv' in Hin. simpl in Hin.
        apply in_app_or in Hin. destruct Hin as [Hin | Hin].
        -- apply (Hmap _ _ G). exact Hin.
        -- apply (Hmap _ _ C). exact Hin.
      * destruct (remap_mapping species_dict fracs) as [fracs'|] eqn:M; [|discriminate].
        inversion Hv as [Hv']. rewrite <- Hv' in Hin. simpl in Hin.
        apply (Hmap _ _ M). exact Hin.
      * destruct (remap_mapping species_dict fracs) as [fracs'|] eqn:M; [|discriminate].
        inversion Hv as [Hv']. rewrite <- Hv' in Hin. simpl in Hin.
        apply (Hmap _ _ M). exact Hin.
    + apply in_app_or in Hin. destruct Hin as [Hin | Hin].
      * pose proof (remap_termination_remapped species_dict (termination r)) as HF.
        rewrite Ht in HF. simpl in HF. specialize (HF eq_refl).
        unfold termination_species in Hin. apply in_flat_map in Hin.
        destruct Hin as (t' & Ht' & Hs').
        clear -HF Ht' Hs'.
        induction HF as [|t t2 l l' Hrel HF IH]; [destruct Ht'|].
        destruct Ht' as [-> | Ht']; [|auto].
        destruct t as [time | species conversion | ratio]; simpl in Hrel.
        -- subst t'. destruct Hs'.
        -- destruct Hrel as (c & Hg & ->). simpl in Hs'. destruct Hs' as [<- | []].
           apply (get_In_values _ _ Hg).
        -- subst t'. destruct Hs'.
      * unfold sensitive_refs in Hin.
        destruct (is_all_sentinel (sensitive_species r')); [destruct Hin|].
        apply in_flat_map in Hin. destruct Hin as (k' & Hk' & Hs').
        unfold remap_sensitive in Hs.
        destruct (is_all_sentinel (sensitive_species r)) eqn:E.
        -- inversion Hs as [Hs2]. rewrite <- Hs2 in Hk'.
           apply is_all_sentinel_iff in E. rewrite E in Hk'.
           destruct Hk' as [<- | []]. destruct Hs'.
        -- apply comprehension_Ok in Hs.
           clear -Hs Hk' Hs'.
           induction Hs as [|k k2 l l' Hrel HF IH]; [destruct Hk'|].
           destruct Hk' as [-> | Hk']; [|auto].
           apply getitem_key_Ok in Hrel. destruct Hrel as (spec & c & _ & Hg & ->).
           simpl in Hs'. destruct Hs' as [<- | []].
           apply (get_In_values _ _ Hg).
  - intros Hne n Hn. unfold remap_variant in Hv.
    destruct (variant r) as [names conc | gas cov | fracs | fracs constants];
      simpl in Hne; try congruence.
    destruct names as [[|name names]|]; try congruence.
    rewrite remap_const_spc_names_nonempty in Hv.
    remember (name :: names) as l eqn:Hl. clear Hl Hne.
    destruct (build_const_species_dict species_dict initial l []) as [d|e] eqn:B;
      simpl in Hv; [|discriminate].
    destruct (comprehension (getitem_str d) l) as [l'|e] eqn:C; simpl in Hv;
      [|discriminate].
    destruct (remap_mapping species_dict conc) as [conc'|]; [|discriminate].
    inversion Hv as [Hv']. rewrite <- Hv' in Hn. simpl in Hn.
    apply comprehension_Ok in C.
    pose proof (build_const_species_dict_entries _ _ _ _ B) as Hent.
    clear -C Hn Hent.
    induction C as [|x y l0 l1 Hrel HF IH]; [destruct Hn|].
    destruct Hn as [<- | Hn]; [|auto].
    unfold getitem_str in Hrel.
    destruct (PyDict.get String.eqb d x) as [v|] eqn:G; [|discriminate].
    inversion Hrel; subst.
    apply (PyDictFacts.get_In _ string_eqb_spec) in G.
    destruct (Hent _ _ G)
      as [[] | (spec0 & c & _ & _ & Hg & ->)].
    exists c. split; [apply (get_In_values _ _ Hg) | reflexivity].
Qed.


(** *** The assembled job *)

Lemma remap_systems_Ok (species_dict : SpeciesDict Species) (initial : list Species)
    (systems systems' : list ReactionSystem) :
  remap_systems species_dict initial systems = (systems', None) ->
  Forall2 (fun r r' => remap_system species_dict initial r = (r', None)) systems systems'.
Proof.
  revert systems'. induction systems as [|r rest IH]; intro systems'; simpl.
  - intro H. inversion H. constructor.
  - destruct (remap_system species_dict initial r) as [r' [e|]] eqn:R; [discriminate|].
    destruct (remap_systems species_dict initial rest) as [rest' e] eqn:Rs.
    intro H. inversion H; subst. constructor; [exact R | apply IH; reflexivity].
Qed.

Lemma complete_pairs_all_set (reaction_list : list Reaction) :
  Forall (fun rxn => pairs rxn <> None) (fst (complete_pairs reaction_list))
  /\ List.length (fst (complete_pairs reaction_list)) = List.length reaction_list.
Proof.
  induction reaction_list as [|r l [IH1 IH2]]; [split; [constructor | reflexivity]|].
  rewrite complete_pairs_fst. split.
  - constructor; [|exact IH1].
    destruct (pairs_truthy r) eqn:E.
    + unfold pairs_truthy in E. destruct (pairs r); [discriminate | discriminate].
    + simpl. discriminate.
  - simpl. rewrite IH2. reflexivity.
Qed.

(** X9: the loader returns only after all reactors are remapped, and once
    they are, also when the image step raises afterwards, the job holds, as
    its reaction model, the Chemkin species followed by the observed species
    and the Chemkin reactions, each with its pairs set; its initial species
    are the ones it had, and each reactor is the remapped reactor at the same
    place. *)
Theorem load_assembles_model
    (rmg : RMG) (chemkin : list Species * list Reaction)
    (input_dir : string) (generate_images : bool) (fresh : nat) (fs : FileSystem) :
  let out := load_rmg_py_job rmg chemkin input_dir generate_images fresh fs in
  let species_dict := species_dict_built out in
  let remapped :=
    snd (remap_systems species_dict (initial_species rmg) (reaction_systems rmg)) = None in
  (raised out = None -> remapped)
  /\ (remapped ->
      reaction_model (rmg_after out)
      = mkModel (species_list_after out) (fst (complete_pairs (snd chemkin)))
      /\ firstn (List.length (fst chemkin)) (core_species (reaction_model (rmg_after out)))
         = fst chemkin
      /\ Forall (fun rxn => pairs rxn <> None)
           (core_reactions (reaction_model (rmg_after out)))
      /\ List.length (core_reactions (reaction_model (rmg_after out)))
         = List.length (snd chemkin)
      /\ initial_species (rmg_after out) = initial_species rmg
      /\ Forall2 (fun r r' => remap_system species_dict (initial_species rmg) r = (r', None))
           (reaction_systems rmg) (reaction_systems (rmg_after out))).
Proof.
  cbv zeta.
  destruct (load_species_dict_built rmg chemkin input_dir generate_images fresh fs)
    as [Hsd Hsl].
  cbv zeta in Hsd, Hsl. rewrite Hsd, Hsl. clear Hsd Hsl.
  destruct (add_observed_all_copies (reaction_systems rmg) (fst chemkin) fresh)
    as (obs & Hobs & _).
  pose proof (complete_pairs_all_set (snd chemkin)) as [Hset Hlen].
  unfold load_rmg_py_job.
  destruct (add_observed_all (reaction_systems rmg) (fst chemkin, fresh))
    as [sl fresh'].
  simpl in Hobs. subst sl.
  destruct (complete_pairs (snd chemkin)) as [reaction_list calls].
  simpl fst in *.
  destruct (remap_systems (build_species_dict (initial_species rmg) (fst chemkin ++ obs))
              (initial_species rmg) (reaction_systems rmg))
    as [systems' [e|]] eqn:Rs.
  - simpl. split; discriminate.
  - apply remap_systems_Ok in Rs.
    split; [reflexivity|]. intros _.
    destruct generate_images.
    + destruct (generate_species_images input_dir (fst chemkin ++ obs) fs)
        as [[fs' requests] e].
      simpl. rewrite firstn_length_app. repeat split; auto.
    + simpl. rewrite firstn_length_app. repeat split; auto.
Qed.

(** *** Species images *)

(** X10: when the image of every species is on disk, the drawing loop calls
    the renderer for none, leaves the file system as it is and raises
    nothing, whatever the species' structures; if the image directory is
    there too, the whole image step leaves the file system as it is; and with
    image generation off the loader touches no file and requests no
    image. *)
Theorem images_present_nothing_drawn
    (species_path input_dir : string) (species_list : list Species) (fs : FileSystem) :
  ((forall s, In s species_list -> os_path_exists fs (image_path species_path s) = true) ->
   draw_species species_path species_list fs = ((fs, []), None))
  /\ (os_path_exists fs (PyStr.os_path_join input_dir "species") = true ->
      (forall s, In s species_list ->
         os_path_exists fs (image_path (PyStr.os_path_join input_dir "species") s) = true) ->
      generate_species_images input_dir species_list fs = ((fs, []), None))
  /\ (forall rmg chemkin fresh,
        let out := load_rmg_py_job rmg chemkin input_dir false fresh fs in
        fs_after out = fs /\ drawn out = []).
Proof.
  assert (Hdraw : forall path l,
             (forall s, In s l -> os_path_exists fs (image_path path s) = true) ->
             draw_species path l fs = ((fs, []), None)).
  { intros path l. induction l as [|s rest IH]; intro H; simpl; [reflexivity|].
    pose proof (H s (or_introl eq_refl)) as Hs. unfold image_path in Hs. rewrite Hs.
    apply IH. intros x Hx. apply H. right. exact Hx. }
  split; [apply Hdraw|]. split.
  - intros Hdir Hall. unfold generate_species_images.
    rewrite try_mkdir_swallows. unfold os_mkdir. rewrite Hdir. simpl fst.
    apply Hdraw. exact Hall.
  - intros rmg chemkin fresh. cbv zeta. unfold load_rmg_py_job.
    destruct (add_observed_all (reaction_systems rmg) (fst chemkin, fresh)) as [sl fresh'].
    destruct (complete_pairs (snd chemkin)) as [reaction_list calls].
    destruct (remap_systems _ _ _) as [systems' [e|]]; simpl; auto.
Qed.

(** X11: every call of the renderer is for a species of the list, with the
    first of its structures and its image path; and a species without
    structures whose image is missing makes the loop raise [IndexError], also
    when all the species before it have their images, in which case nothing
    is drawn and the file system is left as it is. *)
Theorem draw_requests_for_species
    (species_path : string) (species_list : list Species) (fs : FileSystem) :
  Forall (fun request =>
            exists s, In s species_list
                      /\ hd_error (molecule s) = Some (fst request)
                      /\ snd request = image_path species_path s)
    (snd (fst (draw_species species_path species_list fs)))
  /\ (forall pre s post,
        species_list = pre ++ s :: post ->
        (forall x, In x pre -> os_path_exists fs (image_path species_path x) = true) ->
        os_path_exists fs (image_path species_path s) = false ->
        molecule s = [] ->
        draw_species species_path species_list fs = ((fs, []), Some IndexError)).
Proof.
  split.
  - revert fs. induction species_list as [|s rest IH]; intro fs; simpl.
    + constructor.
    + destruct (os_path_exists fs _).
      * eapply Forall_impl; [|apply IH].
        intros req (x & Hx & Hm & Hp). exists x. auto.
      * destruct (molecule s) as [|m ms] eqn:M; [constructor|].
        destruct (draw m _ fs) as [fs1 [e|]].
        -- simpl. constructor; [|constructor].
           exists s. simpl. rewrite M. auto.
        -- specialize (IH fs1).
           destruct (draw_species species_path rest fs1) as [[fs' requests] e].
           simpl in *. constructor.
           ++ exists s. simpl. rewrite M. auto.
           ++ eapply Forall_impl; [|exact IH].
              intros req (x & Hx & Hm & Hp). exists x. auto.
  - intros pre s post -> Hpre Hs Hmol.
    induction pre as [|a pre IH]; simpl.
    + unfold image_path in Hs. rewrite Hs, Hmol. reflexivity.
    + pose proof (Hpre a (or_introl eq_refl)) as Ha. unfold image_path in Ha.
      rewrite Ha. apply IH. intros x Hx. apply Hpre. right. exact Hx.
Qed.


(** *** Image paths of the two loaders *)

Lemma prefix_empty (x : string) : String.prefix EmptyString x = true.
Proof. destruct x; reflexivity. Qed.

Lemma prefix_slash_png (x : string) :
  String.prefix "/" (String.append x ".png") = String.prefix "/" x.
Proof.
  destruct x as [|c x]; [reflexivity|].
  cbn [String.append String.prefix].
  destruct (ascii_dec "/" c); [|reflexivity].
  rewrite !prefix_empty. reflexivity.
Qed.

Lemma eqb_append_nonempty (a b : string) :
  b <> EmptyString -> String.eqb (String.append a b) EmptyString = false.
Proof.
  intro H. apply String.eqb_neq. apply PyStrMore.append_nonempty. exact H.
Qed.

Lemma species_path_shape (input_dir : string) :
  let species_path := PyStr.os_path_join input_dir "species" in
  String.eqb species_path EmptyString = false
  /\ PyStr.ends_with_slash species_path = false.
Proof.
  unfold PyStr.os_path_join.
  change (String.prefix "/" "species") with false. cbv iota.
  destruct (String.eqb input_dir EmptyString || PyStr.ends_with_slash input_dir)%bool.
  - split.
    + apply eqb_append_nonempty. discriminate.
    + apply PyStrMore.ends_with_slash_species.
  - split.
    + apply eqb_append_nonempty. discriminate.
    + apply PyStrMore.ends_with_slash_append_slash_species.
Qed.

(** X12: for the image directory of a job, the image path of the RMG-Py
    loader is the one of the RMG-Java loader whenever the printed name of the
    species does not start with "/"; when it does, the RMG-Py loader's path
    is that name followed by ".png", outside the image directory. *)
Theorem image_paths_agree (input_dir : string) (s : Species) :
  let species_path := PyStr.os_path_join input_dir "species" in
  (String.prefix "/" (species_str s) = false ->
   image_path species_path s = java_image_path species_path s)
  /\ (String.prefix "/" (species_str s) = true ->
      image_path species_path s = String.append (species_str s) ".png").
Proof.
  intro species_path.
  destruct (species_path_shape input_dir) as [Hne Hslash].
  fold species_path in Hne, Hslash.
  unfold image_path, java_image_path.
  split; intro H; unfold PyStr.os_path_join; rewrite prefix_slash_png, H.
  - rewrite Hne, Hslash. reflexivity.
  - reflexivity.
Qed.

End LoaderExtras.

Section JavaLoaderFacts.

Context {chem : Chemistry} {collab : Collaborators} {smiles : Smiles}.

Local Abbreviation sget := (PyDict.get Species_eqb).

(** *** Bath gases *)

Lemma bath_gas_smiles_cases (lbl smi : string) :
  bath_gas_smiles lbl = Some smi <->
  (lbl = "Ar" /\ smi = "[Ar]") \/ (lbl = "Ne" /\ smi = "[Ne]")
  \/ (lbl = "He" /\ smi = "[He]") \/ (lbl = "N2" /\ smi = "N#N").
Proof.
  unfold bath_gas_smiles.
  destruct (String.eqb lbl "Ar") eqn:E1.
  { apply String.eqb_eq in E1. subst. split.
    - intro H. inversion H. auto.
    - intros [[_ ->] | [[H _] | [[H _] | [H _]]]]; [reflexivity | discriminate..]. }
  destruct (String.eqb lbl "Ne") eqn:E2.
  { apply String.eqb_eq in E2. subst. split.
    - intro H. inversion H. auto.
    - intros [[H _] | [[_ ->] | [[H _] | [H _]]]]; [discriminate | reflexivity | discriminate..]. }
  destruct (String.eqb lbl "He") eqn:E3.
  { apply String.eqb_eq in E3. subst. split.
    - intro H. inversion H. auto.
    - intros [[H _] | [[H _] | [[_ ->] | [H _]]]];
        [discriminate | discriminate | reflexivity | discriminate]. }
  destruct (String.eqb lbl "N2") eqn:E4.
  { apply String.eqb_eq in E4. subst. split.
    - intro H. inversion H. auto 6.
    - intros [[H _] | [[H _] | [[H _] | [_ ->]]]]; [discriminate.. | reflexivity]. }
  apply String.eqb_neq in E1, E2, E3, E4.
  split; [discriminate|]. intros [[H _] | [[H _] | [[H _] | [H _]]]]; contradiction.
Qed.

(** X15: the bath-gas loop keeps the length of the species list and the
    identity, label and reactivity of each species; a species labelled "Ar",
    "Ne", "He" or "N2" ends with the single structure parsed from "[Ar]",
    "[Ne]", "[He]" or "N#N", whatever structures it had, and any other
    species is kept as it is; running the loop again changes nothing. *)
Theorem bath_gases_replaced (species_list : list Species) :
  List.length (set_bath_gases species_list) = List.length species_list
  /\ map ident (set_bath_gases species_list) = map ident species_list
  /\ map label (set_bath_gases species_list) = map label species_list
  /\ map reactive (set_bath_gases species_list) = map reactive species_list
  /\ Forall2 (fun s s' =>
                (forall smi, (label s = "Ar" /\ smi = "[Ar]")
                             \/ (label s = "Ne" /\ smi = "[Ne]")
                             \/ (label s = "He" /\ smi = "[He]")
                             \/ (label s = "N2" /\ smi = "N#N") ->
                             molecule s' = [from_smiles smi])
                /\ (label s <> "Ar" -> label s <> "Ne" -> label s <> "He" ->
                    label s <> "N2" -> s' = s))
       species_list (set_bath_gases species_list)
  /\ set_bath_gases (set_bath_gases species_list) = set_bath_gases species_list.
Proof.
  assert (Hid : forall s, ident (set_bath_gas s) = ident s
                          /\ label (set_bath_gas s) = label s
                          /\ reactive (set_bath_gas s) = reactive s).
  { intro s. unfold set_bath_gas. destruct (bath_gas_smiles (label s)); simpl; auto. }
  unfold set_bath_gases.
  split; [apply length_map|].
  split; [rewrite map_map; apply map_ext; intro s; apply Hid|].
  split; [rewrite map_map; apply map_ext; intro s; apply Hid|].
  split; [rewrite map_map; apply map_ext; intro s; apply Hid|].
  split.
  - induction species_list as [|s l IH]; simpl; constructor; [|exact IH].
    split.
    + intros smi Hcase. apply bath_gas_smiles_cases in Hcase.
      unfold set_bath_gas. rewrite Hcase. reflexivity.
    + intros H1 H2 H3 H4. unfold set_bath_gas.
      destruct (bath_gas_smiles (label s)) as [smi|] eqn:E; [|reflexivity].
      apply bath_gas_smiles_cases in E.
      destruct E as [[E _] | [[E _] | [[E _] | [E _]]]]; contradiction.
  - rewrite map_map. apply map_ext. intro s.
    unfold set_bath_gas at 2.
    destruct (bath_gas_smiles (label s)) as [smi|] eqn:E; [|reflexivity].
    unfold set_bath_gas. simpl. rewrite E. reflexivity.
Qed.

(** *** Termination criteria of the RMG-Java loader *)

Lemma is_mapped_value_iff (species_dict : SpeciesDict Species) (s : Species) :
  is_mapped_value species_dict s = true <-> In s (PyDict.values species_dict).
Proof.
  unfold is_mapped_value. rewrite existsb_exists. split.
  - intros (x & Hx & Heq). apply Species_eqb_spec in Heq. subst. exact Hx.
  - intro H. exists s. split; [exact H | apply Species_eqb_spec; reflexivity].
Qed.

Lemma java_remap_termination_none (species_dict : SpeciesDict Species)
    (ts : list TerminationCriterion) :
  (forall s, In s (termination_species ts) -> In s (PyDict.values species_dict)) ->
  java_remap_termination species_dict ts = (ts, None).
Proof.
  induction ts as [|t ts IH]; simpl; intro H; [reflexivity|].
  destruct t as [time | species conversion | ratio]; simpl in H.
  - rewrite IH by exact H. reflexivity.
  - assert (Hv : is_mapped_value species_dict species = true).
    { apply is_mapped_value_iff. apply H. left. reflexivity. }
    rewrite Hv, IH; [reflexivity|]. intros s Hs. apply H. right. exact Hs.
  - rewrite IH by exact H. reflexivity.
Qed.

Lemma java_remap_termination_values (species_dict : SpeciesDict Species)
    (ts : list TerminationCriterion) :
  snd (java_remap_termination species_dict ts) = None ->
  forall s, In s (termination_species (fst (java_remap_termination species_dict ts))) ->
            In s (PyDict.values species_dict).
Proof.
  induction ts as [|t ts IH]; simpl.
  - intros _ s [].
  - destruct t as [time | species conversion | ratio].
    + destruct (java_remap_termination species_dict ts) as [rest' e]. simpl in *. exact IH.
    + destruct (is_mapped_value species_dict species) eqn:V.
      * destruct (java_remap_termination species_dict ts) as [rest' e]. simpl in *.
        intros He s [<- | Hs]; [apply is_mapped_value_iff; exact V | auto].
      * destruct (getitem species_dict species) as [c|e0] eqn:G; [|simpl; discriminate].
        destruct (java_remap_termination species_dict ts) as [rest' e]. simpl in *.
        intros He s [<- | Hs]; [|auto].
        apply getitem_Ok in G.
        apply (PyDictFacts.get_In _ Species_eqb_spec) in G.
        unfold PyDict.values. apply in_map_iff. exists (species, c). auto.
    + destruct (java_remap_termination species_dict ts) as [rest' e]. simpl in *. exact IH.
Qed.

(** X13: the RMG-Java loader remaps a termination list without an exception
    exactly when the species of each conversion criterion is a key or already
    a value of the identity map; the remapped list then refers to values of
    the map only, and remapping it again changes nothing and raises
    nothing. *)
Theorem java_termination_guard (species_dict : SpeciesDict Species)
    (ts : list TerminationCriterion) :
  let ts' := fst (java_remap_termination species_dict ts) in
  (snd (java_remap_termination species_dict ts) = None
   <-> forall s, In s (termination_species ts) ->
                 In s (PyDict.values species_dict) \/ sget species_dict s <> None)
  /\ (snd (java_remap_termination species_dict ts) = None ->
      (forall s, In s (termination_species ts') -> In s (PyDict.values species_dict))
      /\ java_remap_termination species_dict ts' = (ts', None)).
Proof.
  cbv zeta. split.
  - induction ts as [|t ts IH]; simpl.
    + split; [intros _ s [] | reflexivity].
    + destruct t as [time | species conversion | ratio]; simpl.
      * destruct (java_remap_termination species_dict ts) as [rest' e]. simpl in *. exact IH.
      * destruct (is_mapped_value species_dict species) eqn:V.
        -- destruct (java_remap_termination species_dict ts) as [rest' e]. simpl in *.
           rewrite IH. split.
           ++ intros H s [<- | Hs]; [left; apply is_mapped_value_iff; exact V | auto].
           ++ intros H s Hs. apply H. right. exact Hs.
        -- destruct (getitem species_dict species) as [c|e0] eqn:G.
           ++ destruct (java_remap_termination species_dict ts) as [rest' e]. simpl in *.
              rewrite IH. split.
              ** intros H s [<- | Hs]; [|auto].
                 right. apply getitem_Ok in G. congruence.
              ** intros H s Hs. apply H. right. exact Hs.
           ++ simpl. split; [discriminate|]. intro H. exfalso.
              apply getitem_Raise in G. destruct G as [G _].
              destruct (H species (or_introl eq_refl)) as [Hv | Hk].
              ** apply is_mapped_value_iff in Hv. congruence.
              ** contradiction.
      * destruct (java_remap_termination species_dict ts) as [rest' e]. simpl in *. exact IH.
  - intro H.
    pose proof (java_remap_termination_values species_dict ts H) as Hvals.
    split; [exact Hvals|].
    apply java_remap_termination_none. exact Hvals.
Qed.

(** *** The two loaders on one reactor *)

Lemma java_termination_as_py (species_dict : SpeciesDict Species)
    (ts : list TerminationCriterion) :
  (forall s, In s (termination_species ts) -> ~ In s (PyDict.values species_dict)) ->
  java_remap_termination species_dict ts = remap_termination species_dict ts.
Proof.
  induction ts as [|t ts IH]; simpl; intro H; [reflexivity|].
  destruct t as [time | species conversion | ratio]; simpl in H.
  - rewrite IH by exact H. reflexivity.
  - assert (Hv : is_mapped_value species_dict species = false).
    { destruct (is_mapped_value species_dict species) eqn:V; [|reflexivity].
      apply is_mapped_value_iff in V. exfalso. apply (H species); auto. }
    rewrite Hv, IH; [reflexivity|]. intros s Hs. apply H. right. exact Hs.
  - rewrite IH by exact H. reflexivity.
Qed.

(** X14: on a reactor with an [initial_mole_fractions] mapping whose
    conversion criteria refer to no value of the identity map and whose
    sensitivity list is empty or [['all']], the step of the RMG-Py loader
    assigns the mole fractions and the termination list that the step of the
    RMG-Java loader assigns, and raises the exception that it raises; and in
    the RMG-Java loader a mole-fraction key without an entry in the map leaves
    both attributes as they were. *)
Theorem java_step_as_py_step (species_dict : SpeciesDict Species)
    (initial : list Species) (fracs : SpeciesDict Quantity)
    (ts : list TerminationCriterion) (sens : list PyKey) :
  let java := java_remap_system species_dict fracs ts in
  ((forall s, In s (termination_species ts) -> ~ In s (PyDict.values species_dict)) ->
   sens = [] \/ sens = [KeyStr "all"] ->
   remap_system species_dict initial (mkReactionSystem (SimpleReactor fracs) ts sens)
   = (mkReactionSystem (SimpleReactor (fst (fst java))) (snd (fst java)) sens, snd java)
   /\ forall constants,
        remap_system species_dict initial
          (mkReactionSystem (MBSampledReactor fracs constants) ts sens)
        = (mkReactionSystem (MBSampledReactor (fst (fst java)) constants)
             (snd (fst java)) sens, snd java))
  /\ (forall k, In k (PyDict.keys fracs) -> sget species_dict k = None ->
                exists e, java = ((fracs, ts), Some (KeyError e))).
Proof.
  cbv zeta. split.
  - intros Hterm Hsens.
    assert (Hs : remap_sensitive species_dict sens = Ok sens).
    { destruct Hsens as [-> | ->]; reflexivity. }
    unfold java_remap_system, remap_system, remap_variant.
    rewrite (java_termination_as_py species_dict ts Hterm).
    cbn [variant termination sensitive_species]. rewrite Hs.
    split; [|intro constants].
    + destruct (remap_mapping species_dict fracs) as [fracs'|e]; [|reflexivity].
      destruct (remap_termination species_dict ts) as [ts' [e|]]; reflexivity.
    + destruct (remap_mapping species_dict fracs) as [fracs'|e]; [|reflexivity].
      destruct (remap_termination species_dict ts) as [ts' [e|]]; reflexivity.
  - intros k Hk Hnone. unfold java_remap_system.
    destruct (remap_mapping_fails species_dict fracs k Hk Hnone) as [e He].
    rewrite He. eauto.
Qed.

End JavaLoaderFacts.


(** ** The properties on the sample job *)

Section SampleRuns.

Local Existing Instance Sample.chem.
Local Existing Instance Sample.collab.

Import Sample.

(** C1 on the sample job: methane is bound to the first of the two Chemkin
    species with its structure. *)
Lemma species_dict_first_match_witness :
  In methane [methane; ethane]
  /\ PyDict.get Species_eqb (build_species_dict [methane; ethane] (fst chemkin)) methane
     = Some CH4.
Proof.
  split; [left; reflexivity|].
  destruct (species_dict_first_match [methane; ethane] (fst chemkin) methane
              (or_introl eq_refl)) as (_ & _ & _ & H).
  apply (H [] CH4 [C2H6] CH4_twin [Ar]).
  - reflexivity.
  - reflexivity.
  - reflexivity.
  - intros x [].
Defined.

(** C2 on the sample job: the conversion criterion on propane, which no
    Chemkin species matches, makes the load fail. *)
Lemma unresolved_reference_fails_witness :
  let out := load_rmg_py_job propane_job chemkin "/work" true 100 no_files in
  In propane_reactor (reaction_systems propane_job)
  /\ In propane (referenced_species propane_reactor)
  /\ PyDict.get Species_eqb (species_dict_built out) propane = None
  /\ exists k, raised out = Some (KeyError k)
               /\ drawn out = []
               /\ nth_error (reaction_systems (rmg_after out)) 2 = Some twin_reactor.
Proof.
  assert (H1 : In propane_reactor (reaction_systems propane_job))
    by (right; left; reflexivity).
  assert (H2 : In propane (referenced_species propane_reactor))
    by (right; left; reflexivity).
  assert (H3 : PyDict.get Species_eqb
                 (species_dict_built
                    (load_rmg_py_job propane_job chemkin "/work" true 100 no_files))
                 propane = None)
    by reflexivity.
  cbv zeta. split; [exact H1|]. split; [exact H2|]. split; [exact H3|].
  destruct (unresolved_reference_fails propane_job chemkin "/work" true 100 no_files
              propane_reactor propane H1 H2 H3)
    as (k & pre & r0 & post & pre' & r0' & Hk & _ & _ & _ & _ & _ & _ & Hd).
  exists k. split; [exact Hk|]. split; [exact Hd | reflexivity].
Defined.

(** C3 on the sample reactions: the reactions with two and with three
    cached pairs are kept and not passed to [generate_pairs]; the reactions
    without pairs and with an empty list of pairs get their pairs derived. *)
Lemma complete_pairs_idempotent_witness :
  let reaction_list := [cracking; coupling; emptied; scrambling] in
  let completed := fst (complete_pairs reaction_list) in
  let calls := snd (complete_pairs reaction_list) in
  pairs coupling = None
  /\ pairs emptied = Some []
  /\ (nth_error completed 0 = Some cracking /\ ~ In cracking calls)
  /\ (nth_error completed 1 = Some (generate_pairs coupling) /\ In coupling calls)
  /\ (nth_error completed 2 = Some (generate_pairs emptied) /\ In emptied calls)
  /\ (nth_error completed 3 = Some scrambling /\ ~ In scrambling calls)
  /\ pairs (generate_pairs coupling) = Some [(CH4, C2H6); (CH4_twin, C2H6)]
  /\ pairs (generate_pairs emptied) = Some [(C2H6, CH4)].
Proof.
  cbv zeta.
  destruct (complete_pairs_idempotent [cracking; coupling; emptied; scrambling])
    as (_ & _ & _ & Hkept & Hgen & _).
  split; [reflexivity|]. split; [reflexivity|].
  split.
  { destruct (Hkept [] cracking [coupling; emptied; scrambling]
                (C2H6, CH4) [(C2H6, CH4_twin)] eq_refl eq_refl) as (H1 & _ & H2).
    split; [exact H1 | exact H2]. }
  split.
  { exact (Hgen [cracking] coupling [emptied; scrambling] eq_refl (or_introl eq_refl)). }
  split.
  { exact (Hgen [cracking; coupling] emptied [scrambling] eq_refl (or_intror eq_refl)). }
  split.
  { destruct (Hkept [cracking; coupling; emptied] scrambling []
                (CH4, CH4_twin) [(C2H6, C2H6); (CH4, C2H6)] eq_refl eq_refl)
      as (H1 & _ & H2).
    split; [exact H1 | exact H2]. }
  split; reflexivity.
Defined.

(** C4 as stated fails: two input species with the structure of a single
    Chemkin species are both remapped to it, the second value replaces the
    first, and one value and its share of the sum are lost. *)
Lemma mole_fractions_collide :
  let out := load_rmg_py_job twin_job chemkin "/work" false 100 no_files in
  raised out = None
  /\ map (fun r => mole_fractions (variant r)) (reaction_systems twin_job)
     = [Some [(methane, (3 # 10)%Q); (methane2, (7 # 10)%Q)]]
  /\ map (fun r => mole_fractions (variant r)) (reaction_systems (rmg_after out))
     = [Some [(CH4, (7 # 10)%Q)]]
  /\ ~ Permutation [(3 # 10)%Q; (7 # 10)%Q] [(7 # 10)%Q]
  /\ ~ (py_sum Qplus 0%Q [(3 # 10)%Q; (7 # 10)%Q] == py_sum Qplus 0%Q [(7 # 10)%Q])%Q.
Proof.
  cbv zeta. repeat split.
  - intro H. apply Permutation_length in H. discriminate.
  - vm_compute. discriminate.
Qed.

(** C4 (amended) on the sample job: methane and ethane are bound to
    different Chemkin species, and both mole fractions are kept. *)
Lemma mole_fractions_values_preserved_witness :
  let species_dict := build_species_dict [methane; ethane] (fst chemkin) in
  let m := [(methane, (1 # 2)%Q); (ethane, (1 # 2)%Q)] in
  snd (remap_system species_dict [methane; ethane] gas_reactor) = None
  /\ mole_fractions (variant gas_reactor) = Some m
  /\ NoDup (map (PyDict.get Species_eqb species_dict) (PyDict.keys m))
  /\ exists m',
       mole_fractions
         (variant (fst (remap_system species_dict [methane; ethane] gas_reactor)))
       = Some m'
       /\ PyDict.values m' = [(1 # 2)%Q; (1 # 2)%Q].
Proof.
  cbv zeta.
  assert (Hnd : NoDup (map (PyDict.get Species_eqb
                              (build_species_dict [methane; ethane] (fst chemkin)))
                         (PyDict.keys [(methane, (1 # 2)%Q); (ethane, (1 # 2)%Q)]))).
  { change (NoDup [Some CH4; Some C2H6]).
    constructor.
    - intros [H | []]. discriminate.
    - constructor; [intros [] | constructor]. }
  assert (Hr : remap_system (build_species_dict [methane; ethane] (fst chemkin))
                 [methane; ethane] gas_reactor
               = (fst (remap_system
                         (build_species_dict [methane; ethane] (fst chemkin))
                         [methane; ethane] gas_reactor), None))
    by (vm_compute; reflexivity).
  repeat split; try reflexivity; try exact Hnd.
  destruct (@mole_fractions_values_preserved Sample.chem
              (build_species_dict [methane; ethane] (fst chemkin))
              [methane; ethane] gas_reactor
              (fst (remap_system
                      (build_species_dict [methane; ethane] (fst chemkin))
                      [methane; ethane] gas_reactor))
              [(methane, (1 # 2)%Q); (ethane, (1 # 2)%Q)]
              Hr eq_refl Hnd)
    as (m' & Hm' & Hv & _).
  exists m'. split; [exact Hm' | exact Hv].
Defined.

(** C5 as stated fails: the label "a_obs_b" does not end with "_obs", the
    species is reactive, matches no constant species and no species is
    labelled "a_obs_b_obs", yet the loop makes no copy of it, because "_obs"
    occurs inside the label. *)
Lemma observed_suffix_inside_label :
  ends_with "_obs" (label obs_inside) = false
  /\ reactive obs_inside = true
  /\ (forall c, In c [ethane] -> is_isomorphic obs_inside c = false)
  /\ (forall s2, In s2 [CH4; obs_inside] ->
        label s2 <> String.append (label obs_inside) "_obs")
  /\ PyStr.contains "_obs" (label obs_inside) = true
  /\ map label (fst (add_observed sampled_reactor ([CH4; obs_inside], 100)))
     = ["CH4"; "a_obs_b"; "CH4_obs"].
Proof.
  split; [reflexivity|]. split; [reflexivity|].
  split; [intros c [<- | []]; reflexivity|].
  split; [intros s2 [<- | [<- | []]]; discriminate|].
  split; reflexivity.
Qed.

(** C5 (amended) on the sample species: a sampled reactor holding ethane
    constant gives methane an observed copy. *)
Lemma observed_species_appended_witness :
  reactive CH4 = true
  /\ PyStr.contains "_obs" (label CH4) = false
  /\ (forall c, In c [ethane] -> is_isomorphic CH4 c = false)
  /\ fst (add_observed sampled_reactor ([CH4], 100)) = [CH4; observed_copy 100 CH4]
  /\ label (observed_copy 100 CH4) = "CH4_obs".
Proof.
  assert (Hc : forall c, In c [ethane] -> is_isomorphic CH4 c = false).
  { intros c [<- | []]. reflexivity. }
  split; [reflexivity|]. split; [reflexivity|]. split; [exact Hc|].
  split; [|reflexivity].
  destruct (@observed_species_appended Sample.chem Sample.collab
              [(methane, 1%Q)] [ethane] (termination sampled_reactor) [] [CH4] 100)
    as (_ & _ & _ & _ & _ & _ & H & _).
  apply (H CH4); [reflexivity | reflexivity | exact Hc].
Defined.

(** C6 on the sample species: a second pass for the sampled reactor leaves
    the species list as the first pass left it. *)
Lemma add_observed_idempotent_witness :
  add_observed sampled_reactor (add_observed sampled_reactor (fst chemkin, 100))
  = add_observed sampled_reactor (fst chemkin, 100)
  /\ map label (fst (add_observed sampled_reactor (fst chemkin, 100)))
     = ["CH4"; "C2H6"; "CH4(2)"; "Ar"; "CH4_obs"; "CH4(2)_obs"].
Proof.
  split; [|reflexivity].
  apply (proj1 add_observed_idempotent).
Defined.

(** C7 as stated fails: the directory creation is refused for lack of
    permission, the exception is swallowed, and the loader goes on to request
    the images and returns. *)
Lemma mkdir_permission_error_swallowed :
  let out := load_rmg_py_job gas_job chemkin "/work" true 100 read_only in
  os_mkdir read_only "/work/species" = (read_only, Some (OSError PermissionError))
  /\ try_mkdir read_only "/work/species" = (read_only, None)
  /\ raised out = None
  /\ map snd (drawn out)
     = ["/work/species/CH4.png"; "/work/species/C2H6.png";
        "/work/species/CH4(2).png"; "/work/species/Ar.png"].
Proof. cbv zeta. repeat split. Qed.

(** C7 (amended) on the sample job. *)
Lemma mkdir_failure_ignored_witness :
  snd (os_mkdir read_only (PyStr.os_path_join "/work" "species"))
  = Some (OSError PermissionError)
  /\ try_mkdir read_only (PyStr.os_path_join "/work" "species") = (read_only, None)
  /\ generate_species_images "/work" (fst chemkin) read_only
     = draw_species (PyStr.os_path_join "/work" "species") (fst chemkin) read_only.
Proof.
  split; [reflexivity|].
  destruct (mkdir_failure_ignored read_only "/work" (fst chemkin)) as (_ & _ & H & _).
  apply (H PermissionError). reflexivity.
Defined.

(** C8 on the sample job: a list other than [['all']] is replaced by the
    images of its elements. *)
Lemma sensitive_species_remap_witness :
  let species_dict := build_species_dict [methane; ethane] (fst chemkin) in
  [KeySpecies methane] <> [KeyStr "all"]
  /\ remap_sensitive species_dict [KeySpecies methane] = Ok [KeySpecies CH4]
  /\ Forall2 (sensitive_image species_dict) [KeySpecies methane] [KeySpecies CH4].
Proof.
  cbv zeta.
  assert (Hne : [KeySpecies methane] <> [KeyStr "all"]) by discriminate.
  split; [exact Hne|]. split; [reflexivity|].
  destruct (sensitive_species_remap
              (build_species_dict [methane; ethane] (fst chemkin))
              [KeySpecies methane]) as (_ & _ & H & _).
  apply (proj2 (H Hne) [KeySpecies CH4]). reflexivity.
Defined.

(** C9 on the sample job: the time criterion is kept, the conversion
    criterion on methane becomes one on CH4. *)
Lemma termination_remap_frame_witness :
  let species_dict := build_species_dict [methane; ethane] (fst chemkin) in
  snd (remap_system species_dict [methane; ethane] gas_reactor) = None
  /\ Forall2 (termination_remapped species_dict)
       (termination gas_reactor)
       (termination (fst (remap_system species_dict [methane; ethane] gas_reactor)))
  /\ termination (fst (remap_system species_dict [methane; ethane] gas_reactor))
     = [TerminationTime 10%Q; TerminationConversion CH4 (9 # 10)%Q].
Proof.
  cbv zeta. split; [reflexivity|]. split; [|reflexivity].
  apply (proj2 (termination_remap_frame
                  (build_species_dict [methane; ethane] (fst chemkin))
                  [methane; ethane] gas_reactor)).
  reflexivity.
Defined.

(** C10 on the sample job: "butane" labels no initial species. *)
Lemma const_spc_names_resolution_witness :
  let species_dict := build_species_dict [methane; ethane] (fst chemkin) in
  In "butane" ["ethane"; "butane"]
  /\ (forall spec0, In spec0 [methane; ethane] -> label spec0 <> "butane")
  /\ exists k, remap_const_spc_names species_dict [methane; ethane]
                 (Some ["ethane"; "butane"]) = Raise (KeyError k).
Proof.
  cbv zeta.
  assert (Hin : In "butane" ["ethane"; "butane"]) by (right; left; reflexivity).
  assert (Hno : forall spec0 : Species,
             In spec0 [methane; ethane] -> label spec0 <> "butane").
  { intros spec0 [<- | [<- | []]]; discriminate. }
  split; [exact Hin|]. split; [exact Hno|].
  apply (proj1 (const_spc_names_resolution
                  (build_species_dict [methane; ethane] (fst chemkin))
                  [methane; ethane] "ethane" ["butane"])).
  exists "butane". split; [exact Hin | exact Hno].
Defined.

End SampleRuns.

(** ** The further properties on the sample job *)

Section SampleExtras.

Local Existing Instance Sample.chem.
Local Existing Instance Sample.collab.
Local Existing Instance Sample.smiles.

Import Sample.

Lemma species_dict_sound_witness :
  In (methane, CH4) (build_species_dict [methane; ethane] (fst chemkin))
  /\ In CH4 (fst chemkin)
  /\ is_isomorphic CH4 methane = true.
Proof.
  assert (Hin : In (methane, CH4) (build_species_dict [methane; ethane] (fst chemkin)))
    by (left; reflexivity).
  split; [exact Hin|].
  destruct (species_dict_sound [methane; ethane] (fst chemkin)) as (_ & H & _).
  exact (proj2 (H methane CH4 Hin)).
Defined.

Lemma unique_match_any_order_witness :
  In ethane [methane; ethane]
  /\ Permutation (fst chemkin) (rev (fst chemkin))
  /\ In C2H6 (fst chemkin)
  /\ is_isomorphic C2H6 ethane = true
  /\ (forall x, In x (fst chemkin) -> is_isomorphic x ethane = true -> x = C2H6)
  /\ PyDict.get Species_eqb (build_species_dict [methane; ethane] (rev (fst chemkin))) ethane
     = Some C2H6.
Proof.
  assert (H1 : In ethane [methane; ethane]) by (right; left; reflexivity).
  assert (H2 : Permutation (fst chemkin) (rev (fst chemkin))) by apply Permutation_rev.
  assert (H3 : In C2H6 (fst chemkin)) by (right; left; reflexivity).
  assert (H4 : is_isomorphic C2H6 ethane = true) by reflexivity.
  assert (H5 : forall x, In x (fst chemkin) -> is_isomorphic x ethane = true -> x = C2H6).
  { intros x [<- | [<- | [<- | [<- | []]]]] H; try reflexivity; discriminate H. }
  repeat (split; [assumption|]).
  exact (proj2 (@unique_match_any_order Sample.chem Sample.collab
                  [methane; ethane] (fst chemkin) (rev (fst chemkin))
                  ethane C2H6 H1 H2 H3 H4 H5)).
Defined.

Lemma sample_labels_distinct : NoDup (map label (fst chemkin)).
Proof.
  change (NoDup ["CH4"; "C2H6"; "CH4(2)"; "Ar"]).
  repeat constructor; simpl; intuition discriminate.
Defined.

Lemma observed_species_keep_identity_map_witness :
  isomorphism_by_structure
  /\ build_species_dict [methane; ethane]
       (fst (add_observed_all [sampled_reactor] (fst chemkin, 100)))
     = build_species_dict [methane; ethane] (fst chemkin).
Proof.
  assert (H : isomorphism_by_structure).
  { intros a b c Hm. simpl. unfold shares_structure. rewrite Hm. reflexivity. }
  split; [exact H|].
  apply (@observed_species_keep_identity_map Sample.chem Sample.collab
           [sampled_reactor] [methane; ethane] (fst chemkin) 100 H).
Defined.

Lemma observed_labels_unique_witness :
  NoDup (map label (fst chemkin))
  /\ NoDup (map label
              (fst (add_observed_all [sampled_reactor; gas_reactor; sampled_reactor]
                      (fst chemkin, 100)))).
Proof.
  split; [exact sample_labels_distinct|].
  apply (@observed_labels_unique Sample.chem Sample.collab
           [sampled_reactor; gas_reactor; sampled_reactor]
           (fst chemkin) 100 sample_labels_distinct).
Defined.

Lemma observed_species_bounded_witness :
  NoDup (map label (fst chemkin))
  /\ List.length (fst (add_observed_all [sampled_reactor; sampled_reactor]
                         (fst chemkin, 100)))
     <= 2 * List.length (fst chemkin).
Proof.
  split; [exact sample_labels_distinct|].
  destruct (observed_species_bounded [sampled_reactor; sampled_reactor] (fst chemkin) 100)
    as (_ & _ & _ & H).
  exact (H sample_labels_distinct).
Defined.

Lemma remap_mapping_last_wins_witness :
  let species_dict := build_species_dict [methane; methane2] (fst chemkin) in
  let mapping := [(methane, (3 # 10)%Q); (methane2, (7 # 10)%Q)] in
  remap_mapping species_dict mapping = Ok [(CH4, (7 # 10)%Q)]
  /\ PyDict.get Species_eqb [(CH4, (7 # 10)%Q)] CH4 = last_bound species_dict mapping CH4.
Proof.
  cbv zeta.
  assert (H : remap_mapping (build_species_dict [methane; methane2] (fst chemkin))
                [(methane, (3 # 10)%Q); (methane2, (7 # 10)%Q)]
              = Ok [(CH4, (7 # 10)%Q)]) by reflexivity.
  split; [exact H|].
  destruct (remap_mapping_last_wins
              (build_species_dict [methane; methane2] (fst chemkin))
              [(methane, (3 # 10)%Q); (methane2, (7 # 10)%Q)]) as [_ Hsem].
  destruct (Hsem _ H) as (_ & _ & Hget & _).
  apply Hget.
Defined.

Lemma remap_system_succeeds_iff_witness :
  let species_dict := build_species_dict [methane; ethane] (fst chemkin) in
  snd (remap_system species_dict [methane; ethane] gas_reactor) = None
  /\ species_only (sensitive_species gas_reactor)
  /\ PyDict.get Species_eqb species_dict methane <> None.
Proof.
  cbv zeta.
  assert (H : snd (remap_system (build_species_dict [methane; ethane] (fst chemkin))
                     [methane; ethane] gas_reactor) = None) by reflexivity.
  split; [exact H|].
  destruct (proj1 (remap_system_succeeds_iff
                     (build_species_dict [methane; ethane] (fst chemkin))
                     [methane; ethane] gas_reactor) H) as (Href & Honly & _).
  split; [exact Honly|].
  apply Href. left. reflexivity.
Defined.

Lemma remapped_references_are_values_witness :
  let species_dict := build_species_dict [methane; ethane] (fst chemkin) in
  let r' := fst (remap_system species_dict [methane; ethane] gas_reactor) in
  remap_system species_dict [methane; ethane] gas_reactor = (r', None)
  /\ forall s, In s (referenced_species r') -> In s (PyDict.values species_dict).
Proof.
  cbv zeta.
  assert (H : remap_system (build_species_dict [methane; ethane] (fst chemkin))
                [methane; ethane] gas_reactor
              = (fst (remap_system (build_species_dict [methane; ethane] (fst chemkin))
                        [methane; ethane] gas_reactor), None))
    by (vm_compute; reflexivity).
  split; [exact H|].
  exact (proj1 (@remapped_references_are_values Sample.chem _ _ _ _ H)).
Defined.

Lemma load_assembles_model_witness :
  let out := load_rmg_py_job gas_job chemkin "/work" true 100 no_files in
  raised out = None
  /\ List.length (core_reactions (reaction_model (rmg_after out))) = 2
  /\ Forall (fun rxn => pairs rxn <> None)
       (core_reactions (reaction_model (rmg_after out))).
Proof.
  cbv zeta.
  assert (H : raised (load_rmg_py_job gas_job chemkin "/work" true 100 no_files) = None)
    by reflexivity.
  split; [exact H|].
  destruct (load_assembles_model gas_job chemkin "/work" true 100 no_files) as [H1 H2].
  destruct (H2 (H1 H)) as (_ & _ & Hset & Hlen & _).
  split; [exact Hlen | exact Hset].
Defined.

Lemma images_present_nothing_drawn_witness :
  (forall s, In s (fst chemkin) ->
     os_path_exists all_drawn (image_path "/work/species" s) = true)
  /\ draw_species "/work/species" (fst chemkin) all_drawn = ((all_drawn, []), None).
Proof.
  assert (H : forall s, In s (fst chemkin) ->
                os_path_exists all_drawn (image_path "/work/species" s) = true).
  { intros s [<- | [<- | [<- | [<- | []]]]]; reflexivity. }
  split; [exact H|].
  exact (proj1 (images_present_nothing_drawn "/work/species" "/work" (fst chemkin)
                  all_drawn) H).
Defined.

Lemma draw_requests_for_species_witness :
  os_path_exists all_drawn (image_path "/work/species" ghost) = false
  /\ molecule ghost = []
  /\ draw_species "/work/species" (fst chemkin ++ ghost :: [CH4]) all_drawn
     = ((all_drawn, []), Some IndexError).
Proof.
  split; [reflexivity|]. split; [reflexivity|].
  destruct (draw_requests_for_species "/work/species"
              (fst chemkin ++ ghost :: [CH4]) all_drawn) as [_ H].
  apply (H (fst chemkin) ghost [CH4]).
  - reflexivity.
  - intros s [<- | [<- | [<- | [<- | []]]]]; reflexivity.
  - reflexivity.
  - reflexivity.
Defined.

Lemma image_paths_agree_witness :
  String.prefix "/" (species_str CH4) = false
  /\ image_path (PyStr.os_path_join "/work" "species") CH4
     = java_image_path (PyStr.os_path_join "/work" "species") CH4.
Proof.
  split; [reflexivity|].
  apply (proj1 (image_paths_agree "/work" CH4)). reflexivity.
Defined.

Lemma bath_gases_replaced_witness :
  map molecule (set_bath_gases [CH4; bare_argon]) = [[1]; [3]]
  /\ set_bath_gases (set_bath_gases [CH4; bare_argon]) = set_bath_gases [CH4; bare_argon].
Proof.
  split; [reflexivity|].
  destruct (bath_gases_replaced [CH4; bare_argon]) as (_ & _ & _ & _ & _ & H).
  exact H.
Defined.

Lemma java_termination_guard_witness :
  let species_dict := build_species_dict [methane; ethane] (fst chemkin) in
  let ts := termination gas_reactor in
  snd (java_remap_termination species_dict ts) = None
  /\ java_remap_termination species_dict (fst (java_remap_termination species_dict ts))
     = (fst (java_remap_termination species_dict ts), None)
  /\ snd (remap_termination species_dict (fst (remap_termination species_dict ts)))
     = Some (KeyError (KeySpecies CH4)).
Proof.
  cbv zeta.
  assert (H : snd (java_remap_termination
                     (build_species_dict [methane; ethane] (fst chemkin))
                     (termination gas_reactor)) = None) by reflexivity.
  split; [exact H|]. split; [|reflexivity].
  destruct (java_termination_guard (build_species_dict [methane; ethane] (fst chemkin))
              (termination gas_reactor)) as [_ Hre].
  exact (proj2 (Hre H)).
Defined.

Lemma java_step_as_py_step_witness :
  let species_dict := build_species_dict [methane; ethane] (fst chemkin) in
  let fracs := [(methane, (1 # 2)%Q); (ethane, (1 # 2)%Q)] in
  let ts := termination gas_reactor in
  (forall s, In s (termination_species ts) -> ~ In s (PyDict.values species_dict))
  /\ remap_system species_dict [methane; ethane]
       (mkReactionSystem (SimpleReactor fracs) ts [])
     = (mkReactionSystem
          (SimpleReactor (fst (fst (java_remap_system species_dict fracs ts))))
          (snd (fst (java_remap_system species_dict fracs ts))) [],
        snd (java_remap_system species_dict fracs ts)).
Proof.
  cbv zeta.
  assert (H : forall s, In s (termination_species (termination gas_reactor)) ->
                ~ In s (PyDict.values
                          (build_species_dict [methane; ethane] (fst chemkin)))).
  { intros s [<- | []] [Hc | [Hc | []]]; discriminate Hc. }
  split; [exact H|].
  destruct (java_step_as_py_step (build_species_dict [methane; ethane] (fst chemkin))
              [methane; ethane] [(methane, (1 # 2)%Q); (ethane, (1 # 2)%Q)]
              (termination gas_reactor) []) as [Hstep _].
  exact (proj1 (Hstep H (or_introl eq_refl))).
Defined.

End SampleExtras.
